(** * Nonprofit donor-data generator: a shallow embedding of
    [generate_data.py] (class [NonprofitDataGenerator]) and the properties
    of its generation stages.

    Conventions of the embedding.
    - Python [int] is [Z]; list positions are [nat].
    - Python [float] amounts, weights and rates are exact rationals [Q]
      (decimal literals such as [0.7] are the rationals [7/10]); comparisons
      between rationals use [Qeq], [Qlt], [Qle].
    - The three places where a float product is truncated to a count with
      [int] (donor draws, organizations, pledge donors) are computed in
      IEEE 754 binary64 as CPython does: every literal, configured value
      and intermediate result is rounded to the nearest double, ties to
      even, and a product that is not finite makes [int] raise.
    - [datetime.date] is a record of year, month and day; ordering is the
      lexicographic one Python uses, day arithmetic goes through the
      proleptic Gregorian ordinal as in CPython's [datetime].
    - The three pseudo-random sources of the script ([random], [Faker] and
      [numpy.random]) are three independent streams of raw words consumed
      left to right; every call of a library primitive is a state
      transformer on the stream it draws from.
    - Python dictionaries with string keys that are only read are
      association lists; [set] is stdpp's [gset]. *)

From stdpp Require Import base gmap list strings.
From Stdlib Require Import Ascii ZArith QArith Qround Qabs Qpower Lia Lqa
  Permutation.

Local Open Scope string_scope.
Local Open Scope list_scope.
Local Open Scope Z_scope.

(** ** Dates *)

Module Date.

Record date := mkdate { year : Z; month : Z; day : Z }.

(** Python compares dates as the tuples (year, month, day). *)
Definition ltb (a b : date) : bool :=
  (year a <? year b)
  || ((year a =? year b)
      && ((month a <? month b)
          || ((month a =? month b) && (day a <? day b)))).

Definition eqb (a b : date) : bool :=
  (year a =? year b) && (month a =? month b) && (day a =? day b).

Definition leb (a b : date) : bool := ltb a b || eqb a b.

Definition max (a b : date) : date := if ltb a b then b else a.
Definition min (a b : date) : date := if ltb b a then b else a.

(** CPython [datetime.py]: [_is_leap], [_days_before_year],
    [_days_in_month], [_days_before_month], [_ymd2ord], [_ord2ymd]. *)
Definition is_leap (y : Z) : bool :=
  (y mod 4 =? 0) && (negb (y mod 100 =? 0) || (y mod 400 =? 0)).

Definition days_before_year (y : Z) : Z :=
  let y1 := y - 1 in y1 * 365 + y1 / 4 - y1 / 100 + y1 / 400.

Definition DAYS_IN_MONTH : list Z :=
  [31; 28; 31; 30; 31; 30; 31; 31; 30; 31; 30; 31].

Definition days_in_month (y m : Z) : Z :=
  if (m =? 2) && is_leap y then 29
  else nth (Z.to_nat (m - 1)) DAYS_IN_MONTH 0.

Definition DAYS_BEFORE_MONTH : list Z :=
  [0; 31; 59; 90; 120; 151; 181; 212; 243; 273; 304; 334].

Definition days_before_month (y m : Z) : Z :=
  nth (Z.to_nat (m - 1)) DAYS_BEFORE_MONTH 0
  + (if (2 <? m) && is_leap y then 1 else 0).

Definition toordinal (d : date) : Z :=
  days_before_year (year d) + days_before_month (year d) (month d) + day d.

Definition fromordinal (n0 : Z) : date :=
  let n := n0 - 1 in
  let n400 := n / 146097 in
  let n := n mod 146097 in
  let y := n400 * 400 + 1 in
  let n100 := n / 36524 in
  let n := n mod 36524 in
  let n4 := n / 1461 in
  let n := n mod 1461 in
  let n1 := n / 365 in
  let n := n mod 365 in
  let y := y + n100 * 100 + n4 * 4 + n1 in
  if (n1 =? 4) || (n100 =? 4) then mkdate (y - 1) 12 31
  else
    let leapyear := (n1 =? 3) && (negb (n4 =? 24) || (n100 =? 3)) in
    let m := Z.shiftr (n + 50) 5 in
    let preceding :=
      nth (Z.to_nat (m - 1)) DAYS_BEFORE_MONTH 0
      + (if (2 <? m) && leapyear then 1 else 0) in
    if n <? preceding then
      let m' := m - 1 in
      let preceding' :=
        preceding
        - (nth (Z.to_nat (m' - 1)) DAYS_IN_MONTH 0
           + (if (m' =? 2) && leapyear then 1 else 0)) in
      mkdate y m' (n - preceding' + 1)
    else mkdate y m (n - preceding + 1).

(** [d + timedelta(days=n)] *)
Definition add_days (d : date) (n : Z) : date :=
  fromordinal (toordinal d + n).

(** [(a - b).days] *)
Definition days_between (a b : date) : Z := toordinal a - toordinal b.

End Date.

Import Date.

(** ** Pseudo-random sources *)

(** A generator is a stream of raw words and a read position. *)
Record rng := mkrng { stream : nat -> N; cursor : nat }.

Definition next_word (g : rng) : N * rng :=
  (stream g (cursor g), mkrng (stream g) (S (cursor g))).

(** The script draws from three generators: the [random] module and Faker
    are seeded at import time ([random.seed(12345)], [Faker.seed(12345)]),
    numpy's global generator is never seeded. *)
Record Entropy := mkEntropy { py : rng; fk : rng; np : rng }.

Definition Gen (A : Type) : Type := Entropy -> A * Entropy.

Global Instance gen_ret : MRet Gen := fun A (a : A) e => (a, e).
Global Instance gen_bind : MBind Gen :=
  fun A B (k : A -> Gen B) (m : Gen A) e => let (a, e') := m e in k a e'.

Definition py_word : Gen N :=
  fun e => let (w, g) := next_word (py e) in (w, mkEntropy g (fk e) (np e)).
Definition fk_word : Gen N :=
  fun e => let (w, g) := next_word (fk e) in (w, mkEntropy (py e) g (np e)).
Definition np_word : Gen N :=
  fun e => let (w, g) := next_word (np e) in (w, mkEntropy (py e) (fk e) g).

(** A raw word as a float of [0, 1): 53 random bits over [2^53]. *)
Definition unit_of_word (w : N) : Q :=
  Z.of_N (w mod 2 ^ 53) # (2 ^ 53).

Module Random.

(** [random.random()] *)
Definition random : Gen Q := w ← py_word; mret (unit_of_word w).

(** [Random._randbelow(n)], [n > 0] *)
Definition randbelow (n : Z) : Gen Z :=
  w ← py_word; mret (Z.of_N w mod n).

(** [random.randint(a, b)] *)
Definition randint (a b : Z) : Gen Z :=
  k ← randbelow (b - a + 1); mret (a + k).

(** [random.choice(seq)]; every call site passes a non-empty sequence,
    [d] is never returned. *)
Definition choice {A} (d : A) (seq : list A) : Gen A :=
  i ← randbelow (Z.of_nat (length seq)); mret (nth (Z.to_nat i) seq d).

(** [itertools.accumulate(weights)] *)
Fixpoint accumulate_from (acc : Q) (ws : list Q) : list Q :=
  match ws with
  | [] => []
  | w :: ws' => (acc + w)%Q :: accumulate_from (acc + w)%Q ws'
  end.
Definition accumulate (ws : list Q) : list Q := accumulate_from 0 ws.

(** [bisect.bisect(a, x, 0, hi)] on a non-decreasing list: the number
    of entries among the first [hi] that are [<= x]. *)
Fixpoint bisect (a : list Q) (x : Q) (hi : nat) : nat :=
  match hi, a with
  | S hi', c :: a' => if Qle_bool c x then S (bisect a' x hi') else 0%nat
  | _, _ => 0%nat
  end.

(** One draw of [random.choices(population, weights)]:
    [population[bisect(cum_weights, random() * total, 0, n - 1)]]. *)
Definition choices_index (weights : list Q) (u : Q) : nat :=
  let cum := accumulate weights in
  let total := List.last cum 0%Q in
  bisect cum (u * total)%Q (length weights - 1).

(** [random.choices(population, weights, k=k)]: [k] independent draws,
    one call of [random()] each. *)
Fixpoint choices_indices (weights : list Q) (k : nat) : Gen (list nat) :=
  match k with
  | O => mret []
  | S k' =>
      u ← random;
      rest ← choices_indices weights k';
      mret (choices_index weights u :: rest)
  end.

(** [random.choices(population, weights)[0]] *)
Definition choices1 {A} (d : A) (population : list A) (weights : list Q)
  : Gen A :=
  u ← random; mret (nth (choices_index weights u) population d).

(** [random.sample(population, k)] for [len(population) <= 21]: the pool
    branch of CPython's implementation. *)
Fixpoint sample_pool {A} (d : A) (pool : list A) (n : nat) (k : nat)
  : Gen (list A) :=
  match k with
  | O => mret []
  | S k' =>
      j ← randbelow (Z.of_nat n);
      let x := nth (Z.to_nat j) pool d in
      let pool' := <[Z.to_nat j := nth (n - 1) pool d]> pool in
      rest ← sample_pool d pool' (n - 1) k';
      mret (x :: rest)
  end.
Definition sample {A} (d : A) (population : list A) (k : nat)
  : Gen (list A) :=
  sample_pool d population (length population) k.

(** [random.uniform(a, b)] *)
Definition uniform (a b : Q) : Gen Q :=
  u ← random; mret (a + (b - a) * u)%Q.

End Random.

(** ** Python numeric built-ins on rationals *)

(** [int(x)]: truncation toward zero. *)
Definition py_int (x : Q) : Z :=
  if Qle_bool 0 x then Qfloor x else Qceiling x.

(** Round half to even, as [round] does. *)
Definition round_half_even (x : Q) : Z :=
  let f := Qfloor x in
  let r := (x - inject_Z f)%Q in
  match (r ?= 1 # 2)%Q with
  | Lt => f
  | Gt => f + 1
  | Eq => if Z.even f then f else f + 1
  end.

(** [round(x)] *)
Definition py_round (x : Q) : Z := round_half_even x.

(** [round(x, 2)] *)
Definition round2 (x : Q) : Q := (round_half_even (x * 100) # 100)%Q.

(** [a < b] on rationals, as a boolean. *)
Definition Qlt_bool (a b : Q) : bool := negb (Qle_bool b a).

(** ** Python [float]: IEEE 754 binary64 *)

(** [2 ** k] *)
Definition pow2 (k : Z) : Q :=
  match k with
  | Z0 => 1
  | Zpos p => inject_Z (2 ^ Zpos p)
  | Zneg p => 1 # (2 ^ p)
  end.

(** [floor(log2(x))] for a positive [x]. *)
Definition ilog2 (x : Q) : Z :=
  let e := Z.log2 (Qnum x) - Z.log2 (Zpos (Qden x)) in
  if Qle_bool (pow2 e) x then e else e - 1.

(** The exponent of the unit in the last place at [x]: 53 significant
    bits, the spacing never below [2 ** -1074] (subnormal numbers). *)
Definition ulp_exponent (x : Q) : Z := Z.max (ilog2 (Qabs x) - 52) (-1074).

(** The double nearest to [x], ties to even, the exponent not bounded
    above. *)
Definition round64 (x : Q) : Q :=
  if Qeq_bool x 0 then 0
  else
    let q := ulp_exponent x in
    (inject_Z (round_half_even (x / pow2 q)) * pow2 q)%Q.

(** A float is a finite double, or [None] for an infinity or a NaN.
    [b64 x] is the float a decimal literal or an exact result [x] rounds
    to; it overflows from [2 ** 1024] on. *)
Definition b64 (x : Q) : option Q :=
  let y := round64 x in
  if Qlt_bool (Qabs y) (pow2 1024) then Some y else None.

(** [a * b] and [a + b] on floats. *)
Definition fmul (a b : option Q) : option Q :=
  x ← a; y ← b; b64 (x * y).

Definition fadd (a b : option Q) : option Q :=
  x ← a; y ← b; b64 (x + y).

(** [int(a)] on a float: [None] where [int] raises (OverflowError on an
    infinity, ValueError on a NaN). *)
Definition float_int (a : option Q) : option Z := py_int <$> a.

(** [d.get(key, default)] on a dictionary with string keys. *)
Fixpoint dict_get {V} (d : list (string * V)) (key : string) (default : V) : V :=
  match d with
  | [] => default
  | (k, v) :: d' => if String.eqb k key then v else dict_get d' key default
  end.

(** [key in seq] for a list of strings. *)
Definition str_in (key : string) (seq : list string) : bool :=
  existsb (String.eqb key) seq.

(** ** Faker *)

Module Faker.

(** [fake.date_between(start_date, end_date)]: a day of the closed range,
    drawn from Faker's own generator; an empty range raises
    ([None]). *)
Definition date_between (start_date end_date : date) : Gen (option date) :=
  let span := days_between end_date start_date in
  if span <? 0 then mret None
  else w ← fk_word; mret (Some (add_days start_date (Z.of_N w mod (span + 1)))).

End Faker.

(** ** Configuration ([NonprofitDataGenerator.__init__]) *)

Record GivingPatterns := mkGivingPatterns {
  december_weight : Q;
  giving_tuesday_weight : Q;
  appeal_response_rate : list (string * Q)
}.

Definition default_giving_patterns : GivingPatterns :=
  {| december_weight := 0.3;
     giving_tuesday_weight := 0.1;
     appeal_response_rate :=
       [("Direct Mail", 0.15%Q); ("Email", 0.08%Q); ("Event", 0.25%Q);
        ("Giving Tuesday", 0.20%Q); ("Phone", 0.12%Q);
        ("Social Media", 0.05%Q); ("Board Giving", 0.80%Q);
        ("Peer to Peer", 0.15%Q)] |}.

Record Config := mkConfig {
  start_date : date;
  end_date : date;
  transaction_volume_multiplier : Q;
  organization_percentage : Q;
  pledge_percentage : Q;
  giving_patterns : GivingPatterns;
  state_weights : list (string * Q)
}.

Definition default_state_weights : list (string * Q) :=
  [("CA", 0.25%Q); ("NY", 0.20%Q); ("IL", 0.15%Q); ("TX", 0.08%Q);
   ("FL", 0.08%Q); ("MA", 0.08%Q); ("WA", 0.08%Q); ("OR", 0.08%Q)].

Definition default_config : Config :=
  {| start_date := mkdate 2021 1 1;
     end_date := mkdate 2024 12 31;
     transaction_volume_multiplier := 1;
     organization_percentage := 0.15;
     pledge_percentage := 0.12;
     giving_patterns := default_giving_patterns;
     state_weights := default_state_weights |}.

(** ** Campaigns and campaign-fund mappings ([generate_campaigns]) *)

Record Campaign := mkCampaign {
  c_campaign_id : Z;
  c_name : string;
  c_type : string;
  c_start_date : date;
  c_end_date : date;
  c_goal_amount : Z;
  c_description : string
}.

Record CampaignFund := mkCampaignFund {
  cf_campaign_id : Z;
  cf_fund_id : Z;
  cf_weight : Q;
  cf_is_primary : bool
}.

Definition campaign_types : list (string * string) :=
  [("Annual", "Earth Protectors Annual Fund");
   ("Capital", "Wildlands Corridor Acquisition");
   ("Special", "Forest Fire Recovery");
   ("Program", "Ocean Plastics Initiative");
   ("Special", "Endangered Species Protection");
   ("Program", "Youth Environmental Leadership");
   ("Program", "Native Plant Restoration");
   ("Special", "Clean Water Action");
   ("Capital", "Conservation Science Center");
   ("Annual", "Year-End Sustainability Drive");
   ("Program", "Community Garden Network");
   ("Special", "Renewable Energy Transition");
   ("Event", "Green Gala Annual Dinner");
   ("Event", "Trail Blazer 5K Run/Walk");
   ("Event", "Hike-a-Thon: Miles for Wildlife");
   ("Event", "Eco Film Festival");
   ("Event", "River Cleanup Day");
   ("Event", "Sustainable Living Expo");
   ("Event", "Polar Plunge for Climate Action");
   ("Event", "Cycling for Conservation");
   ("Event", "Moonlight Paddle Fundraiser");
   ("Event", "Bird-a-Thon Counting Challenge");
   ("Event", "Tree Planting Day");
   ("Event", "Nature Photography Auction")].

Definition campaign_fund_affinities : list (string * list Z) :=
  [("Annual", [1; 8]); ("Capital", [2; 8]); ("Special", [3; 4; 7]);
   ("Program", [5; 6]); ("Event", [1; 3; 4; 5])].

(** Campaign length in days by type. *)
Definition campaign_length (campaign_type : string) : Z :=
  if String.eqb campaign_type "Annual" then 365
  else if String.eqb campaign_type "Capital" then 730
  else 180.

(** [weights = [0.7, 0.2, 0.1][:num_funds]], extended when shorter than
    [num_funds]. *)
Definition fund_weights (num_funds : nat) : list Q :=
  let weights := take num_funds [0.7%Q; 0.2%Q; 0.1%Q] in
  if (length weights <? num_funds)%nat then
    let remaining := (num_funds - length weights)%nat in
    weights ++ replicate remaining (0.1 / inject_Z (Z.of_nat remaining))%Q
  else weights.

(** The rows appended for one campaign: [enumerate(selected_funds)]. *)
Definition mapping_rows (campaign_id : Z) (selected_funds : list Z)
    (weights : list Q) : list CampaignFund :=
  imap (fun i fund_id =>
          {| cf_campaign_id := campaign_id;
             cf_fund_id := fund_id;
             cf_weight := nth i weights 0%Q;
             cf_is_primary := Nat.eqb i 0 |}) selected_funds.

(** The block that associates one campaign with one to three of the funds
    relevant to its type. *)
Definition select_campaign_funds (campaign_type : string) (campaign_id : Z)
  : Gen (list CampaignFund) :=
  let relevant_funds := dict_get campaign_fund_affinities campaign_type [1] in
  r ← Random.randint 1 3;
  let num_funds := Z.to_nat (Z.min (Z.of_nat (length relevant_funds)) r) in
  selected ← Random.sample 0 relevant_funds num_funds;
  let selected_funds := match selected with [] => [1] | _ => selected end in
  let weights := fund_weights num_funds in
  mret (mapping_rows campaign_id selected_funds weights).

(** The body of the loop over [campaign_types]; [None] when Faker raises on
    an empty date range. *)
Fixpoint campaigns_loop (cfg : Config) (templates : list (string * string))
    (campaign_id : Z) (campaigns : list Campaign)
    (campaign_fund_mappings : list CampaignFund)
  : Gen (option (list Campaign * list CampaignFund)) :=
  match templates with
  | [] => mret (Some (campaigns, campaign_fund_mappings))
  | (campaign_type, name) :: rest =>
      let len := campaign_length campaign_type in
      o ← Faker.date_between (start_date cfg) (add_days (end_date cfg) (- len));
      match o with
      | None => mret None
      | Some c_start =>
          let c_end := add_days c_start len in
          goal ← Random.choice 0 [50000; 100000; 250000; 500000; 1000000];
          let campaign :=
            {| c_campaign_id := campaign_id;
               c_name := name;
               c_type := campaign_type;
               c_start_date := c_start;
               c_end_date := c_end;
               c_goal_amount := goal;
               c_description := "Campaign for " +:+ name |} in
          rows ← select_campaign_funds campaign_type campaign_id;
          campaigns_loop cfg rest (campaign_id + 1)
            (campaigns ++ [campaign]) (campaign_fund_mappings ++ rows)
      end
  end.

Definition generate_campaigns (cfg : Config)
  : Gen (option (list Campaign * list CampaignFund)) :=
  campaigns_loop cfg campaign_types 1 [] [].

(** The mapping rows of one campaign. *)
Definition rows_of_campaign (campaign_id : Z) (rows : list CampaignFund)
  : list CampaignFund :=
  filter (fun cf => cf_campaign_id cf = campaign_id) rows.

Definition Qsum (l : list Q) : Q := foldr Qplus 0%Q l.

(** ** Appeals ([generate_appeals]) *)

Record Appeal := mkAppeal {
  a_appeal_id : Z;
  a_campaign_id : Z;
  a_name : string;
  a_type : string;
  a_seasonal : string;
  a_start_date : date;
  a_end_date : date;
  a_goal_amount : Z;
  a_description : string
}.

Definition appeal_type_mapping : list (string * list string) :=
  [("Annual", ["Direct Mail"; "Email Campaign"; "Phone-a-thon";
               "Giving Tuesday"; "Monthly Giving Program"]);
   ("Capital", ["Major Donor Cultivation"; "Corporate Partnerships";
                "Board Giving"; "Grant Application"]);
   ("Special", ["Social Media Challenge"; "Peer to Peer"; "Email Campaign";
                "Volunteer Fundraising"]);
   ("Program", ["Grant Application"; "Email Campaign"; "Direct Mail";
                "Monthly Giving Program"]);
   ("Event", ["Event"; "Peer to Peer"; "Social Media Challenge";
              "Corporate Partnerships"])].

Definition includes_december (c : Campaign) : bool :=
  ((month (c_start_date c) <=? 12) && (12 <=? month (c_end_date c)))
  || ((month (c_end_date c) <? month (c_start_date c))
      && (year (c_start_date c) <? year (c_end_date c))).

Definition includes_november (c : Campaign) : bool :=
  ((month (c_start_date c) <=? 11) && (11 <=? month (c_end_date c)))
  || ((month (c_end_date c) <? month (c_start_date c))
      && (year (c_start_date c) <? year (c_end_date c))).

(** [year = max(min(campaign['end_date'].year, 2024), 2021)] *)
Definition anchor_year (c : Campaign) : Z :=
  Z.max (Z.min (year (c_end_date c)) 2024) 2021.

(** The December block of the loop body. *)
Definition december_appeal (c : Campaign) (relevant_appeal_types : list string)
    (appeal_id : Z) : Gen (list Appeal) :=
  if includes_december c && str_in "Direct Mail" relevant_appeal_types then
    let y := anchor_year c in
    let december_start := mkdate y 12 1 in
    let december_end := mkdate y 12 31 in
    if Date.leb december_start (c_end_date c)
       && Date.leb (c_start_date c) december_end then
      goal ← Random.choice 0 [10000; 25000; 50000; 100000];
      mret [{| a_appeal_id := appeal_id;
               a_campaign_id := c_campaign_id c;
               a_name := "Year-End Appeal - " +:+ c_name c;
               a_type := "Direct Mail";
               a_seasonal := "December";
               a_start_date := december_start;
               a_end_date := december_end;
               a_goal_amount := goal;
               a_description := "Year-end appeal for " +:+ c_name c |}]
    else mret []
  else mret [].

(** The Giving Tuesday block of the loop body. *)
Definition giving_tuesday_appeal (c : Campaign) (appeal_id : Z)
  : Gen (list Appeal) :=
  if includes_november c
     && str_in (c_type c) ["Annual"; "Special"; "Program"] then
    let y := anchor_year c in
    let giving_tuesday := mkdate y 11 30 in
    if Date.leb giving_tuesday (c_end_date c)
       && Date.leb (c_start_date c) giving_tuesday then
      goal ← Random.choice 0 [5000; 10000; 25000];
      mret [{| a_appeal_id := appeal_id;
               a_campaign_id := c_campaign_id c;
               a_name := "Giving Tuesday - " +:+ c_name c;
               a_type := "Giving Tuesday";
               a_seasonal := "Giving Tuesday";
               a_start_date := add_days (mkdate y 11 30) (-7);
               a_end_date := add_days (mkdate y 11 30) 1;
               a_goal_amount := goal;
               a_description := "Giving Tuesday appeal for " +:+ c_name c |}]
    else mret []
  else mret [].

(** Regular appeals [i, i+1, ..., num_appeals - 1] of one campaign. *)
Fixpoint regular_appeals (c : Campaign) (relevant_appeal_types : list string)
    (num_appeals campaign_duration : Z) (todo : nat) (i : Z) (appeal_id : Z)
  : Gen (list Appeal) :=
  match todo with
  | O => mret []
  | S todo' =>
      appeal_type ← Random.choice "" relevant_appeal_types;
      let appeal_start :=
        add_days (c_start_date c)
          (py_int ((inject_Z campaign_duration / inject_Z (num_appeals + 1))
                   * inject_Z (i + 1))%Q) in
      appeal_duration ←
        (if String.eqb appeal_type "Event" then mret 1
         else if str_in appeal_type
                   ["Email Campaign"; "Giving Tuesday"; "Social Media Challenge"]
              then Random.randint 1 14
              else Random.randint 14 45);
      goal ← Random.choice 0 [5000; 10000; 25000; 50000];
      let appeal :=
        {| a_appeal_id := appeal_id;
           a_campaign_id := c_campaign_id c;
           a_name := appeal_type +:+ " - " +:+ c_name c;
           a_type := appeal_type;
           a_seasonal := "Regular";
           a_start_date := appeal_start;
           a_end_date := add_days appeal_start appeal_duration;
           a_goal_amount := goal;
           a_description := appeal_type +:+ " appeal for " +:+ c_name c |} in
      rest ← regular_appeals c relevant_appeal_types num_appeals
               campaign_duration todo' (i + 1) (appeal_id + 1);
      mret (appeal :: rest)
  end.

(** The appeals one campaign contributes, numbered from [appeal_id]. *)
Definition campaign_appeals (c : Campaign) (appeal_id : Z) : Gen (list Appeal) :=
  let relevant_appeal_types :=
    dict_get appeal_type_mapping (c_type c) ["Direct Mail"; "Email Campaign"] in
  num_appeals ← Random.randint 2 4;
  let campaign_duration := days_between (c_end_date c) (c_start_date c) in
  dec ← december_appeal c relevant_appeal_types appeal_id;
  let appeal_id := appeal_id + Z.of_nat (length dec) in
  gt ← giving_tuesday_appeal c appeal_id;
  let appeal_id := appeal_id + Z.of_nat (length gt) in
  reg ← regular_appeals c relevant_appeal_types num_appeals campaign_duration
          (Z.to_nat num_appeals) 0 appeal_id;
  mret (dec ++ gt ++ reg).

Fixpoint appeals_loop (campaigns : list Campaign) (appeal_id : Z)
    (appeals : list Appeal) : Gen (list Appeal) :=
  match campaigns with
  | [] => mret appeals
  | c :: rest =>
      new ← campaign_appeals c appeal_id;
      appeals_loop rest (appeal_id + Z.of_nat (length new)) (appeals ++ new)
  end.

Definition generate_appeals (campaigns : list Campaign) : Gen (list Appeal) :=
  appeals_loop campaigns 1 [].

(** ** Concrete generators for worked examples *)

(** The generator that replays the given words and then yields zeros. *)
Definition rng_of_list (ws : list N) : rng :=
  mkrng (fun i => nth i ws 0%N) 0.

Definition entropy_of_lists (py_ws fk_ws np_ws : list N) : Entropy :=
  mkEntropy (rng_of_list py_ws) (rng_of_list fk_ws) (rng_of_list np_ws).

(** The raw word whose unit-interval value is [p / q] rounded down to 53
    bits. *)
Definition word_of_fraction (p q : N) : N := (p * 2 ^ 53 / q)%N.

(** ** Constituents and donor segments *)

Record Constituent := mkConstituent {
  constituent_id : Z;
  type : string;
  organization_name : option string;
  organization_type : option string;
  first_name : option string;
  last_name : option string;
  gender : option string;
  email : string;
  phone : string;
  address : string;
  city : string;
  state : string;
  postal_code : string;
  creation_date : date;
  lifetime_giving : Q;
  first_gift_date : option date;
  last_gift_date : option date
}.

Record Segment := mkSegment {
  frequency : string;
  level : string;
  giving_trend : string;
  cause_affinity : list Z
}.

(** ** The transaction engine ([generate_transactions] and its helpers) *)

Record Transaction := mkTransaction {
  t_transaction_id : Z;
  t_constituent_id : Z;
  t_appeal_id : Z;
  t_campaign_id : Z;
  t_fund_id : Z;
  t_date : date;
  t_amount : Q;
  t_payment_method : string;
  t_type : string;
  t_status : string
}.

(** [update_donor_metrics]: the first constituent with the given id is
    updated, the scan stops there. *)
Definition record_gift (c : Constituent) (amount : Q) (d : date) : Constituent :=
  {| constituent_id := constituent_id c;
     type := type c;
     organization_name := organization_name c;
     organization_type := organization_type c;
     first_name := first_name c;
     last_name := last_name c;
     gender := gender c;
     email := email c;
     phone := phone c;
     address := address c;
     city := city c;
     state := state c;
     postal_code := postal_code c;
     creation_date := creation_date c;
     lifetime_giving := (lifetime_giving c + amount)%Q;
     first_gift_date :=
       match first_gift_date c with
       | None => Some d
       | Some f => Some f
       end;
     last_gift_date :=
       Some (Date.max (default d (last_gift_date c)) d) |}.

Fixpoint update_donor_metrics (constituents : list Constituent)
    (id : Z) (amount : Q) (d : date) : list Constituent :=
  match constituents with
  | [] => []
  | c :: rest =>
      if constituent_id c =? id then record_gift c amount d :: rest
      else c :: update_donor_metrics rest id amount d
  end.

(** Response rate of an appeal: the first lines of the loop body. *)
Definition response_rate (gp : GivingPatterns) (appeal : Appeal) : Q :=
  let is_december_appeal := String.eqb (a_seasonal appeal) "December" in
  let is_giving_tuesday := String.eqb (a_seasonal appeal) "Giving Tuesday" in
  let base_response_rate :=
    dict_get (appeal_response_rate gp) (a_type appeal) 0.10%Q in
  if is_december_appeal then
    (base_response_rate * (1 + december_weight gp))%Q
  else if is_giving_tuesday then
    (base_response_rate * (1 + giving_tuesday_weight gp))%Q
  else base_response_rate.

Definition potential_donors (constituents : list Constituent) (appeal : Appeal)
  : list Constituent :=
  filter (fun c => Date.leb (creation_date c) (a_end_date appeal) = true)
    constituents.

(** The same lines as the interpreter evaluates them, in binary64. *)
Definition response_rate_b64 (gp : GivingPatterns) (appeal : Appeal)
  : option Q :=
  let is_december_appeal := String.eqb (a_seasonal appeal) "December" in
  let is_giving_tuesday := String.eqb (a_seasonal appeal) "Giving Tuesday" in
  let base_response_rate :=
    b64 (dict_get (appeal_response_rate gp) (a_type appeal) 0.10%Q) in
  if is_december_appeal then
    fmul base_response_rate (fadd (b64 1) (b64 (december_weight gp)))
  else if is_giving_tuesday then
    fmul base_response_rate (fadd (b64 1) (b64 (giving_tuesday_weight gp)))
  else base_response_rate.

(** [len(potential_donors) * response_rate * multiplier], multiplied from
    left to right in binary64. *)
Definition draw_product (cfg : Config) (appeal : Appeal)
    (donors : list Constituent) : option Q :=
  fmul (fmul (b64 (inject_Z (Z.of_nat (length donors))))
          (response_rate_b64 (giving_patterns cfg) appeal))
    (b64 (transaction_volume_multiplier cfg)).

(** [int(len(potential_donors) * response_rate * multiplier)] *)
Definition num_donors_raw (cfg : Config) (appeal : Appeal)
    (donors : list Constituent) : option Z :=
  float_int (draw_product cfg appeal donors).

Definition frequency_weights : list (string * Q) :=
  [("One-time", 0.7%Q); ("Occasional", 1.0%Q); ("Regular", 2.0%Q);
   ("Loyal", 3.0%Q)].

Definition primary_fund (campaign_funds : list CampaignFund) (campaign_id : Z)
  : Z :=
  match filter (fun cf => cf_campaign_id cf = campaign_id
                          /\ cf_is_primary cf = true) campaign_funds with
  | cf :: _ => cf_fund_id cf
  | [] => 1
  end.

Definition donor_weight (donor_segments : gmap Z Segment)
    (campaign_funds : list CampaignFund) (campaign_id : Z)
    (donor : Constituent) : Q :=
  let segment := donor_segments !! constituent_id donor in
  let weight := 1.0%Q in
  let affinity := from_option cause_affinity [] segment in
  let weight :=
    if bool_decide (primary_fund campaign_funds campaign_id ∈ affinity)
    then (weight * 3.0)%Q else weight in
  (weight
   * dict_get frequency_weights
       (from_option frequency "One-time" segment) 1.0)%Q.

(** [total_weight = sum(donor_weights) or 1] and the normalisation. *)
Definition normalized_weights (donor_weights : list Q) : list Q :=
  let s := Qsum donor_weights in
  let total_weight := if Qeq_bool s 0 then 1%Q else s in
  map (fun w => (w / total_weight)%Q) donor_weights.

(** The donors drawn for one appeal, as positions in [potential_donors]:
    [random.choices(range(n), weights=normalized_weights, k=num_donors)]
    after [num_donors = min(num_donors, len(potential_donors))].  Where
    [int] raises on a product that is not finite the engine, which has no
    failure of its own, draws nobody. *)
Definition select_donors (cfg : Config) (donor_segments : gmap Z Segment)
    (campaign_funds : list CampaignFund) (appeal : Appeal)
    (donors : list Constituent) : Gen (list nat) :=
  let num_donors := default 0 (num_donors_raw cfg appeal donors) in
  let donor_weights :=
    map (donor_weight donor_segments campaign_funds (a_campaign_id appeal))
      donors in
  let num_donors := Z.min num_donors (Z.of_nat (length donors)) in
  Random.choices_indices (normalized_weights donor_weights)
    (Z.to_nat num_donors).

(** [int(random.triangular(0, days_range, days_range * 0.8))] over the
    reals: the square root is taken exactly and truncated. *)
Definition ceil_sqrt (x : Q) : Z :=
  let r := Z.sqrt (Qfloor x) in
  if Qeq_bool (inject_Z (r * r)) x then r else r + 1.

Definition triangular_day_offset (days_range : Z) : Gen Z :=
  u ← Random.random;
  let c := 0.8%Q in
  let d2 := inject_Z (days_range * days_range) in
  if Qle_bool u c then
    mret (Z.sqrt (Qfloor (d2 * (u * c))%Q))
  else
    mret (days_range - ceil_sqrt (d2 * ((1 - u) * (1 - c)))%Q).

Definition transaction_date (appeal : Appeal) : Gen date :=
  if String.eqb (a_type appeal) "Event" then mret (a_end_date appeal)
  else
    let days_range := days_between (a_end_date appeal) (a_start_date appeal) in
    if days_range <=? 0 then mret (a_start_date appeal)
    else
      day_offset ← triangular_day_offset days_range;
      mret (add_days (a_start_date appeal) day_offset).

(** [select_fund_for_transaction] *)
Definition select_fund_for_transaction (campaign_funds : list CampaignFund)
    (campaign_id : Z) : Gen Z :=
  let cfs := rows_of_campaign campaign_id campaign_funds in
  match cfs with
  | [] => mret 1
  | _ => Random.choices1 0 (map cf_fund_id cfs) (map cf_weight cfs)
  end.

Definition level_ranges : list (string * list (string * (Q * Q))) :=
  [("Organization",
     [("Small", (100, 500)); ("Medium", (501, 2500));
      ("Major", (2501, 10000)); ("Principal", (10001, 100000))]%Q);
   ("Individual",
     [("Small", (5, 100)); ("Medium", (101, 500));
      ("Major", (501, 2500)); ("Principal", (2501, 25000))]%Q)].

Definition amount_multipliers : list (string * Q) :=
  [("Giving Tuesday", 1.3%Q); ("Event", 1.5%Q); ("Board Giving", 2.0%Q);
   ("Direct Mail", 0.8%Q); ("Email", 0.7%Q);
   ("Major Donor Cultivation", 3.0%Q); ("Corporate Partnerships", 2.5%Q);
   ("Peer to Peer", 0.9%Q)].

Definition trend_multipliers : list (string * Q) :=
  [("Increasing", 1.2%Q); ("Stable", 1.0%Q); ("Decreasing", 0.8%Q)].

(** [generate_transaction_amount]; the constituent is looked up by id in
    [self.constituents] (it is always present: donors are drawn from that
    list). *)
Definition generate_transaction_amount (cfg : Config)
    (constituents : list Constituent) (donor_segments : gmap Z Segment)
    (id : Z) (appeal_type : string) : Gen Q :=
  let constituent_type :=
    from_option type "Individual"
      (List.find (fun c => constituent_id c =? id) constituents) in
  let segment :=
    default (mkSegment "One-time" "Small" "Stable" [])
      (donor_segments !! id) in
  let individual := dict_get level_ranges "Individual" [] in
  let type_ranges := dict_get level_ranges constituent_type individual in
  let '(min_amt, max_amt) :=
    dict_get type_ranges (level segment)
      (dict_get type_ranges "Small" (0, 0)%Q) in
  let multiplier := dict_get amount_multipliers appeal_type 1.0%Q in
  let trend_multiplier :=
    dict_get trend_multipliers (giving_trend segment) 1.0%Q in
  x ← Random.uniform min_amt max_amt;
  let amount := round2 (x * multiplier * trend_multiplier) in
  mret (amount * transaction_volume_multiplier cfg)%Q.

(** [generate_payment_method] *)
Definition generate_payment_method (constituent_type : string) (amount : Q)
  : Gen string :=
  let methods : list (string * Q) :=
    if String.eqb constituent_type "Organization" then
      if Qle_bool 5000 amount then
        [("Check", 0.60%Q); ("ACH", 0.35%Q); ("Other", 0.05%Q)]
      else
        [("Credit Card", 0.30%Q); ("Check", 0.50%Q); ("ACH", 0.18%Q);
         ("Other", 0.02%Q)]
    else
      if Qle_bool 1000 amount then
        [("Credit Card", 0.40%Q); ("Check", 0.45%Q); ("ACH", 0.12%Q);
         ("Other", 0.03%Q)]
      else
        [("Credit Card", 0.65%Q); ("Check", 0.20%Q); ("ACH", 0.08%Q);
         ("Cash", 0.05%Q); ("Other", 0.02%Q)] in
  Random.choices1 "" (map fst methods) (map snd methods).

(** The state the engine threads through its loops: the constituents (whose
    running aggregates it mutates), the transactions appended so far and
    the next transaction id. *)
Record Engine := mkEngine {
  e_constituents : list Constituent;
  e_transactions : list Transaction;
  e_transaction_id : Z
}.

Definition multi_gift_probs : list (string * Q) :=
  [("One-time", 0.001%Q); ("Occasional", 0.005%Q); ("Regular", 0.01%Q);
   ("Loyal", 0.05%Q)].

Section TransactionEngine.

Variable cfg : Config.
Variable donor_segments : gmap Z Segment.
Variable campaign_funds : list CampaignFund.

(** One gift: the body of [for gift_num in range(num_gifts)]. *)
Definition make_gift (appeal : Appeal) (donor : Constituent) (gift_num : Z)
    (st : Engine) : Gen Engine :=
  d ← transaction_date appeal;
  fund_id ← select_fund_for_transaction campaign_funds (a_campaign_id appeal);
  amount ← generate_transaction_amount cfg (e_constituents st)
             donor_segments (constituent_id donor) (a_type appeal);
  let amount := if 0 <? gift_num then (amount * 0.7)%Q else amount in
  payment_method ← generate_payment_method (type donor) amount;
  let transaction :=
    {| t_transaction_id := e_transaction_id st;
       t_constituent_id := constituent_id donor;
       t_appeal_id := a_appeal_id appeal;
       t_campaign_id := a_campaign_id appeal;
       t_fund_id := fund_id;
       t_date := d;
       t_amount := amount;
       t_payment_method := payment_method;
       t_type := "Gift";
       t_status := "Completed" |} in
  mret {| e_constituents :=
            update_donor_metrics (e_constituents st)
              (constituent_id donor) amount d;
          e_transactions := e_transactions st ++ [transaction];
          e_transaction_id := e_transaction_id st + 1 |}.

Fixpoint gifts_loop (appeal : Appeal) (donor : Constituent)
    (todo : nat) (gift_num : Z) (st : Engine) : Gen Engine :=
  match todo with
  | O => mret st
  | S todo' =>
      st' ← make_gift appeal donor gift_num st;
      gifts_loop appeal donor todo' (gift_num + 1) st'
  end.

(** The body of [for donor in appeal_donors]. *)
Definition donor_gifts (appeal : Appeal) (donor : Constituent) (st : Engine)
  : Gen Engine :=
  let donor_frequency :=
    from_option frequency "One-time"
      (donor_segments !! constituent_id donor) in
  let multi_gift_prob := dict_get multi_gift_probs donor_frequency 0.05%Q in
  u ← Random.random;
  num_gifts ←
    (if Qlt_bool u multi_gift_prob
     then Random.choices1 0 [2; 3] [0.8%Q; 0.2%Q]
     else mret 1);
  gifts_loop appeal donor (Z.to_nat num_gifts) 0 st.

Fixpoint donors_loop (appeal : Appeal) (appeal_donors : list Constituent)
    (st : Engine) : Gen Engine :=
  match appeal_donors with
  | [] => mret st
  | donor :: rest =>
      st' ← donor_gifts appeal donor st;
      donors_loop appeal rest st'
  end.

(** The body of [for appeal in self.appeals].  The source also looks up
    the campaign record by id and files each donor under the appeal's start
    year; neither result is read again, so both are left out.  Of a drawn
    donor only the id and the type are read, which no update changes. *)
Definition appeal_transactions (appeal : Appeal) (st : Engine) : Gen Engine :=
  let donors := potential_donors (e_constituents st) appeal in
  match donors with
  | [] => mret st
  | d0 :: _ =>
      selected_indices ←
        select_donors cfg donor_segments campaign_funds appeal donors;
      let appeal_donors := map (fun i => nth i donors d0) selected_indices in
      donors_loop appeal appeal_donors st
  end.

Fixpoint appeals_engine_loop (appeals : list Appeal) (st : Engine)
  : Gen Engine :=
  match appeals with
  | [] => mret st
  | appeal :: rest =>
      st' ← appeal_transactions appeal st;
      appeals_engine_loop rest st'
  end.

(** [generate_transactions]: the transactions and the constituents with
    their updated aggregates. *)
Definition generate_transactions (constituents : list Constituent)
    (appeals : list Appeal) : Gen Engine :=
  appeals_engine_loop appeals (mkEngine constituents [] 1).

End TransactionEngine.

(** ** The pledge engine ([generate_pledges]) *)

Record Pledge := mkPledge {
  p_pledge_id : Z;
  p_constituent_id : Z;
  p_campaign_id : Z;
  total_amount : Q;
  installment_amount : Q;
  p_start_date : date;
  p_frequency : string;
  installments : Z;
  p_status : string
}.

Record PledgePayment := mkPledgePayment {
  pp_payment_id : Z;
  pp_pledge_id : Z;
  pp_amount : Q;
  pp_date : date;
  pp_status : string
}.

Definition frequency_mapping : list (string * list string) :=
  [("One-time", ["Annual"]); ("Occasional", ["Annual"; "Quarterly"]);
   ("Regular", ["Monthly"; "Quarterly"]);
   ("Loyal", ["Monthly"; "Quarterly"; "Annual"])].

(** Keys of [donors_with_transactions] in insertion order. *)
Fixpoint first_occurrences (seen : list Z) (ids : list Z) : list Z :=
  match ids with
  | [] => []
  | i :: rest =>
      if bool_decide (i ∈ seen) then first_occurrences seen rest
      else i :: first_occurrences (i :: seen) rest
  end.

Definition transactions_of (transactions : list Transaction) (id : Z)
  : list Transaction :=
  filter (fun t => t_constituent_id t = id) transactions.

Definition eligible_donors (transactions : list Transaction) : list Z :=
  filter (fun id => (2 <= length (transactions_of transactions id))%nat)
    (first_occurrences [] (map t_constituent_id transactions)).

(** Days per installment period. *)
Definition period_days (frequency : string) : Z :=
  if String.eqb frequency "Monthly" then 30
  else if String.eqb frequency "Quarterly" then 90
  else 365.

(** [installment_amount] and [total_amount] of a pledge. *)
Definition pledge_installment_amount (frequency : string) (avg_gift : Q) : Q :=
  if String.eqb frequency "Monthly" then round2 (avg_gift * 1.5)
  else if String.eqb frequency "Quarterly" then round2 (avg_gift * 3)
  else round2 (avg_gift * 5).

Definition pledge_total_amount (installment_amount : Q) (installments : Z) : Q :=
  round2 (installment_amount * inject_Z installments).

(** [payments_to_generate] for a pledge whose payments are generated. *)
Definition payments_to_generate (current_date : date) (status frequency : string)
    (start : date) (installments : Z) : Gen Z :=
  if String.eqb status "Active" then
    let elapsed_time := days_between current_date start in
    let periods_elapsed := elapsed_time / period_days frequency in
    mret (Z.min (periods_elapsed + 1) installments)
  else if String.eqb status "Cancelled" then
    Random.randint 0 (Z.max 1 (installments - 1))
  else mret installments.

(** The loop [for i in range(payments_to_generate)], from [i] on. *)
Fixpoint payments_loop (pledge_id : Z) (status frequency : string)
    (start : date) (installment_amount : Q) (payments_to_generate : Z)
    (todo : nat) (i : Z) (payment_id : Z) : Gen (list PledgePayment) :=
  match todo with
  | O => mret []
  | S todo' =>
      let payment_date := add_days start (period_days frequency * i) in
      payment_status ←
        (if String.eqb status "Active" && (i =? payments_to_generate - 1) then
           u ← Random.random;
           mret (if Qlt_bool u 0.2 then "Pending" else "Completed")
         else mret "Completed");
      let payment :=
        {| pp_payment_id := payment_id;
           pp_pledge_id := pledge_id;
           pp_amount := installment_amount;
           pp_date := payment_date;
           pp_status := payment_status |} in
      rest ← payments_loop pledge_id status frequency start installment_amount
               payments_to_generate todo' (i + 1) (payment_id + 1);
      mret (payment :: rest)
  end.

(** The payments of one pledge: the block guarded by
    [status != 'Cancelled' or random.random() < 0.3]. *)
Definition generate_pledge_payments (current_date : date) (pledge : Pledge)
    (payment_id : Z) : Gen (list PledgePayment) :=
  let status := p_status pledge in
  generate ←
    (if negb (String.eqb status "Cancelled") then mret true
     else u ← Random.random; mret (Qlt_bool u 0.3));
  if generate : bool then
    n ← payments_to_generate current_date status (p_frequency pledge)
          (p_start_date pledge) (installments pledge);
    payments_loop (p_pledge_id pledge) status (p_frequency pledge)
      (p_start_date pledge) (installment_amount pledge) n (Z.to_nat n) 0
      payment_id
  else mret [].

Section PledgeEngine.

Variable cfg : Config.
(** [datetime.now().date()] *)
Variable current_date : date.
(** [random.sample] on the eligible donors. *)
Variable sample_donors : list Z -> nat -> Gen (list Z).
Variable constituents : list Constituent.
Variable transactions : list Transaction.
Variable donor_segments : gmap Z Segment.
Variable campaigns : list Campaign.

(** The pledge of one donor, up to the point where it is appended. *)
Definition make_pledge (pledge_id : Z) (donor : Constituent) : Gen Pledge :=
  let donor_id := constituent_id donor in
  let donor_transactions := transactions_of transactions donor_id in
  let avg_gift :=
    (Qsum (map t_amount donor_transactions)
     / inject_Z (Z.of_nat (length donor_transactions)))%Q in
  let segment :=
    default (mkSegment "One-time" "Small" "" []) (donor_segments !! donor_id) in
  let pledge_frequencies :=
    dict_get frequency_mapping (frequency segment) ["Annual"] in
  pledge_type ← Random.choice "" pledge_frequencies;
  let earlier_date_1 := creation_date donor in
  let earlier_date_2 := default (creation_date donor) (first_gift_date donor) in
  let earliest_start := Date.max earlier_date_1 earlier_date_2 in
  o ← Faker.date_between earliest_start (add_days (end_date cfg) (-90));
  let start := default earliest_start o in
  '(installments, frequency) ←
    (if String.eqb pledge_type "Monthly" then
       n ← Random.choice 0 [12; 24; 36]; mret (n, "Monthly")
     else if String.eqb pledge_type "Quarterly" then
       n ← Random.choice 0 [4; 8]; mret (n, "Quarterly")
     else
       n ← Random.choice 0 [1; 2; 3]; mret (n, "Annual"));
  let installment_amount := pledge_installment_amount frequency avg_gift in
  let total_amount := pledge_total_amount installment_amount installments in
  let active_campaigns :=
    filter (fun c => Date.leb (c_start_date c) start = true
                     /\ Date.leb start (c_end_date c) = true) campaigns in
  campaign_id ←
    (match active_campaigns with
     | [] => Random.choice 0 (map c_campaign_id campaigns)
     | _ => Random.choice 0 (map c_campaign_id active_campaigns)
     end);
  let pledge_end := add_days start (period_days frequency * installments) in
  status ←
    (if Date.ltb current_date pledge_end then
       Random.choices1 "" ["Active"; "Cancelled"] [0.9%Q; 0.1%Q]
     else
       Random.choices1 "" ["Completed"; "Cancelled"] [0.85%Q; 0.15%Q]);
  mret {| p_pledge_id := pledge_id;
          p_constituent_id := donor_id;
          p_campaign_id := campaign_id;
          total_amount := total_amount;
          installment_amount := installment_amount;
          p_start_date := start;
          p_frequency := frequency;
          installments := installments;
          p_status := status |}.

(** The loop [for donor_id in pledge_donors]; [None] when a donor id has
    no constituent record (the source's [next(...)] raises). *)
Fixpoint pledges_loop (pledge_donors : list Z) (pledge_id payment_id : Z)
    (pledges : list Pledge) (pledge_payments : list PledgePayment)
  : Gen (option (list Pledge * list PledgePayment)) :=
  match pledge_donors with
  | [] => mret (Some (pledges, pledge_payments))
  | donor_id :: rest =>
      match List.find (fun c => constituent_id c =? donor_id) constituents with
      | None => mret None
      | Some donor =>
          pledge ← make_pledge pledge_id donor;
          payments ← generate_pledge_payments current_date pledge payment_id;
          pledges_loop rest (pledge_id + 1)
            (payment_id + Z.of_nat (length payments))
            (pledges ++ [pledge]) (pledge_payments ++ payments)
      end
  end.

(** [int(len(eligible_donors) * self.pledge_percentage)], the product in
    binary64. *)
Definition pledge_donor_count (eligible : list Z) : option Z :=
  float_int (fmul (b64 (inject_Z (Z.of_nat (length eligible))))
               (b64 (pledge_percentage cfg))).

Definition generate_pledges
  : Gen (option (list Pledge * list PledgePayment)) :=
  let eligible := eligible_donors transactions in
  match pledge_donor_count eligible with
  | None => mret None
  | Some num_pledge_donors =>
      match eligible with
      | [] => mret (Some ([], []))
      | _ =>
          if num_pledge_donors =? 0 then mret (Some ([], []))
          else
            pledge_donors ←
              sample_donors eligible
                (Z.to_nat
                   (Z.min num_pledge_donors (Z.of_nat (length eligible))));
            pledges_loop pledge_donors 1 1 [] []
      end
  end.

End PledgeEngine.

(** ** The household pairing engine ([generate_households]) *)

Record Household := mkHousehold {
  h_household_id : Z;
  h_name : string;
  h_constituent_id : Z;
  h_primary_constituent_id : Z;
  h_is_primary : bool;
  h_address : string;
  h_city : string;
  h_state : string;
  h_postal_code : string;
  h_creation_date : date
}.

(** How an f-string renders an optional field. *)
Definition fmt (o : option string) : string := default "None" o.

(** A membership row: identity of [member], address block of the primary
    constituent. *)
Definition household_row (household_id : Z) (name : string)
    (primary member : Constituent) (is_primary : bool) : Household :=
  {| h_household_id := household_id;
     h_name := name;
     h_constituent_id := constituent_id member;
     h_primary_constituent_id := constituent_id primary;
     h_is_primary := is_primary;
     h_address := address primary;
     h_city := city primary;
     h_state := state primary;
     h_postal_code := postal_code primary;
     h_creation_date := creation_date primary |}.

(** [get_formal_name] *)
Definition get_formal_name (constituent : Constituent) : Gen string :=
  title ←
    (if bool_decide (gender constituent = Some "F") then
       Random.choices1 "" ["Ms."; "Mrs."; "Miss"] [0.6%Q; 0.3%Q; 0.1%Q]
     else if bool_decide (gender constituent = Some "M") then mret "Mr."
     else mret "Mx.");
  mret (title +:+ " " +:+ fmt (first_name constituent) +:+ " "
        +:+ fmt (last_name constituent)).

(** "A & B Surname", the order of the first names drawn at random. *)
Definition first_names_with (constituent partner : Constituent)
    (shared_last_name : string) : Gen string :=
  u ← Random.random;
  if Qlt_bool u 0.5 then
    mret (fmt (first_name constituent) +:+ " & " +:+ fmt (first_name partner)
          +:+ " " +:+ shared_last_name)
  else
    mret (fmt (first_name partner) +:+ " & " +:+ fmt (first_name constituent)
          +:+ " " +:+ shared_last_name).

(** The display name of a couple. *)
Definition couple_name (constituent partner : Constituent)
    (same_sex_couple : bool) : Gen string :=
  u ← Random.random;
  let different_last_names := Qlt_bool u 0.3 in
  if different_last_names then
    v ← Random.random;
    if Qlt_bool v 0.5 then
      mret (fmt (first_name constituent) +:+ " " +:+ fmt (last_name constituent)
            +:+ " & " +:+ fmt (first_name partner) +:+ " "
            +:+ fmt (last_name partner))
    else
      mret (fmt (first_name partner) +:+ " " +:+ fmt (last_name partner)
            +:+ " & " +:+ fmt (first_name constituent) +:+ " "
            +:+ fmt (last_name constituent))
  else
    v ← Random.random;
    let shared_last_name :=
      if Qlt_bool v 0.5 then fmt (last_name constituent)
      else fmt (last_name partner) in
    if negb same_sex_couple
       && (bool_decide (gender constituent = Some "M"
                        /\ gender partner = Some "F")
           || bool_decide (gender constituent = Some "F"
                           /\ gender partner = Some "M"))
    then
      w ← Random.random;
      if Qlt_bool w 0.7 then
        if bool_decide (gender constituent = Some "M") then
          mret ("Mr. & Mrs. " +:+ fmt (first_name constituent) +:+ " "
                +:+ shared_last_name)
        else
          mret ("Mr. & Mrs. " +:+ fmt (first_name partner) +:+ " "
                +:+ shared_last_name)
      else first_names_with constituent partner shared_last_name
    else first_names_with constituent partner shared_last_name.

(** The state of the pairing loop. *)
Record Pairing := mkPairing {
  households : list Household;
  assigned_constituents : gset nat;
  household_id : Z
}.

Section Households.

(** [individual_constituents], fixed for the whole run. *)
Variable individuals : list Constituent.
(** Placeholder for positions outside the list; never read. *)
Variable nobody : Constituent.

Definition individual (i : nat) : Constituent := nth i individuals nobody.

(** [[j for j in range(i + 1, min(i + w, n)) if j not in assigned]] *)
Definition unassigned_in_window (assigned : gset nat) (i w : nat) : list nat :=
  filter (fun j => j ∉ assigned)
    (seq (i + 1) (Nat.min (i + w) (length individuals) - (i + 1))).

(** The [while] loop adding further members, from [search_idx] on. *)
Fixpoint additional_members_loop (fuel : nat) (household_id : Z)
    (name : string) (primary : Constituent) (additional_members : nat)
    (search_idx : nat) (rows : list Household) (assigned : gset nat)
  : list Household * gset nat :=
  match fuel, additional_members with
  | S fuel', S more =>
      if bool_decide (search_idx ∉ assigned) then
        additional_members_loop fuel' household_id name primary more
          (S search_idx)
          (rows ++ [household_row household_id name primary
                      (individual search_idx) false])
          ({[search_idx]} ∪ assigned)
      else
        additional_members_loop fuel' household_id name primary
          additional_members (S search_idx) rows assigned
  | _, _ => (rows, assigned)
  end.

(** A single-person household for position [i]. *)
Definition single_household (i : nat) (st : Pairing) : Gen Pairing :=
  let constituent := individual i in
  name ← get_formal_name constituent;
  mret {| households :=
            households st
              ++ [household_row (household_id st) name constituent
                    constituent true];
          assigned_constituents := {[i]} ∪ assigned_constituents st;
          household_id := household_id st + 1 |}.

(** A couple with its additional members. *)
Definition couple_household (i : nat) (potential_partners : list nat)
    (st : Pairing) : Gen Pairing :=
  let constituent := individual i in
  let assigned := assigned_constituents st in
  partner_idx ← Random.choice O potential_partners;
  u ← Random.random;
  let same_sex_couple := Qlt_bool u 0.075 in
  partner_idx ←
    (if same_sex_couple
        && negb (bool_decide (gender constituent
                              = gender (individual partner_idx)))
     then
       let same_gender_partners :=
         filter (fun j => gender (individual j) = gender constituent)
           (unassigned_in_window assigned i 20) in
       match same_gender_partners with
       | [] => mret partner_idx
       | _ => Random.choice O same_gender_partners
       end
     else mret partner_idx);
  let partner := individual partner_idx in
  name ← couple_name constituent partner same_sex_couple;
  let hid := household_id st in
  let rows :=
    households st
      ++ [household_row hid name constituent constituent true;
          household_row hid name constituent partner false] in
  let assigned := {[partner_idx]} ∪ ({[i]} ∪ assigned) in
  additional_members ← Random.choices1 0 [0; 1; 2; 3] [60; 25; 10; 5]%Q;
  let search_idx := S (Nat.max i partner_idx) in
  let '(rows, assigned) :=
    additional_members_loop (length individuals - search_idx) hid name
      constituent (Z.to_nat additional_members) search_idx rows assigned in
  mret {| households := rows;
          assigned_constituents := assigned;
          household_id := hid + 1 |}.

(** The body of the first loop for position [i]. *)
Definition pairing_step (i : nat) (st : Pairing) : Gen Pairing :=
  if bool_decide (i ∈ assigned_constituents st) then mret st
  else
    u ← Random.random;
    if Qlt_bool u 0.75 then
      match unassigned_in_window (assigned_constituents st) i 10 with
      | [] => single_household i st
      | potential_partners => couple_household i potential_partners st
      end
    else single_household i st.

Fixpoint pairing_loop (todo : nat) (i : nat) (st : Pairing) : Gen Pairing :=
  match todo with
  | O => mret st
  | S todo' =>
      st' ← pairing_step i st;
      pairing_loop todo' (S i) st'
  end.

(** The body of the closing sweep for position [i]. *)
Definition sweep_step (i : nat) (st : Pairing) : Gen Pairing :=
  if bool_decide (i ∈ assigned_constituents st) then mret st
  else
    name ← get_formal_name (individual i);
    mret {| households :=
              households st
                ++ [household_row (household_id st) name (individual i)
                      (individual i) true];
            assigned_constituents := assigned_constituents st;
            household_id := household_id st + 1 |}.

Fixpoint sweep_loop (todo : nat) (i : nat) (st : Pairing) : Gen Pairing :=
  match todo with
  | O => mret st
  | S todo' =>
      st' ← sweep_step i st;
      sweep_loop todo' (S i) st'
  end.

Definition pair_households : Gen Pairing :=
  st ← pairing_loop (length individuals) 0 (mkPairing [] ∅ 1);
  sweep_loop (length individuals) 0 st.

End Households.

Definition individual_constituents (constituents : list Constituent)
  : list Constituent :=
  filter (fun c => type c = "Individual") constituents.

Definition no_constituent : Constituent :=
  mkConstituent 0 "" None None None None None "" "" "" "" "" ""
    (mkdate 1 1 1) 0 None None.

(** [generate_households]: the membership rows. *)
Definition generate_households (constituents : list Constituent)
  : Gen (list Household) :=
  st ← pair_households (individual_constituents constituents) no_constituent;
  mret (households st).

(** ** The constituent generator ([generate_constituent],
    [generate_constituents], [create_donor_segments]) *)

Module Numpy.

(** [np.random.choice(a, p=p)]: one uniform sample from numpy's global
    generator, located in the cumulative distribution by
    [searchsorted(side='right')]. *)
Definition choice {A} (d : A) (a : list A) (p : list Q) : Gen A :=
  w ← np_word;
  let cdf := Random.accumulate p in
  let total := List.last cdf 1%Q in
  let idx :=
    Random.bisect (map (fun c => (c / total)%Q) cdf) (unit_of_word w)
      (length cdf) in
  mret (nth idx a d).

End Numpy.

(** [str.lower()] and [str.replace(' ', '')] on ASCII text. *)
Definition lower_ascii (c : Ascii.ascii) : Ascii.ascii :=
  let n := Ascii.nat_of_ascii c in
  if ((65 <=? n) && (n <=? 90))%nat then Ascii.ascii_of_nat (n + 32) else c.

Fixpoint lower (s : string) : string :=
  match s with
  | EmptyString => EmptyString
  | String c s' => String (lower_ascii c) (lower s')
  end.

Fixpoint remove_spaces (s : string) : string :=
  match s with
  | EmptyString => EmptyString
  | String c s' =>
      if Ascii.eqb c " "%char then remove_spaces s'
      else String c (remove_spaces s')
  end.

Section ConstituentGenerator.

(** What a Faker provider returns for a raw word of Faker's generator. *)
Variable fake_text : string -> N -> string.
Variable cfg : Config.

Definition fake (provider : string) : Gen string :=
  w ← fk_word; mret (fake_text provider w).

(** [generate_constituent]; [n] is [len(self.constituents)].  [None] when
    the configured date range is empty and Faker raises. *)
Definition generate_constituent (n : nat) (is_organization : bool)
  : Gen (option Constituent) :=
  st ← Numpy.choice "" (map fst (state_weights cfg))
         (map snd (state_weights cfg));
  if is_organization then
    org_type ← Random.choice ""
      ["Corporation"; "Foundation"; "Small Business"; "Government"];
    org_name ← fake "company";
    user ← fake "user_name";
    ph ← fake "phone_number";
    addr ← fake "street_address";
    cty ← fake "city";
    zip ← fake "zipcode";
    created ← Faker.date_between (start_date cfg) (end_date cfg);
    mret (c ← created;
          Some {| constituent_id := Z.of_nat n + 1;
                  type := "Organization";
                  organization_name := Some org_name;
                  organization_type := Some org_type;
                  first_name := None;
                  last_name := None;
                  gender := None;
                  email := user +:+ "@" +:+ remove_spaces (lower org_name)
                           +:+ ".com";
                  phone := ph;
                  address := addr;
                  city := cty;
                  state := st;
                  postal_code := zip;
                  creation_date := c;
                  lifetime_giving := 0;
                  first_gift_date := None;
                  last_gift_date := None |})
  else
    g ← Numpy.choice "" ["F"; "M"; "NB"] [0.495%Q; 0.495%Q; 0.01%Q];
    first ←
      (if String.eqb g "F" then fake "first_name_female"
       else if String.eqb g "M" then fake "first_name_male"
       else fake "first_name");
    last ← fake "last_name";
    domain ← fake "free_email_domain";
    ph ← fake "phone_number";
    addr ← fake "street_address";
    cty ← fake "city";
    zip ← fake "zipcode";
    created ← Faker.date_between (start_date cfg) (end_date cfg);
    mret (c ← created;
          Some {| constituent_id := Z.of_nat n + 1;
                  type := "Individual";
                  organization_name := None;
                  organization_type := None;
                  first_name := Some first;
                  last_name := Some last;
                  gender := Some g;
                  email := lower first +:+ "." +:+ lower last +:+ "@"
                           +:+ domain;
                  phone := ph;
                  address := addr;
                  city := cty;
                  state := st;
                  postal_code := zip;
                  creation_date := c;
                  lifetime_giving := 0;
                  first_gift_date := None;
                  last_gift_date := None |}).

(** [for _ in range(todo): self.constituents.append(...)] *)
Fixpoint constituents_loop (todo : nat) (is_organization : bool)
    (constituents : list Constituent) : Gen (option (list Constituent)) :=
  match todo with
  | O => mret (Some constituents)
  | S todo' =>
      o ← generate_constituent (length constituents) is_organization;
      match o with
      | None => mret None
      | Some c =>
          constituents_loop todo' is_organization (constituents ++ [c])
      end
  end.

(** [create_donor_segments] over the fund ids of [self.funds]. *)
Fixpoint create_donor_segments (fund_ids : list Z)
    (constituents : list Constituent) (donor_segments : gmap Z Segment)
  : Gen (gmap Z Segment) :=
  match constituents with
  | [] => mret donor_segments
  | c :: rest =>
      freq ← Numpy.choice ""
        ["One-time"; "Occasional"; "Regular"; "Loyal"]
        [0.4%Q; 0.3%Q; 0.2%Q; 0.1%Q];
      lvl ←
        (if String.eqb (type c) "Organization" then
           Numpy.choice "" ["Small"; "Medium"; "Major"; "Principal"]
             [0.3%Q; 0.4%Q; 0.2%Q; 0.1%Q]
         else
           Numpy.choice "" ["Small"; "Medium"; "Major"; "Principal"]
             [0.7%Q; 0.2%Q; 0.07%Q; 0.03%Q]);
      trend ← Numpy.choice "" ["Decreasing"; "Stable"; "Increasing"]
                [0.2%Q; 0.5%Q; 0.3%Q];
      affinity ← Random.sample 0 fund_ids 2;
      create_donor_segments fund_ids rest
        (<[constituent_id c := mkSegment freq lvl trend affinity]>
           donor_segments)
  end.

(** [int(num_constituents * self.organization_percentage)], the product in
    binary64. *)
Definition organization_count (num_constituents : Z) : option Z :=
  float_int (fmul (b64 (inject_Z num_constituents))
               (b64 (organization_percentage cfg))).

(** [generate_constituents]: the constituent table and the segments. *)
Definition generate_constituents (fund_ids : list Z) (num_constituents : Z)
  : Gen (option (list Constituent * gmap Z Segment)) :=
  match organization_count num_constituents with
  | None => mret None
  | Some num_organizations =>
      let num_individuals := num_constituents - num_organizations in
      orgs ← constituents_loop (Z.to_nat num_organizations) true [];
      match orgs with
      | None => mret None
      | Some constituents =>
          all ←
            constituents_loop (Z.to_nat num_individuals) false constituents;
          match all with
          | None => mret None
          | Some constituents =>
              segments ← create_donor_segments fund_ids constituents ∅;
              mret (Some (constituents, segments))
          end
      end
  end.

End ConstituentGenerator.

(** [generate_funds]: the ids of the eight funds. *)
Definition fund_ids : list Z := [1; 2; 3; 4; 5; 6; 7; 8].

(** ** The metrics aggregator ([generate_donor_metrics]) *)

Record DonorMetrics := mkDonorMetrics {
  m_constituent_id : Z;
  m_first_gift_date : date;
  m_last_gift_date : date;
  m_lifetime_gifts : Z;
  m_lifetime_giving : Q;
  m_average_gift : Q;
  m_largest_gift : Q;
  m_donor_level : string;
  m_retention_status : string;
  m_has_open_pledge : bool;
  m_household_id : option Z;
  m_giving_by_year : list (Z * Q)
}.

(** [sum(xs)]: a left fold from 0. *)
Definition py_sum (xs : list Q) : Q := fold_left Qplus xs 0%Q.

(** [min(ds)] and [max(ds)] on a non-empty list of dates: the first
    smallest, respectively largest, entry. *)
Definition min_date (d : date) (ds : list date) : date :=
  fold_left Date.min ds d.
Definition max_date (d : date) (ds : list date) : date :=
  fold_left Date.max ds d.

(** [max(xs)] on a non-empty list of amounts. *)
Definition max_amount (x : Q) (xs : list Q) : Q :=
  fold_left (fun acc y => if Qlt_bool acc y then y else acc) xs x.

(** The donor level by lifetime giving. *)
Definition donor_level (lifetime_giving : Q) : string :=
  if Qle_bool 25000 lifetime_giving then "Principal"
  else if Qle_bool 5000 lifetime_giving then "Major"
  else if Qle_bool 1000 lifetime_giving then "Mid-level"
  else "General".

(** The retention status from the years of the gifts. *)
Definition retention_status (current_year : Z) (gift_years : list Z)
    (last_gift_year : Z) : string :=
  let has_current_year_gift := existsb (Z.eqb current_year) gift_years in
  let has_previous_year_gift :=
    existsb (fun y => negb (y =? current_year) && (y =? current_year - 1))
      gift_years in
  if has_current_year_gift && has_previous_year_gift then "Retained"
  else if has_current_year_gift && negb has_previous_year_gift
       then "Reactivated"
  else if negb has_current_year_gift && has_previous_year_gift then "Lapsed"
  else
    let years_lapsed := current_year - last_gift_year in
    if years_lapsed <=? 1 then "New/Recent"
    else if years_lapsed <=? 3 then "Lapsed"
    else "Deeply Lapsed".

(** [gifts_by_year.get(year, 0)] for [year in range(2021, current_year + 1)]. *)
Definition giving_by_year (current_year : Z) (ts : list Transaction)
  : list (Z * Q) :=
  map (fun y =>
         (y, py_sum (map t_amount
                       (filter (fun t => year (t_date t) = y) ts))))
    (seqZ 2021 (current_year + 1 - 2021)).

(** The metrics row of a constituent with the gifts [t :: ts]. *)
Definition donor_metrics_row (current_date : date) (pledges : list Pledge)
    (households : list Household) (id : Z) (t : Transaction)
    (ts : list Transaction) : DonorMetrics :=
  let donor_transactions := t :: ts in
  let donor_pledges := filter (fun p => p_constituent_id p = id) pledges in
  let first := min_date (t_date t) (map t_date ts) in
  let last := max_date (t_date t) (map t_date ts) in
  let lifetime_gifts := Z.of_nat (length donor_transactions) in
  let lifetime_giving := py_sum (map t_amount donor_transactions) in
  {| m_constituent_id := id;
     m_first_gift_date := first;
     m_last_gift_date := last;
     m_lifetime_gifts := lifetime_gifts;
     m_lifetime_giving := lifetime_giving;
     m_average_gift := (lifetime_giving / inject_Z lifetime_gifts)%Q;
     m_largest_gift := max_amount (t_amount t) (map t_amount ts);
     m_donor_level := donor_level lifetime_giving;
     m_retention_status :=
       retention_status (year current_date)
         (map (fun t => year (t_date t)) donor_transactions) (year last);
     m_has_open_pledge :=
       existsb (fun p => String.eqb (p_status p) "Active") donor_pledges;
     m_household_id :=
       h_household_id
         <$> List.find (fun h => h_primary_constituent_id h =? id) households;
     m_giving_by_year := giving_by_year (year current_date) donor_transactions |}.

(** [generate_donor_metrics].  [pledges] is the attribute [self.pledges],
    which only a completed [generate_pledges] sets: while it is unset
    ([None]) the first pass of the loop raises. *)
Definition generate_donor_metrics (current_date : date)
    (constituents : list Constituent) (transactions : list Transaction)
    (pledges : option (list Pledge)) (households : list Household)
  : option (list DonorMetrics) :=
  match constituents, pledges with
  | [], _ => Some []
  | _ :: _, None => None
  | _ :: _, Some pledges =>
      Some (omap (fun c =>
                    match transactions_of transactions (constituent_id c) with
                    | [] => None
                    | t :: ts =>
                        Some (donor_metrics_row current_date pledges
                                households (constituent_id c) t ts)
                    end) constituents)
  end.

(** * Specification-side definitions *)

(** How an appeal is anchored in the calendar, read off its seasonal tag. *)
Inductive Anchor := DecemberAnchored | GivingTuesdayAnchored | Unanchored.

Definition appeal_anchor (appeal : Appeal) : Anchor :=
  if String.eqb (a_seasonal appeal) "December" then DecemberAnchored
  else if String.eqb (a_seasonal appeal) "Giving Tuesday"
       then GivingTuesdayAnchored
       else Unanchored.

(** The entry of a key in a table, if any. *)
Fixpoint table_lookup {V} (d : list (string * V)) (key : string) : option V :=
  match d with
  | [] => None
  | (k, v) :: d' => if String.eqb k key then Some v else table_lookup d' key
  end.

(** Base rate of a channel: its table entry, [0.10] when missing. *)
Definition base_rate (gp : GivingPatterns) (channel : string) : Q :=
  match table_lookup (appeal_response_rate gp) channel with
  | Some r => r
  | None => 0.10%Q
  end.

(** The draw count as the specification words it:
    [round(eligible_count * rate * volume_multiplier)]. *)
Definition spec_num_draws (cfg : Config) (appeal : Appeal)
    (donors : list Constituent) : option Z :=
  py_round <$> draw_product cfg appeal donors.

(** The entropy after [k] further reads of the [random] stream. *)
Definition advance_py (k : nat) (e : Entropy) : Entropy :=
  mkEntropy (mkrng (stream (py e)) (k + cursor (py e))) (fk e) (np e).

(** The [j]-th value [random()] will return from [e] on. *)
Definition py_unit (e : Entropy) (j : nat) : Q :=
  unit_of_word (stream (py e) (j + cursor (py e))).

(** The three date ranges [generate_campaigns] hands to Faker are not
    empty. *)
Definition campaign_ranges_ok (cfg : Config) : Prop :=
  0 <= days_between (add_days (end_date cfg) (-365)) (start_date cfg)
  /\ 0 <= days_between (add_days (end_date cfg) (-730)) (start_date cfg)
  /\ 0 <= days_between (add_days (end_date cfg) (-180)) (start_date cfg).

(** What the mapping rows of one campaign look like. *)
Definition mapping_shape (rows : list CampaignFund) : Prop :=
  length (filter (fun cf => cf_is_primary cf = true) rows) = 1%nat
  /\ (1 <= length rows <= 3)%nat
  /\ map cf_weight rows = take (length rows) [0.7%Q; 0.2%Q; 0.1%Q].

(** The loop invariant of [generate_campaigns]. *)
Definition campaigns_inv (next_id : Z) (campaigns : list Campaign)
    (mappings : list CampaignFund) : Prop :=
  (forall c, c ∈ campaigns ->
     c_campaign_id c < next_id
     /\ mapping_shape (rows_of_campaign (c_campaign_id c) mappings))
  /\ (forall cf, cf ∈ mappings -> cf_campaign_id cf < next_id).

(** * Worked inputs *)

(** An individual constituent with the given id and creation date. *)
Definition an_individual (id : Z) (created : date) : Constituent :=
  mkConstituent id "Individual" None None (Some "Pat") (Some "Doe") (Some "F")
    "pat.doe@example.org" "555-0100" "1 Main St" "Springfield" "CA" "90001"
    created 0 None None.

(** [n] individuals with ids [1..n], all created on 2021-01-01. *)
Definition individuals_1_to (n : nat) : list Constituent :=
  map (fun i => an_individual (Z.of_nat i) (mkdate 2021 1 1)) (seq 1 n).

(** A regular Direct Mail appeal in March 2022 (table rate 0.15). *)
Definition direct_mail_appeal : Appeal :=
  mkAppeal 1 1 "Direct Mail - Clean Water Action" "Direct Mail" "Regular"
    (mkdate 2022 3 1) (mkdate 2022 3 31) 5000
    "Direct Mail appeal for Clean Water Action".

(** A regular Board Giving appeal (table rate 0.80). *)
Definition board_giving_appeal : Appeal :=
  mkAppeal 2 2 "Board Giving - Conservation Science Center" "Board Giving"
    "Regular" (mkdate 2022 5 1) (mkdate 2022 5 31) 5000
    "Board Giving appeal for Conservation Science Center".

(** The default configuration with the volume multiplier of [main]. *)
Definition double_volume_config : Config :=
  mkConfig (mkdate 2021 1 1) (mkdate 2024 12 31) 2 0.15 0.12
    default_giving_patterns default_state_weights.

(** The default configuration with a volume multiplier of 2.5. *)
Definition high_volume_config : Config :=
  mkConfig (mkdate 2021 1 1) (mkdate 2024 12 31) 2.5 0.15 0.12
    default_giving_patterns default_state_weights.

(** All three generators yield zeros. *)
Definition zero_entropy : Entropy := entropy_of_lists [] [] [].

(** ** Appeals: specification-side notions and worked inputs *)

(** November 30 of the anchor year lies in the campaign window. *)
Definition contains_anchor_november_30 (c : Campaign) : bool :=
  Date.leb (mkdate (anchor_year c) 11 30) (c_end_date c)
  && Date.leb (c_start_date c) (mkdate (anchor_year c) 11 30).

(** December of the anchor year meets the campaign window. *)
Definition meets_anchor_december (c : Campaign) : bool :=
  Date.leb (mkdate (anchor_year c) 12 1) (c_end_date c)
  && Date.leb (c_start_date c) (mkdate (anchor_year c) 12 31).

(** The campaign window has a day in November. *)
Definition overlaps_november (c : Campaign) : Prop :=
  exists d, month d = 11 /\ 1 <= day d <= 30
            /\ Date.leb (c_start_date c) d = true
            /\ Date.leb d (c_end_date c) = true.

Definition giving_tuesday_type (c : Campaign) : bool :=
  str_in (c_type c) ["Annual"; "Special"; "Program"].

(** [a] is a Giving-Tuesday-anchored appeal of campaign [c]. *)
Definition giving_tuesday_appeal_of (c : Campaign) (a : Appeal) : Prop :=
  a_campaign_id a = c_campaign_id c /\ a_seasonal a = "Giving Tuesday".

(** The whole window lies after December 31, 2024. *)
Definition after_2024 (c : Campaign) : Prop :=
  Date.ltb (mkdate 2024 12 31) (c_start_date c) = true.

(** A Program campaign of 180 days that ends on November 28. *)
Definition november_campaign : Campaign :=
  mkCampaign 4 "Ocean Plastics Initiative" "Program" (mkdate 2022 6 1)
    (mkdate 2022 11 28) 50000 "Campaign for Ocean Plastics Initiative".

(** A Program campaign of 180 days that ends on December 7. *)
Definition december_campaign : Campaign :=
  mkCampaign 6 "Youth Environmental Leadership" "Program" (mkdate 2022 6 10)
    (mkdate 2022 12 7) 50000 "Campaign for Youth Environmental Leadership".

(** A Special campaign that starts in November 2025. *)
Definition late_campaign : Campaign :=
  mkCampaign 3 "Forest Fire Recovery" "Special" (mkdate 2025 11 15)
    (mkdate 2026 5 14) 50000 "Campaign for Forest Fire Recovery".

(** ** Pledges: worked inputs *)

(** A completed gift. *)
Definition a_gift (tid cid : Z) (d : date) (amount : Q) : Transaction :=
  mkTransaction tid cid 1 4 5 d amount "Credit Card" "Gift" "Completed".

(** Two gifts, of 40 and 60, for each of the constituents [1..n]. *)
Definition two_gifts_each (n : nat) : list Transaction :=
  flat_map (fun i =>
              [a_gift (2 * Z.of_nat i - 1) (Z.of_nat i) (mkdate 2022 7 1) 40;
               a_gift (2 * Z.of_nat i) (Z.of_nat i) (mkdate 2022 9 1) 60])
    (seq 1 n).

(** The words that lead [generate_pledges] to one Annual pledge of a single
    installment, cancelled, whose payments are generated, one of them. *)
Definition cancelled_pledge_entropy : Entropy :=
  entropy_of_lists [0; 0; 0; 0; word_of_fraction 19 20; 0; 1]%N [] [].

(** The day the pledges are generated. *)
Definition generation_day : date := mkdate 2026 11 4.

(** The payments that belong to a pledge. *)
Definition payments_of (pledge : Pledge) (payments : list PledgePayment)
  : list PledgePayment :=
  filter (fun pp => pp_pledge_id pp = p_pledge_id pledge) payments.

(** The pledge invariant on amounts. *)
Definition amounts_agree (p : Pledge) : Prop :=
  (Qabs (total_amount p - installment_amount p * inject_Z (installments p))
   < 0.01)%Q.

(** Constituents [1..n] as the transaction engine leaves them after
    [two_gifts_each n]. *)
Definition repeat_donors (n : nat) : list Constituent :=
  map (fun i =>
         mkConstituent (Z.of_nat i) "Individual" None None (Some "Pat")
           (Some "Doe") (Some "F") "pat.doe@example.org" "555-0100"
           "1 Main St" "Springfield" "CA" "90001" (mkdate 2021 1 1) 100
           (Some (mkdate 2022 7 1)) (Some (mkdate 2022 9 1)))
    (seq 1 n).

(** The pledge and the payment that run produces. *)
Definition cancelled_pledge : Pledge :=
  mkPledge 1 1 4 (25000 # 100) (25000 # 100) (mkdate 2022 7 1) "Annual" 1
    "Cancelled".

Definition cancelled_pledge_payment : PledgePayment :=
  mkPledgePayment 1 1 (25000 # 100) (mkdate 2022 7 1) "Completed".

(** ** Transaction engine: specification-side notions and worked inputs *)

(** The aggregate update as the specification words it: the minimum of the
    previous first gift date and the new date, the new date when unset. *)
Definition spec_first_gift_date (previous : option date) (d : date)
  : option date :=
  match previous with
  | None => Some d
  | Some f => Some (Date.min f d)
  end.

(** Two Board Giving appeals of two Capital campaigns, the one of 2023
    listed before the one of 2022. *)
Definition board_appeal_2023 : Appeal :=
  mkAppeal 1 2 "Board Giving - Wildlands Corridor Acquisition" "Board Giving"
    "Regular" (mkdate 2023 5 1) (mkdate 2023 5 31) 25000
    "Board Giving appeal for Wildlands Corridor Acquisition".

Definition board_appeal_2022 : Appeal :=
  mkAppeal 2 9 "Board Giving - Conservation Science Center" "Board Giving"
    "Regular" (mkdate 2022 5 1) (mkdate 2022 5 31) 25000
    "Board Giving appeal for Conservation Science Center".

Definition capital_fund_rows : list CampaignFund :=
  [mkCampaignFund 2 2 0.7 true; mkCampaignFund 9 8 0.7 true].

(** Every second value of [random()] is one half, the others are zero: each
    drawn donor gives once. *)
Definition single_gift_entropy : Entropy :=
  entropy_of_lists
    [0; word_of_fraction 1 2; 0; 0; 0; 0;
     0; word_of_fraction 1 2; 0; 0; 0; 0]%N [] [].

(** ** Reproducibility: worked inputs *)

(** The state of the first row of a constituent table. *)
Definition first_state (out : option (list Constituent * gmap Z Segment))
  : string :=
  match out with
  | Some (c :: _, _) => state c
  | _ => ""
  end.

(** Two states of numpy's generator: one starts with the sample 0, the
    other with a sample just below 1. *)
Definition numpy_low : rng := rng_of_list [].
Definition numpy_high : rng := rng_of_list [word_of_fraction 99 100].

(** A run of the constituent generator for one constituent, the [random]
    module and Faker in the states their seeds determine. *)
Definition one_constituent_run (fake_text : string -> N -> string)
    (py_seeded fk_seeded np_state : rng)
  : option (list Constituent * gmap Z Segment) :=
  fst (generate_constituents fake_text default_config fund_ids 1
         (mkEntropy py_seeded fk_seeded np_state)).

(** The status of the pledges of a run. *)
Definition pledge_statuses
    (out : option (list Pledge * list PledgePayment)) : list string :=
  match out with
  | Some (pledges, _) => map p_status pledges
  | None => []
  end.

(** The words that lead [generate_pledges] to one Annual pledge of three
    installments whose status draw is one half. *)
Definition plain_pledge_entropy : Entropy :=
  entropy_of_lists [0; 0; 2; 0; word_of_fraction 1 2]%N [] [].

(** ** Households: the invariants of the pairing loop *)

(** The positions in [order] are exactly the assigned ones, each once and
    each inside the list, and the membership rows list their constituents in
    that order. *)
Definition covers (individuals : list Constituent) (nobody : Constituent)
    (order : list nat) (rows : list Household) (assigned : gset nat) : Prop :=
  NoDup order
  /\ (forall j, j ∈ order <-> j ∈ assigned)
  /\ (forall j, j ∈ order -> (j < length individuals)%nat)
  /\ map h_constituent_id rows
     = map (fun j => constituent_id (individual individuals nobody j)) order.

(** Every row belongs to a household numbered below [next], and every such
    household has a primary row. *)
Definition households_numbered (rows : list Household) (next : Z) : Prop :=
  (forall r, r ∈ rows -> 1 <= h_household_id r < next)
  /\ (forall h, 1 <= h < next ->
        exists r, r ∈ rows /\ h_household_id r = h /\ h_is_primary r = true).

(** Six individuals with ids 11 to 16. *)
Definition six_individuals : list Constituent :=
  map (fun i => an_individual (Z.of_nat i) (mkdate 2021 1 1)) (seq 11 6).

(** The invariant of the pairing loop. *)
Definition pairing_inv (individuals : list Constituent) (nobody : Constituent)
    (st : Pairing) : Prop :=
  (exists order,
     covers individuals nobody order (households st)
       (assigned_constituents st))
  /\ households_numbered (households st) (household_id st)
  /\ 1 <= household_id st.

(** The constituent [update_donor_metrics] finds for an id. *)
Definition find_constituent_by_id (cs : list Constituent) (id : Z)
  : option Constituent :=
  List.find (fun c => constituent_id c =? id) cs.

(** Every transaction's donor is on record with a last gift date that is no
    earlier than the transaction. *)
Definition last_gift_bounds (st : Engine) : Prop :=
  forall t, t ∈ e_transactions st ->
    exists c l,
      find_constituent_by_id (e_constituents st) (t_constituent_id t) = Some c
      /\ last_gift_date c = Some l
      /\ Date.leb (t_date t) l = true.

(** The first gift date of a constituent on record is the date of the first
    transaction the engine appended for it, and unset when there is none. *)
Definition first_gift_first_processed (st : Engine) : Prop :=
  forall id c,
    find_constituent_by_id (e_constituents st) id = Some c ->
    first_gift_date c
    = t_date <$> head (transactions_of (e_transactions st) id).

(** * Further definitions *)

(** ** Transaction engine: further invariants *)

(** The lifetime giving of every constituent on record is the total of the
    transactions recorded for its id. *)
Definition lifetime_giving_is_total (st : Engine) : Prop :=
  forall id c,
    find_constituent_by_id (e_constituents st) id = Some c ->
    (lifetime_giving c
     == Qsum (map t_amount (transactions_of (e_transactions st) id)))%Q.

(** Transactions are numbered from 1 in the order they were appended. *)
Definition transactions_numbered (st : Engine) : Prop :=
  map t_transaction_id (e_transactions st)
  = seqZ 1 (Z.of_nat (length (e_transactions st)))
  /\ e_transaction_id st = 1 + Z.of_nat (length (e_transactions st)).

(** The methods [generate_payment_method] chooses from. *)
Definition payment_methods : list string :=
  ["Credit Card"; "Check"; "ACH"; "Cash"; "Other"].

(** The fields of a constituent no gift changes. *)
Definition identity (c : Constituent) : Z * string * date :=
  (constituent_id c, type c, creation_date c).

(** [t] is the transaction one run of the gift body appended for [appeal]:
    the donor is one of the constituents [cs0] the engine started from,
    created on or before the appeal's end. *)
Definition gift_of (cfg : Config) (segs : gmap Z Segment)
    (cfs : list CampaignFund) (cs0 : list Constituent) (appeal : Appeal)
    (t : Transaction) : Prop :=
  exists donor gift_num st e,
    identity donor ∈ map identity cs0
    /\ Date.leb (creation_date donor) (a_end_date appeal) = true
    /\ map identity (e_constituents st) = map identity cs0
    /\ e_transactions (fst (make_gift cfg segs cfs appeal donor gift_num st e))
       = e_transactions st ++ [t].

(** Every transaction on record is a gift to one of the appeals. *)
Definition gifts_to (cfg : Config) (segs : gmap Z Segment)
    (cfs : list CampaignFund) (cs0 : list Constituent) (appeals : list Appeal)
    (st : Engine) : Prop :=
  map identity (e_constituents st) = map identity cs0
  /\ forall t, t ∈ e_transactions st ->
       exists appeal, appeal ∈ appeals /\ gift_of cfg segs cfs cs0 appeal t.

(** The range of base amounts [generate_transaction_amount] looks up for a
    constituent type and a donor level. *)
Definition base_range (constituent_type level : string) : Q * Q :=
  let individual := dict_get level_ranges "Individual" [] in
  let type_ranges := dict_get level_ranges constituent_type individual in
  dict_get type_ranges level (dict_get type_ranges "Small" (0, 0)%Q).

(** The segment [generate_transaction_amount] reads for a constituent. *)
Definition segment_of (segs : gmap Z Segment) (id : Z) : Segment :=
  default (mkSegment "One-time" "Small" "Stable" []) (segs !! id).

(** ** The calendar from 2000-01-01 to 2089-09-17 *)

(** The ordinal of 2000-01-01 and the ordinal 32767 days later. *)
Definition first_ordinal : Z := Eval cbv in toordinal (mkdate 2000 1 1).
Definition last_ordinal : Z := Eval cbv in first_ordinal + 2 ^ 15 - 1.

(** [d] is a day of the calendar between the two. *)
Definition calendar_date (d : date) : bool :=
  (first_ordinal <=? toordinal d) && (toordinal d <=? last_ordinal)
  && Date.eqb (fromordinal (toordinal d)) d.

(** On one day: the ordinal of the date of ordinal [n] is [n], and the next
    day is a later date. *)
Definition ordinal_day_ok (n : Z) : bool :=
  let d := fromordinal n in
  (toordinal d =? n) && Date.ltb d (fromordinal (n + 1)).

(** The same on the [2 ^ depth] days from [n] on. *)
Fixpoint ordinal_days_ok (depth : nat) (n : Z) : bool :=
  match depth with
  | O => ordinal_day_ok n
  | S d => ordinal_days_ok d n && ordinal_days_ok d (n + 2 ^ Z.of_nat d)
  end.

(** ** Campaigns: what one pass of the loop makes *)

Definition campaign_goals : list Z :=
  [50000; 100000; 250000; 500000; 1000000].

(** [c] and [rows] are the campaign and the mapping rows one pass of the
    loop of [generate_campaigns] appends for a template and an id. *)
Definition campaign_made (cfg : Config) (template : string * string) (id : Z)
    (c : Campaign) (rows : list CampaignFund) : Prop :=
  let len := campaign_length template.1 in
  exists e0 e2 c_start goal,
    fst (Faker.date_between (start_date cfg) (add_days (end_date cfg) (- len))
           e0) = Some c_start
    /\ goal ∈ campaign_goals
    /\ c = mkCampaign id template.2 template.1 c_start (add_days c_start len)
             goal ("Campaign for " +:+ template.2)
    /\ rows = fst (select_campaign_funds template.1 id e2).

Fixpoint campaigns_made (cfg : Config) (templates : list (string * string))
    (id : Z) (made : list (Campaign * list CampaignFund)) : Prop :=
  match templates, made with
  | [], [] => True
  | template :: templates', (c, rows) :: made' =>
      campaign_made cfg template id c rows
      /\ campaigns_made cfg templates' (id + 1) made'
  | _, _ => False
  end.

(** What identifies a mapping row: the campaign and the fund. *)
Definition mapping_key (cf : CampaignFund) : Z * Z :=
  (cf_campaign_id cf, cf_fund_id cf).

(** ** Appeals: what a campaign contributes *)

Definition short_appeal_types : list string :=
  ["Email Campaign"; "Giving Tuesday"; "Social Media Challenge"].

(** The number of days a regular appeal of the given type may last. *)
Definition duration_fits (appeal_type : string) (days : Z) : Prop :=
  if String.eqb appeal_type "Event" then days = 1
  else if str_in appeal_type short_appeal_types then 1 <= days <= 14
  else 14 <= days <= 45.

Definition relevant_appeal_types (c : Campaign) : list string :=
  dict_get appeal_type_mapping (c_type c) ["Direct Mail"; "Email Campaign"].

(** [a] is a regular appeal of the campaign [c]. *)
Definition regular_appeal_of (c : Campaign) (a : Appeal) : Prop :=
  a_seasonal a = "Regular"
  /\ a_type a ∈ relevant_appeal_types c
  /\ exists offset days,
       a_start_date a = add_days (c_start_date c) offset
       /\ a_end_date a = add_days (a_start_date a) days
       /\ duration_fits (a_type a) days
       /\ (0 <= days_between (c_end_date c) (c_start_date c) ->
           0 <= offset <= days_between (c_end_date c) (c_start_date c)).

(** [a] is the December appeal of [c]. *)
Definition december_appeal_of (c : Campaign) (a : Appeal) : Prop :=
  a_seasonal a = "December" /\ a_type a = "Direct Mail"
  /\ a_start_date a = mkdate (anchor_year c) 12 1
  /\ a_end_date a = mkdate (anchor_year c) 12 31.

(** [a] is the Giving Tuesday appeal of [c]. *)
Definition giving_tuesday_appeal_of' (c : Campaign) (a : Appeal) : Prop :=
  a_seasonal a = "Giving Tuesday" /\ a_type a = "Giving Tuesday"
  /\ a_start_date a = mkdate (anchor_year c) 11 23
  /\ a_end_date a = mkdate (anchor_year c) 12 1.

(** [a] is one of the appeals of [c]. *)
Definition appeal_of (c : Campaign) (a : Appeal) : Prop :=
  a_campaign_id a = c_campaign_id c
  /\ (december_appeal_of c a \/ giving_tuesday_appeal_of' c a
      \/ regular_appeal_of c a).

(** The appeals of a table with the given campaign id and seasonal tag. *)
Definition appeals_tagged (campaign_id : Z) (seasonal : string)
    (appeals : list Appeal) : list Appeal :=
  filter (fun a => a_campaign_id a = campaign_id /\ a_seasonal a = seasonal)
    appeals.

(** A campaign whose window is a pair of calendar dates in order, with room
    for the longest regular appeal after its end. *)
Definition campaign_on_calendar (c : Campaign) : Prop :=
  calendar_date (c_start_date c) = true
  /\ calendar_date (c_end_date c) = true
  /\ Date.leb (c_start_date c) (c_end_date c) = true
  /\ toordinal (c_end_date c) + 45 <= last_ordinal.

(** An appeal whose window is a pair of calendar dates in order. *)
Definition appeal_on_calendar (a : Appeal) : Prop :=
  calendar_date (a_start_date a) = true
  /\ calendar_date (a_end_date a) = true
  /\ Date.leb (a_start_date a) (a_end_date a) = true.

(** ** From the campaigns to the transactions *)



(** ** Pledges: what one pass of the loop makes *)

(** The day a pledge's last period ends. *)
Definition pledge_end (p : Pledge) : date :=
  add_days (p_start_date p) (period_days (p_frequency p) * installments p).

(** The numbers of installments a frequency allows. *)
Definition installment_choices (frequency : string) : list Z :=
  if String.eqb frequency "Monthly" then [12; 24; 36]
  else if String.eqb frequency "Quarterly" then [4; 8]
  else [1; 2; 3].

(** The terms of a pledge: a frequency its donor's segment allows, a number
    of installments the frequency allows, and a status that fits the
    clock. *)
Definition pledge_terms (today : date) (segs : gmap Z Segment) (p : Pledge)
  : Prop :=
  p_frequency p
  ∈ dict_get frequency_mapping
      (frequency (default (mkSegment "One-time" "Small" "" [])
                    (segs !! p_constituent_id p)))
      ["Annual"]
  /\ p_frequency p ∈ ["Monthly"; "Quarterly"; "Annual"]
  /\ installments p ∈ installment_choices (p_frequency p)
  /\ (if Date.ltb today (pledge_end p)
      then p_status p ∈ ["Active"; "Cancelled"]
      else p_status p ∈ ["Completed"; "Cancelled"]).

(** The payments of a pledge: each carries the pledge's id and installment
    amount, the k-th is dated k periods after the start, all but the last
    are completed, and their number follows the status. *)
Definition payments_fit (today : date) (p : Pledge)
    (pays : list PledgePayment) : Prop :=
  Forall (fun pp => pp_pledge_id pp = p_pledge_id p
                    /\ pp_amount pp = installment_amount p
                    /\ pp_status pp ∈ ["Completed"; "Pending"]) pays
  /\ map pp_date pays
     = map (fun k => add_days (p_start_date p)
                       (period_days (p_frequency p) * k))
         (seqZ 0 (Z.of_nat (length pays)))
  /\ Forall (fun pp => pp_status pp = "Completed") (removelast pays)
  /\ (p_status p <> "Active" ->
      Forall (fun pp => pp_status pp = "Completed") pays)
  /\ (p_status p = "Completed" -> Z.of_nat (length pays) = installments p)
  /\ (p_status p = "Active" ->
      Z.of_nat (length pays)
      = Z.max 0
          (Z.min (days_between today (p_start_date p)
                  / period_days (p_frequency p) + 1)
             (installments p)))
  /\ (p_status p = "Cancelled" ->
      Z.of_nat (length pays) <= Z.max 1 (installments p - 1)).

(** [p] and [pays] are the pledge and the payments one pass of the loop of
    [generate_pledges] appends for a donor. *)
Definition pledge_made (cfg : Config) (today : date) (cs : list Constituent)
    (txs : list Transaction) (segs : gmap Z Segment) (camps : list Campaign)
    (donor_id pid payid : Z) (p : Pledge) (pays : list PledgePayment)
  : Prop :=
  exists donor e0 e1,
    List.find (fun c => constituent_id c =? donor_id) cs = Some donor
    /\ p = fst (make_pledge cfg today txs segs camps pid donor e0)
    /\ pays = fst (generate_pledge_payments today p payid e1).

Fixpoint pledges_made (cfg : Config) (today : date) (cs : list Constituent)
    (txs : list Transaction) (segs : gmap Z Segment) (camps : list Campaign)
    (donors : list Z) (pid payid : Z)
    (made : list (Pledge * list PledgePayment)) : Prop :=
  match donors, made with
  | [], [] => True
  | donor_id :: donors', (p, pays) :: made' =>
      pledge_made cfg today cs txs segs camps donor_id pid payid p pays
      /\ pledges_made cfg today cs txs segs camps donors' (pid + 1)
           (payid + Z.of_nat (length pays)) made'
  | _, _ => False
  end.

(** ** Households: the rows of one household *)

(** The rows of household [hid]: the primary row first, then at most four
    further members; all rows carry the household's name and the primary
    constituent's id and address block. *)
Definition household_block (hid : Z) (rows : list Household) : Prop :=
  exists name primary members,
    (length members <= 4)%nat
    /\ rows
       = household_row hid name primary primary true
         :: map (fun member => household_row hid name primary member false)
              members.

(** Blocks of households numbered from [hid] on. *)
Fixpoint blocks_numbered (hid : Z) (blocks : list (list Household)) : Prop :=
  match blocks with
  | [] => True
  | block :: blocks' =>
      household_block hid block /\ blocks_numbered (hid + 1) blocks'
  end.

(** The rows so far are whole blocks, and the next household number is the
    number of blocks plus one. *)
Definition blocks_inv (st : Pairing) : Prop :=
  exists blocks,
    households st = concat blocks
    /\ blocks_numbered 1 blocks
    /\ household_id st = 1 + Z.of_nat (length blocks).

(** ** Constituents and segments: what the generator hands on *)

(** A constituent as [generate_constituent] makes it: its creation date in
    the configured range, no giving on record, and the fields of its
    type. *)
Definition fresh_constituent (cfg : Config) (c : Constituent) : Prop :=
  (exists k, 0 <= k <= days_between (end_date cfg) (start_date cfg)
             /\ creation_date c = add_days (start_date cfg) k)
  /\ lifetime_giving c = 0%Q
  /\ first_gift_date c = None /\ last_gift_date c = None
  /\ (if String.eqb (type c) "Organization" then
        is_Some (organization_name c)
        /\ (exists t, organization_type c = Some t
              /\ t ∈ ["Corporation"; "Foundation"; "Small Business";
                      "Government"])
        /\ first_name c = None /\ last_name c = None /\ gender c = None
      else
        type c = "Individual"
        /\ organization_name c = None /\ organization_type c = None
        /\ is_Some (first_name c) /\ is_Some (last_name c)
        /\ exists g, gender c = Some g /\ g ∈ ["F"; "M"; "NB"]).

(** A segment as [create_donor_segments] makes it. *)
Definition segment_fits (seg : Segment) : Prop :=
  frequency seg ∈ ["One-time"; "Occasional"; "Regular"; "Loyal"]
  /\ level seg ∈ ["Small"; "Medium"; "Major"; "Principal"]
  /\ giving_trend seg ∈ ["Decreasing"; "Stable"; "Increasing"]
  /\ length (cause_affinity seg) = 2%nat
  /\ NoDup (cause_affinity seg)
  /\ forall f, f ∈ cause_affinity seg -> f ∈ fund_ids.

(** ** Further worked inputs *)

(** An individual created after every appeal of the worked examples. *)
Definition late_individual : Constituent :=
  an_individual 1 (mkdate 2025 1 1).

(** A configuration whose range is the single year 2024. *)
Definition one_year_config : Config :=
  mkConfig (mkdate 2024 1 1) (mkdate 2024 12 31) 1 0.15 0.12
    default_giving_patterns default_state_weights.

(** The pledge and the payments the run on [plain_pledge_entropy] produces
    on [generation_day]. *)
Definition completed_pledge : Pledge :=
  mkPledge 1 1 4 (75000 # 100) (25000 # 100) (mkdate 2022 7 1) "Annual" 3
    "Completed".

Definition completed_pledge_payments : list PledgePayment :=
  [mkPledgePayment 1 1 (25000 # 100) (mkdate 2022 7 1) "Completed";
   mkPledgePayment 2 1 (25000 # 100) (mkdate 2023 7 1) "Completed";
   mkPledgePayment 3 1 (25000 # 100) (mkdate 2024 6 30) "Completed"].

(** A Faker whose providers return their own name. *)
Definition plain_fake_text (provider : string) (w : N) : string := provider.

(** * Properties *)

Ltac gen_unfold := unfold mbind, gen_bind, mret, gen_ret.

Ltac date_cmp :=
  unfold Date.leb, Date.ltb, Date.eqb in *; cbn [year month day] in *;
  repeat match goal with
  | H : _ = true |- _ =>
      rewrite ?orb_true_iff, ?andb_true_iff, ?Z.ltb_lt, ?Z.eqb_eq in H
  | H : _ = false |- _ =>
      apply not_true_iff_false in H;
      rewrite ?orb_true_iff, ?andb_true_iff, ?Z.ltb_lt, ?Z.eqb_eq in H
  | |- _ = false => apply not_true_iff_false; intros ?
  | |- _ = true =>
      rewrite ?orb_true_iff, ?andb_true_iff, ?Z.ltb_lt, ?Z.eqb_eq
  end.

(** ** Generators *)

Lemma advance_py_0 e : advance_py 0 e = e.
Proof. destruct e as [[s c] f n]. reflexivity. Qed.

Lemma advance_py_S k e : advance_py k (advance_py 1 e) = advance_py (S k) e.
Proof. unfold advance_py; simpl. do 2 f_equal. lia. Qed.

Lemma random_run e : Random.random e = (py_unit e 0, advance_py 1 e).
Proof. reflexivity. Qed.

Lemma randint_range a b e :
  a <= b -> a <= fst (Random.randint a b e) <= b.
Proof.
  intros Hab. unfold Random.randint, Random.randbelow. gen_unfold.
  destruct (py_word e) as [w e1]. cbn [fst].
  pose proof (Z.mod_pos_bound (Z.of_N w) (b - a + 1)). lia.
Qed.

Lemma choices_indices_run weights k e :
  Random.choices_indices weights k e
  = (map (fun j => Random.choices_index weights (py_unit e j)) (seq 0 k),
     advance_py k e).
Proof.
  revert e; induction k as [|k IH]; intros e.
  - simpl. by rewrite advance_py_0.
  - cbn [Random.choices_indices]. gen_unfold.
    rewrite random_run, IH, advance_py_S. f_equal.
    cbn [seq map]. f_equal.
    rewrite <- seq_shift, map_map. apply map_ext; intros j.
    unfold py_unit, advance_py; simpl. do 3 f_equal. lia.
Qed.

Lemma sample_pool_length {A} (d : A) k : forall pool n e,
  length (fst (Random.sample_pool d pool n k e)) = k.
Proof.
  induction k as [|k IH]; intros pool n e; [done|].
  cbn [Random.sample_pool]. gen_unfold.
  destruct (Random.randbelow (Z.of_nat n) e) as [j e1].
  specialize (IH (<[Z.to_nat j:=nth (n - 1) pool d]> pool) (n - 1)%nat e1).
  destruct (Random.sample_pool d _ _ k e1) as [rest e2].
  cbn [fst length] in *. lia.
Qed.

Lemma date_between_returns s t e :
  0 <= days_between t s ->
  exists d e1, Faker.date_between s t e = (Some d, e1).
Proof.
  intros H. unfold Faker.date_between.
  destruct (Z.ltb_spec (days_between t s) 0) as [Hlt|_]; [lia|].
  gen_unfold. destruct (fk_word e) as [w e1]. by eexists _, _.
Qed.

Lemma dict_get_lookup {V} (d : list (string * V)) key (dflt : V) :
  dict_get d key dflt = default dflt (table_lookup d key).
Proof.
  induction d as [|[k v] d IH]; simpl; [done|].
  destruct (String.eqb k key); [done|apply IH].
Qed.

(** ** Campaign-fund mappings *)

Lemma relevant_funds_nonempty campaign_type :
  dict_get campaign_fund_affinities campaign_type [1] <> [].
Proof.
  unfold campaign_fund_affinities; cbn [dict_get].
  repeat match goal with |- context [String.eqb ?a ?b] =>
    destruct (String.eqb a b) end; discriminate.
Qed.

Lemma campaign_length_cases campaign_type :
  campaign_length campaign_type = 365 \/ campaign_length campaign_type = 730
  \/ campaign_length campaign_type = 180.
Proof.
  unfold campaign_length.
  repeat match goal with |- context [String.eqb ?a ?b] =>
    destruct (String.eqb a b) end; auto.
Qed.

Lemma mapping_rows_campaign id sel ws cf :
  cf ∈ mapping_rows id sel ws -> cf_campaign_id cf = id.
Proof.
  unfold mapping_rows. intros H.
  apply elem_of_lookup_imap in H as (i & x & -> & _). reflexivity.
Qed.

Lemma mapping_rows_shape id sel :
  (1 <= length sel <= 3)%nat ->
  mapping_shape (mapping_rows id sel (fund_weights (length sel))).
Proof.
  intros Hl. destruct sel as [|a [|b [|c [|? ?]]]]; simpl in Hl; try lia;
    (split; [reflexivity|split; [simpl; lia|reflexivity]]).
Qed.

Lemma rows_of_campaign_app id l1 l2 :
  rows_of_campaign id (l1 ++ l2)
  = rows_of_campaign id l1 ++ rows_of_campaign id l2.
Proof. unfold rows_of_campaign. apply filter_app. Qed.

Lemma rows_of_campaign_none id l :
  (forall cf, cf ∈ l -> cf_campaign_id cf <> id) -> rows_of_campaign id l = [].
Proof.
  intros H. unfold rows_of_campaign.
  induction l as [|x l IH]; [done|].
  rewrite filter_cons. destruct (decide (cf_campaign_id x = id)) as [E|_].
  - exfalso. eapply H; [left|done].
  - apply IH. intros cf Hcf. apply H. by right.
Qed.

Lemma rows_of_campaign_all id l :
  (forall cf, cf ∈ l -> cf_campaign_id cf = id) -> rows_of_campaign id l = l.
Proof.
  intros H. unfold rows_of_campaign.
  induction l as [|x l IH]; [done|].
  rewrite filter_cons. destruct (decide (cf_campaign_id x = id)) as [_|N].
  - f_equal. apply IH. intros cf Hcf. apply H. by right.
  - exfalso. apply N, H. left.
Qed.

(** One to three rows, the first one primary, all for the campaign at hand. *)
Lemma select_campaign_funds_spec campaign_type id e :
  let rows := fst (select_campaign_funds campaign_type id e) in
  mapping_shape rows /\ forall cf, cf ∈ rows -> cf_campaign_id cf = id.
Proof.
  unfold select_campaign_funds. gen_unfold.
  pose proof (randint_range 1 3 e ltac:(lia)) as Hr.
  destruct (Random.randint 1 3 e) as [r e3]. cbn [fst] in Hr.
  pose proof (relevant_funds_nonempty campaign_type) as Hne.
  generalize dependent (dict_get campaign_fund_affinities campaign_type [1]).
  intros relevant Hne.
  assert (exists n, Z.to_nat (Z.min (Z.of_nat (length relevant)) r) = n
                    /\ (1 <= n <= 3)%nat) as (n & -> & Hn).
  { eexists; split; [reflexivity|]. destruct relevant; [done|].
    simpl length. lia. }
  unfold Random.sample.
  pose proof (sample_pool_length 0 n relevant (length relevant) e3) as Hlen.
  destruct (Random.sample_pool 0 relevant (length relevant) n e3)
    as [selected e4]. cbn [fst] in *.
  assert (match selected with [] => [1] | _ => selected end = selected) as ->.
  { destruct selected; [simpl in Hlen; lia|done]. }
  split.
  - rewrite <- Hlen. apply mapping_rows_shape. lia.
  - intros cf. apply mapping_rows_campaign.
Qed.

Lemma campaigns_inv_step id camps maps c rows :
  campaigns_inv id camps maps ->
  c_campaign_id c = id ->
  mapping_shape rows ->
  (forall cf, cf ∈ rows -> cf_campaign_id cf = id) ->
  campaigns_inv (id + 1) (camps ++ [c]) (maps ++ rows).
Proof.
  intros [Hc Hm] Hid Hshape Hrows. split.
  - intros c' Hin. apply elem_of_app in Hin as [Hin|Hin].
    + destruct (Hc c' Hin) as [Hlt Hs]. split; [lia|].
      rewrite rows_of_campaign_app, (rows_of_campaign_none _ rows).
      { by rewrite app_nil_r. }
      intros cf Hcf. apply Hrows in Hcf. lia.
    + apply list_elem_of_singleton in Hin as ->. split; [lia|].
      rewrite rows_of_campaign_app, rows_of_campaign_none.
      { rewrite rows_of_campaign_all; [done|]. intros cf Hcf.
        rewrite Hid. by apply Hrows. }
      intros cf Hcf. specialize (Hm cf Hcf). lia.
  - intros cf Hin. apply elem_of_app in Hin as [Hin|Hin].
    + specialize (Hm cf Hin). lia.
    + apply Hrows in Hin. lia.
Qed.

Lemma campaigns_loop_cons cfg campaign_type name rest id camps maps e :
  campaigns_loop cfg ((campaign_type, name) :: rest) id camps maps e
  = let len := campaign_length campaign_type in
    match Faker.date_between (start_date cfg)
            (add_days (end_date cfg) (- len)) e with
    | (None, e1) => (None, e1)
    | (Some c_start, e1) =>
        let (goal, e2) :=
          Random.choice 0 [50000; 100000; 250000; 500000; 1000000] e1 in
        let (rows, e3) := select_campaign_funds campaign_type id e2 in
        campaigns_loop cfg rest (id + 1)
          (camps ++ [mkCampaign id name campaign_type c_start
                       (add_days c_start len) goal ("Campaign for " +:+ name)])
          (maps ++ rows) e3
    end.
Proof.
  cbn [campaigns_loop]. gen_unfold.
  destruct (Faker.date_between _ _ e) as [[c|] e1]; reflexivity.
Qed.

Lemma campaigns_loop_inv cfg templates : forall id camps maps e out,
  campaigns_inv id camps maps ->
  fst (campaigns_loop cfg templates id camps maps e) = Some out ->
  exists id', campaigns_inv id' out.1 out.2.
Proof.
  induction templates as [|[campaign_type name] rest IH];
    intros id camps maps e out Hinv Hrun.
  - injection Hrun as <-. exists id. exact Hinv.
  - rewrite campaigns_loop_cons in Hrun. cbv zeta in Hrun.
    destruct (Faker.date_between _ _ e) as [[c_start|] e1];
      [|discriminate Hrun].
    destruct (Random.choice 0 _ e1) as [goal e2].
    pose proof (select_campaign_funds_spec campaign_type id e2) as [Hs Hr].
    destruct (select_campaign_funds campaign_type id e2) as [rows e3].
    cbn [fst] in Hs, Hr.
    eapply IH; [|exact Hrun].
    apply campaigns_inv_step; [exact Hinv|reflexivity|exact Hs|exact Hr].
Qed.

(** With non-empty date ranges the campaign loop runs to its end. *)
Lemma campaigns_loop_returns cfg templates :
  campaign_ranges_ok cfg ->
  forall id camps maps e,
  exists out, fst (campaigns_loop cfg templates id camps maps e) = Some out.
Proof.
  intros (H1 & H2 & H3).
  induction templates as [|[campaign_type name] rest IH];
    intros id camps maps e.
  - by eexists.
  - rewrite campaigns_loop_cons. cbv zeta.
    destruct (date_between_returns (start_date cfg)
                (add_days (end_date cfg) (- campaign_length campaign_type)) e)
      as (d & e1 & ->).
    { destruct (campaign_length_cases campaign_type) as [->| [->| ->]];
        assumption. }
    destruct (Random.choice 0 _ e1) as [goal e2].
    destruct (select_campaign_funds campaign_type id e2) as [rows e3].
    apply IH.
Qed.

(** C2 (as amended): whenever the configured date range leaves room for the
    campaigns, [generate_campaigns] returns, and every campaign it produces
    has one to three mapping rows, exactly one of them flagged primary, whose
    weights are the leading entries of 0.7, 0.2, 0.1; the weights sum to 1.0
    exactly when the campaign has three rows. *)
Theorem campaign_fund_rows_shape (cfg : Config) (e : Entropy) :
  campaign_ranges_ok cfg ->
  exists campaigns mappings,
    fst (generate_campaigns cfg e) = Some (campaigns, mappings)
    /\ forall c, c ∈ campaigns ->
         let rows := rows_of_campaign (c_campaign_id c) mappings in
         length (filter (fun cf => cf_is_primary cf = true) rows) = 1%nat
         /\ (1 <= length rows <= 3)%nat
         /\ map cf_weight rows = take (length rows) [0.7%Q; 0.2%Q; 0.1%Q]
         /\ (Qsum (map cf_weight rows) == 1 <-> length rows = 3%nat).
Proof.
  intros Hok. unfold generate_campaigns.
  destruct (campaigns_loop_returns cfg campaign_types Hok 1 [] [] e)
    as [[camps maps] Hrun].
  exists camps, maps. split; [exact Hrun|].
  assert (campaigns_inv 1 [] []) as Hinit.
  { split; intros ? H; inversion H. }
  destruct (campaigns_loop_inv cfg campaign_types 1 [] [] e _ Hinit Hrun)
    as [id' [Hc _]].
  intros c Hin. destruct (Hc c Hin) as [_ (Hp & Hl & Hw)].
  cbn [fst snd] in Hp, Hl, Hw. cbv zeta.
  split; [exact Hp|]. split; [exact Hl|]. split; [exact Hw|].
  rewrite Hw.
  destruct (length (rows_of_campaign (c_campaign_id c) maps))
    as [|[|[|[|n]]]]; try lia; (split; [intros Hs; try done|intros ?; try lia]).
  reflexivity.
Qed.

(** The default configuration, run on the all-zero generators. *)
Lemma campaign_fund_rows_shape_witness :
  exists campaigns mappings,
    fst (generate_campaigns default_config zero_entropy)
    = Some (campaigns, mappings)
    /\ forall c, c ∈ campaigns ->
         let rows := rows_of_campaign (c_campaign_id c) mappings in
         length (filter (fun cf => cf_is_primary cf = true) rows) = 1%nat
         /\ (1 <= length rows <= 3)%nat
         /\ map cf_weight rows = take (length rows) [0.7%Q; 0.2%Q; 0.1%Q]
         /\ (Qsum (map cf_weight rows) == 1 <-> length rows = 3%nat).
Proof.
  apply (campaign_fund_rows_shape default_config zero_entropy).
  unfold campaign_ranges_ok. vm_compute. repeat split; discriminate.
Defined.

(** C2 as stated fails: on the default configuration and the all-zero
    generators the first campaign gets a single fund, whose weight 0.7 is
    the whole sum. *)
Lemma campaign_fund_weights_counterexample :
  match fst (generate_campaigns default_config zero_entropy) with
  | Some (campaigns, mappings) =>
      exists c, c ∈ campaigns
        /\ Qsum (map cf_weight (rows_of_campaign (c_campaign_id c) mappings))
           == 0.7
        /\ Qabs (Qsum (map cf_weight
                         (rows_of_campaign (c_campaign_id c) mappings)) - 1)
           == 0.3
  | None => False
  end.
Proof.
  destruct (fst (generate_campaigns default_config zero_entropy))
    as [[campaigns mappings]|] eqn:E; vm_compute in E; [|discriminate E].
  injection E as <- <-.
  eexists. split; [left|]. split; vm_compute; reflexivity.
Qed.

(** ** Response rate and donor draws of the transaction engine *)

(** C8: the response rate the engine uses for an appeal is the base rate of
    the appeal's channel (0.10 when the channel is not in the table),
    multiplied by [1 + december_weight] for a December-anchored appeal and by
    [1 + giving_tuesday_weight] for a Giving-Tuesday-anchored one, and the
    base rate itself otherwise. *)
Theorem response_rate_by_anchor (gp : GivingPatterns) (appeal : Appeal) :
  response_rate gp appeal =
  match appeal_anchor appeal with
  | DecemberAnchored =>
      (base_rate gp (a_type appeal) * (1 + december_weight gp))%Q
  | GivingTuesdayAnchored =>
      (base_rate gp (a_type appeal) * (1 + giving_tuesday_weight gp))%Q
  | Unanchored => base_rate gp (a_type appeal)
  end.
Proof.
  unfold response_rate, appeal_anchor, base_rate.
  rewrite dict_get_lookup.
  destruct (String.eqb (a_seasonal appeal) "December");
    [|destruct (String.eqb (a_seasonal appeal) "Giving Tuesday")];
    destruct (table_lookup _ _); reflexivity.
Qed.

(** In binary64 the rate follows the same three cases, each operation
    rounded. *)
Lemma response_rate_b64_by_anchor (gp : GivingPatterns) (appeal : Appeal) :
  response_rate_b64 gp appeal =
  match appeal_anchor appeal with
  | DecemberAnchored =>
      fmul (b64 (base_rate gp (a_type appeal)))
        (fadd (b64 1) (b64 (december_weight gp)))
  | GivingTuesdayAnchored =>
      fmul (b64 (base_rate gp (a_type appeal)))
        (fadd (b64 1) (b64 (giving_tuesday_weight gp)))
  | Unanchored => b64 (base_rate gp (a_type appeal))
  end.
Proof.
  unfold response_rate_b64, appeal_anchor, base_rate.
  rewrite dict_get_lookup.
  destruct (String.eqb (a_seasonal appeal) "December");
    [|destruct (String.eqb (a_seasonal appeal) "Giving Tuesday")];
    destruct (table_lookup _ _); reflexivity.
Qed.

(** The rate of an unanchored appeal is the double nearest to the rate
    over the reals. *)
Lemma response_rate_b64_unanchored gp appeal :
  appeal_anchor appeal = Unanchored ->
  response_rate_b64 gp appeal = b64 (response_rate gp appeal).
Proof.
  unfold appeal_anchor, response_rate_b64, response_rate.
  destruct (String.eqb (a_seasonal appeal) "December"); [discriminate|].
  destruct (String.eqb (a_seasonal appeal) "Giving Tuesday");
    [discriminate|reflexivity].
Qed.

(** The engine's draw count is the truncated binary64 product. *)
Lemma num_donors_raw_uses_response_rate cfg appeal donors :
  num_donors_raw cfg appeal donors
  = float_int
      (fmul (fmul (b64 (inject_Z (Z.of_nat (length donors))))
               (response_rate_b64 (giving_patterns cfg) appeal))
         (b64 (transaction_volume_multiplier cfg))).
Proof. reflexivity. Qed.

(** With the default table: a December Direct Mail appeal answers at
    0.15 * 1.3, a Giving Tuesday appeal at 0.20 * 1.1, and a channel that is
    not in the table at 0.10. *)
Example response_rate_default_table :
  response_rate default_giving_patterns
    (mkAppeal 1 1 "" "Direct Mail" "December" (mkdate 2022 12 1)
       (mkdate 2022 12 31) 10000 "") == 0.195
  /\ response_rate default_giving_patterns
       (mkAppeal 1 1 "" "Giving Tuesday" "Giving Tuesday" (mkdate 2022 11 23)
          (mkdate 2022 12 1) 5000 "") == 0.22
  /\ response_rate default_giving_patterns
       (mkAppeal 1 1 "" "Email Campaign" "Regular" (mkdate 2022 3 1)
          (mkdate 2022 3 9) 5000 "") == 0.10.
Proof. repeat split. Qed.

(** Seventy-two eligible donors, a Direct Mail appeal and a volume
    multiplier of 2.5: over the reals the product is 27; in binary64
    [72 * 0.15] is [10.799999999999999], the product stays below 27 and the
    engine counts 26. *)
Example draw_count_in_binary64 :
  num_donors_raw high_volume_config direct_mail_appeal (individuals_1_to 72)
  = Some 26
  /\ py_int (72 * 0.15 * 2.5)%Q = 27.
Proof. vm_compute. split; reflexivity. Qed.

(** C4 (as amended): for an appeal with [n] eligible donors whose product
    [n * rate * multiplier], multiplied from left to right in binary64, is
    the finite number [product], the engine takes [min(int(product), n)]
    draws, [int] truncating (none when that number is negative); the draws
    are made with replacement: each one is located in the same normalised
    weight table by its own call of [random()], whatever was drawn
    before. *)
Theorem donor_draws_count cfg segs cfs appeal donors e product :
  let n := Z.of_nat (length donors) in
  fmul (fmul (b64 (inject_Z n))
          (response_rate_b64 (giving_patterns cfg) appeal))
    (b64 (transaction_volume_multiplier cfg)) = Some product ->
  let k := Z.to_nat (Z.min (py_int product) n) in
  let weights :=
    normalized_weights
      (map (donor_weight segs cfs (a_campaign_id appeal)) donors) in
  let draws := fst (select_donors cfg segs cfs appeal donors e) in
  length draws = k
  /\ draws = map (fun j => Random.choices_index weights (py_unit e j))
               (seq 0 k).
Proof.
  intros n Hproduct k weights draws. subst draws.
  unfold select_donors, num_donors_raw, draw_product. fold n.
  rewrite Hproduct. cbn [float_int fmap option_fmap option_map default].
  fold weights. fold k.
  rewrite choices_indices_run. cbn [fst]. split; [|reflexivity].
  by rewrite length_map, length_seq.
Qed.

(** Seventy-two eligible donors at 0.15 and a multiplier of 2.5: 26
    draws. *)
Lemma donor_draws_count_witness :
  exists product,
    fmul (fmul (b64 (inject_Z (Z.of_nat (length (individuals_1_to 72)))))
            (response_rate_b64 (giving_patterns high_volume_config)
               direct_mail_appeal))
      (b64 (transaction_volume_multiplier high_volume_config)) = Some product
    /\ py_int product = 26
    /\ length (fst (select_donors high_volume_config ∅ [] direct_mail_appeal
                      (individuals_1_to 72) zero_entropy)) = 26%nat.
Proof.
  destruct (fmul (fmul (b64 (inject_Z (Z.of_nat
                                         (length (individuals_1_to 72)))))
                    (response_rate_b64 (giving_patterns high_volume_config)
                       direct_mail_appeal))
              (b64 (transaction_volume_multiplier high_volume_config)))
    as [product|] eqn:Hproduct; vm_compute in Hproduct; [|discriminate].
  exists product. split; [reflexivity|].
  destruct (donor_draws_count high_volume_config ∅ [] direct_mail_appeal
              (individuals_1_to 72) zero_entropy product) as [Hlen _].
  { vm_compute. exact Hproduct. }
  cbv zeta in Hlen. rewrite Hlen.
  injection Hproduct as <-. split; vm_compute; reflexivity.
Defined.

(** C4 as stated fails twice.  Twelve eligible donors and a Direct Mail
    appeal give a product just below 1.8: the engine draws once, the rounded
    count is 2.  Ten eligible donors, a Board Giving appeal and a volume
    multiplier of 2 give 16: the engine draws ten times. *)
Lemma donor_draws_counterexample :
  (length (fst (select_donors default_config ∅ [] direct_mail_appeal
                  (potential_donors (individuals_1_to 12) direct_mail_appeal)
                  zero_entropy)) = 1%nat
   /\ spec_num_draws default_config direct_mail_appeal
        (potential_donors (individuals_1_to 12) direct_mail_appeal) = Some 2)
  /\ (length (fst (select_donors double_volume_config ∅ [] board_giving_appeal
                     (potential_donors (individuals_1_to 10)
                        board_giving_appeal)
                     zero_entropy)) = 10%nat
      /\ spec_num_draws double_volume_config board_giving_appeal
           (potential_donors (individuals_1_to 10) board_giving_appeal)
         = Some 16).
Proof. vm_compute. repeat split. Qed.

(** Draws repeat: on the all-zero generator the ten draws of the Board
    Giving appeal all pick the donor at position 0. *)
Example donor_draws_repeat :
  fst (select_donors double_volume_config ∅ [] board_giving_appeal
         (potential_donors (individuals_1_to 10) board_giving_appeal)
         zero_entropy)
  = replicate 10 0%nat.
Proof. vm_compute. reflexivity. Qed.

(** ** Seasonal appeals *)

Lemma anchor_year_range c : 2021 <= anchor_year c <= 2024.
Proof. unfold anchor_year. lia. Qed.

Lemma after_2024_no_november_30 c :
  after_2024 c -> contains_anchor_november_30 c = false.
Proof.
  unfold after_2024, contains_anchor_november_30. intros H.
  pose proof (anchor_year_range c) as Hy.
  apply andb_false_iff. right. date_cmp. lia.
Qed.

Lemma after_2024_no_december c :
  after_2024 c -> meets_anchor_december c = false.
Proof.
  unfold after_2024, meets_anchor_december. intros H.
  pose proof (anchor_year_range c) as Hy.
  apply andb_false_iff. right. date_cmp. lia.
Qed.

(** The blocks of the loop body *)

Lemma december_appeal_seasonal c types id e a :
  a ∈ fst (december_appeal c types id e) ->
  a_campaign_id a = c_campaign_id c /\ a_seasonal a = "December"
  /\ meets_anchor_december c = true.
Proof.
  unfold december_appeal. fold (meets_anchor_december c).
  destruct (includes_december c && str_in "Direct Mail" types);
    [|intros H; inversion H].
  destruct (meets_anchor_december c); [|intros H; inversion H].
  gen_unfold. destruct (Random.choice 0 _ e) as [goal e1]. cbn [fst].
  intros H. apply list_elem_of_singleton in H as ->. done.
Qed.

Lemma giving_tuesday_appeal_run c id e :
  fst (giving_tuesday_appeal c id e)
  = if includes_november c && giving_tuesday_type c
       && contains_anchor_november_30 c
    then [mkAppeal id (c_campaign_id c) ("Giving Tuesday - " +:+ c_name c)
            "Giving Tuesday" "Giving Tuesday"
            (add_days (mkdate (anchor_year c) 11 30) (-7))
            (add_days (mkdate (anchor_year c) 11 30) 1)
            (fst (Random.choice 0 [5000; 10000; 25000] e))
            ("Giving Tuesday appeal for " +:+ c_name c)]
    else [].
Proof.
  unfold giving_tuesday_appeal.
  fold (giving_tuesday_type c). fold (contains_anchor_november_30 c).
  destruct (includes_november c && giving_tuesday_type c); [|reflexivity].
  destruct (contains_anchor_november_30 c); [|reflexivity].
  gen_unfold. destruct (Random.choice 0 _ e) as [goal e1]. reflexivity.
Qed.

Lemma regular_appeals_seasonal c types n dur todo : forall i id e a,
  a ∈ fst (regular_appeals c types n dur todo i id e) ->
  a_campaign_id a = c_campaign_id c /\ a_seasonal a = "Regular".
Proof.
  induction todo as [|todo IH]; intros i id e a.
  - intros H; inversion H.
  - cbn [regular_appeals]. gen_unfold.
    destruct (Random.choice "" types e) as [ty e1].
    match goal with |- context [let (_, _) := ?m e1 in _] =>
      destruct (m e1) as [d e2] end.
    destruct (Random.choice 0 _ e2) as [goal e3].
    specialize (IH (i + 1) (id + 1) e3 a).
    destruct (regular_appeals c types n dur todo (i + 1) (id + 1) e3)
      as [rest e4]. cbn [fst] in *.
    intros H. apply elem_of_cons in H as [->|H]; [done|by apply IH].
Qed.

(** One campaign's appeals: the December block, then the Giving Tuesday
    block, then the regular appeals. *)
Lemma campaign_appeals_parts c id e :
  exists dec id1 e1 reg,
    fst (campaign_appeals c id e)
    = dec ++ fst (giving_tuesday_appeal c id1 e1) ++ reg
    /\ (forall a, a ∈ dec ->
          a_campaign_id a = c_campaign_id c /\ a_seasonal a = "December"
          /\ meets_anchor_december c = true)
    /\ (forall a, a ∈ reg ->
          a_campaign_id a = c_campaign_id c /\ a_seasonal a = "Regular").
Proof.
  unfold campaign_appeals. gen_unfold.
  destruct (Random.randint 2 4 e) as [n e0].
  pose proof (december_appeal_seasonal c
    (dict_get appeal_type_mapping (c_type c) ["Direct Mail"; "Email Campaign"])
    id e0) as Hdec.
  destruct (december_appeal c _ id e0) as [dec e1]. cbn [fst] in Hdec.
  exists dec, (id + Z.of_nat (length dec)), e1.
  destruct (giving_tuesday_appeal c (id + Z.of_nat (length dec)) e1)
    as [gt e2] eqn:Egt.
  pose proof (regular_appeals_seasonal c
    (dict_get appeal_type_mapping (c_type c) ["Direct Mail"; "Email Campaign"])
    n (days_between (c_end_date c) (c_start_date c)) (Z.to_nat n) 0
    (id + Z.of_nat (length dec) + Z.of_nat (length gt)) e2) as Hreg.
  destruct (regular_appeals c _ n _ (Z.to_nat n) 0 _ e2) as [reg e3].
  exists reg. cbn [fst] in *. split; [reflexivity|]. split; assumption.
Qed.

Lemma appeals_loop_parts cs : forall id acc e,
  exists parts,
    fst (appeals_loop cs id acc e) = acc ++ concat parts
    /\ Forall2 (fun c part => exists id' e',
                  part = fst (campaign_appeals c id' e')) cs parts.
Proof.
  induction cs as [|c cs IH]; intros id acc e.
  - exists []. split; [|constructor]. cbn. by rewrite app_nil_r.
  - cbn [appeals_loop]. gen_unfold.
    destruct (campaign_appeals c id e) as [new e1] eqn:E.
    destruct (IH (id + Z.of_nat (length new)) (acc ++ new) e1)
      as (parts & Hrun & Hparts).
    exists (new :: parts). split.
    + rewrite Hrun. cbn [concat]. by rewrite app_assoc.
    + constructor; [|exact Hparts]. exists id, e. by rewrite E.
Qed.

Lemma generate_appeals_parts cs e :
  exists parts,
    fst (generate_appeals cs e) = concat parts
    /\ Forall2 (fun c part => exists id' e',
                  part = fst (campaign_appeals c id' e')) cs parts.
Proof. apply (appeals_loop_parts cs 1 [] e). Qed.

Lemma campaign_appeals_campaign c id e a :
  a ∈ fst (campaign_appeals c id e) -> a_campaign_id a = c_campaign_id c.
Proof.
  destruct (campaign_appeals_parts c id e) as (dec & id1 & e1 & reg & -> & Hd & Hr).
  rewrite giving_tuesday_appeal_run.
  intros H. apply elem_of_app in H as [H|H]; [by apply Hd|].
  apply elem_of_app in H as [H|H]; [|by apply Hr].
  destruct (_ && _); [|inversion H].
  apply list_elem_of_singleton in H as ->. reflexivity.
Qed.

Lemma parts_campaign_ids cs parts a :
  Forall2 (fun c part => exists id' e',
             part = fst (campaign_appeals c id' e')) cs parts ->
  a ∈ concat parts -> a_campaign_id a ∈ map c_campaign_id cs.
Proof.
  induction 1 as [|c part cs parts (id0 & e0 & ->) _ IH]; intros Ha.
  - inversion Ha.
  - cbn [concat] in Ha. cbn [map]. apply elem_of_app in Ha as [Ha|Ha].
    + apply campaign_appeals_campaign in Ha. rewrite Ha. left.
    + right. by apply IH.
Qed.

(** With distinct campaign ids, the appeals that carry the id of [c] are the
    appeals [c] contributed. *)
Lemma generate_appeals_of_campaign cs e c :
  c ∈ cs -> NoDup (map c_campaign_id cs) ->
  exists id' e',
    forall a, (a ∈ fst (generate_appeals cs e)
               /\ a_campaign_id a = c_campaign_id c)
              <-> a ∈ fst (campaign_appeals c id' e').
Proof.
  intros Hin Hnd.
  destruct (generate_appeals_parts cs e) as (parts & -> & Hparts).
  clear e. induction Hparts as [|c0 part cs parts (id0 & e0 & ->) Hrest IH].
  - inversion Hin.
  - cbn [map] in Hnd. apply NoDup_cons in Hnd as [Hfresh Hnd].
    apply elem_of_cons in Hin as [->|Hin].
    + exists id0, e0. intros a. cbn [concat]. split.
      * intros [Ha Hid]. apply elem_of_app in Ha as [Ha|Ha]; [done|].
        exfalso. apply Hfresh. rewrite <- Hid.
        by apply (parts_campaign_ids cs parts).
      * intros Ha. split; [apply elem_of_app; by left|].
        by apply campaign_appeals_campaign in Ha.
    + destruct (IH Hin Hnd) as (id' & e' & Hiff).
      exists id', e'. intros a. rewrite <- Hiff. cbn [concat]. split.
      * intros [Ha Hid]. split; [|done].
        apply elem_of_app in Ha as [Ha|Ha]; [|done].
        exfalso. apply Hfresh. apply campaign_appeals_campaign in Ha.
        rewrite <- Ha, Hid. apply list_elem_of_fmap. by exists c.
      * intros [Ha Hid]. split; [|done]. apply elem_of_app. by right.
Qed.

Lemma anchor_november_window c :
  add_days (mkdate (anchor_year c) 11 30) (-7) = mkdate (anchor_year c) 11 23
  /\ add_days (mkdate (anchor_year c) 11 30) 1 = mkdate (anchor_year c) 12 1.
Proof.
  pose proof (anchor_year_range c) as Hy.
  assert (anchor_year c = 2021 \/ anchor_year c = 2022
          \/ anchor_year c = 2023 \/ anchor_year c = 2024) as H by lia.
  destruct H as [->|[->|[->| ->]]]; split; reflexivity.
Qed.

(** C6 (as amended): for a campaign of type Annual, Special or Program
    whose month test for November holds and whose window contains November
    30 of the end date's year clamped to 2021..2024, [generate_appeals]
    injects a Giving-Tuesday-anchored appeal; when that November 30 lies
    outside the window it injects none; and every Giving-Tuesday-anchored
    appeal of the campaign has the Giving Tuesday channel and runs from
    November 23 to December 1 of that year. *)
Theorem giving_tuesday_appeal_injected cs e c :
  c ∈ cs -> NoDup (map c_campaign_id cs) -> giving_tuesday_type c = true ->
  (includes_november c = true -> contains_anchor_november_30 c = true ->
   exists a, a ∈ fst (generate_appeals cs e) /\ giving_tuesday_appeal_of c a)
  /\ (contains_anchor_november_30 c = false ->
      forall a, a ∈ fst (generate_appeals cs e) ->
                ~ giving_tuesday_appeal_of c a)
  /\ forall a, a ∈ fst (generate_appeals cs e) ->
       giving_tuesday_appeal_of c a ->
       a_type a = "Giving Tuesday"
       /\ a_start_date a = mkdate (anchor_year c) 11 23
       /\ a_end_date a = mkdate (anchor_year c) 12 1.
Proof.
  intros Hin Hnd Hty.
  destruct (generate_appeals_of_campaign cs e c Hin Hnd) as (id' & e' & Hiff).
  destruct (campaign_appeals_parts c id' e')
    as (dec & id1 & e1 & reg & Hrun & Hd & Hr).
  rewrite giving_tuesday_appeal_run, Hty, andb_true_r in Hrun.
  destruct (anchor_november_window c) as [Hs He].
  assert (forall a, a ∈ fst (generate_appeals cs e) ->
            giving_tuesday_appeal_of c a ->
            contains_anchor_november_30 c = true
            /\ a_type a = "Giving Tuesday"
            /\ a_start_date a = mkdate (anchor_year c) 11 23
            /\ a_end_date a = mkdate (anchor_year c) 12 1) as Hgt.
  { intros a Ha [Hid Hseas].
    assert (a ∈ fst (campaign_appeals c id' e')) as Hc by (by apply Hiff).
    rewrite Hrun in Hc. apply elem_of_app in Hc as [Hc|Hc].
    { apply Hd in Hc as (_ & Hc & _). congruence. }
    apply elem_of_app in Hc as [Hc|Hc].
    2:{ apply Hr in Hc as (_ & Hc). congruence. }
    destruct (includes_november c); [|inversion Hc].
    destruct (contains_anchor_november_30 c); [|inversion Hc].
    apply list_elem_of_singleton in Hc as ->. cbn. by rewrite Hs, He. }
  split; [|split].
  - intros Hn Hc. rewrite Hn, Hc in Hrun. cbn [andb] in Hrun.
    match type of Hrun with _ = _ ++ [?a0] ++ _ =>
      assert (a0 ∈ fst (campaign_appeals c id' e')) as Ha0
        by (rewrite Hrun; apply elem_of_app; right; left);
      exists a0 end.
    apply Hiff in Ha0 as [Ha0 Hid0].
    split; [exact Ha0|]. split; [exact Hid0|reflexivity].
  - intros Hout a Ha Hof. destruct (Hgt a Ha Hof) as [Hc _]. congruence.
  - intros a Ha Hof. by destruct (Hgt a Ha Hof) as [_ ?].
Qed.

(** C10: the year that anchors the seasonal appeals is the campaign end
    date's year clamped into 2021..2024; hence a campaign whose window lies
    entirely after December 31, 2024 gets no seasonal appeal: all the
    appeals [generate_appeals] produces for it are regular ones. *)
Theorem no_seasonal_appeal_after_2024 cs e c :
  c ∈ cs -> NoDup (map c_campaign_id cs) -> after_2024 c ->
  anchor_year c = Z.max (Z.min (year (c_end_date c)) 2024) 2021
  /\ 2021 <= anchor_year c <= 2024
  /\ forall a, a ∈ fst (generate_appeals cs e) ->
       a_campaign_id a = c_campaign_id c -> a_seasonal a = "Regular".
Proof.
  intros Hin Hnd Hafter. split; [reflexivity|].
  split; [apply anchor_year_range|].
  destruct (generate_appeals_of_campaign cs e c Hin Hnd) as (id' & e' & Hiff).
  destruct (campaign_appeals_parts c id' e')
    as (dec & id1 & e1 & reg & Hrun & Hd & Hr).
  rewrite giving_tuesday_appeal_run, (after_2024_no_november_30 c Hafter),
    andb_false_r in Hrun.
  intros a Ha Hid.
  assert (a ∈ fst (campaign_appeals c id' e')) as Hc by (by apply Hiff).
  rewrite Hrun in Hc. apply elem_of_app in Hc as [Hc|Hc].
  - apply Hd in Hc as (_ & _ & Hc).
    rewrite (after_2024_no_december c Hafter) in Hc. discriminate.
  - cbn [app] in Hc. by apply Hr in Hc as (_ & Hc).
Qed.

(** A Program campaign from June 10 to December 7, 2022 gets its Giving
    Tuesday appeal. *)
Lemma giving_tuesday_appeal_injected_witness :
  (includes_november december_campaign = true ->
   contains_anchor_november_30 december_campaign = true ->
   exists a, a ∈ fst (generate_appeals [december_campaign] zero_entropy)
             /\ giving_tuesday_appeal_of december_campaign a)
  /\ (contains_anchor_november_30 december_campaign = false ->
      forall a, a ∈ fst (generate_appeals [december_campaign] zero_entropy) ->
                ~ giving_tuesday_appeal_of december_campaign a)
  /\ forall a, a ∈ fst (generate_appeals [december_campaign] zero_entropy) ->
       giving_tuesday_appeal_of december_campaign a ->
       a_type a = "Giving Tuesday"
       /\ a_start_date a = mkdate (anchor_year december_campaign) 11 23
       /\ a_end_date a = mkdate (anchor_year december_campaign) 12 1.
Proof.
  apply (giving_tuesday_appeal_injected [december_campaign] zero_entropy
           december_campaign).
  - left.
  - apply NoDup_singleton.
  - reflexivity.
Defined.

Example december_campaign_appeals :
  map (fun a => (a_type a, a_seasonal a, a_start_date a, a_end_date a))
    (fst (generate_appeals [december_campaign] zero_entropy))
  = [("Direct Mail", "December", mkdate 2022 12 1, mkdate 2022 12 31);
     ("Giving Tuesday", "Giving Tuesday", mkdate 2022 11 23, mkdate 2022 12 1);
     ("Grant Application", "Regular", mkdate 2022 8 9, mkdate 2022 8 23);
     ("Grant Application", "Regular", mkdate 2022 10 8, mkdate 2022 10 22)].
Proof. vm_compute. reflexivity. Qed.

(** C6 as stated fails: a Program campaign from June 1 to November 28, 2022
    overlaps November (November 1 lies in its window), yet none of its
    appeals is Giving-Tuesday-anchored, because November 30 falls after its
    end. *)
Lemma giving_tuesday_counterexample :
  (overlaps_november november_campaign
   /\ giving_tuesday_type november_campaign = true)
  /\ Forall (fun a => a_seasonal a <> "Giving Tuesday")
       (fst (generate_appeals [november_campaign] zero_entropy)).
Proof.
  split.
  - split; [|reflexivity]. exists (mkdate 2022 11 1). by vm_compute.
  - vm_compute. repeat constructor; discriminate.
Qed.

(** A Special campaign from November 15, 2025 to May 14, 2026: both month
    tests hold, no seasonal appeal is injected. *)
Lemma no_seasonal_appeal_after_2024_witness :
  anchor_year late_campaign
  = Z.max (Z.min (year (c_end_date late_campaign)) 2024) 2021
  /\ 2021 <= anchor_year late_campaign <= 2024
  /\ forall a, a ∈ fst (generate_appeals [late_campaign] zero_entropy) ->
       a_campaign_id a = c_campaign_id late_campaign ->
       a_seasonal a = "Regular".
Proof.
  apply (no_seasonal_appeal_after_2024 [late_campaign] zero_entropy
           late_campaign).
  - left.
  - apply NoDup_singleton.
  - reflexivity.
Defined.

(** The worked campaigns have the lengths [generate_campaigns] gives their
    types: 180 days. *)
Example worked_campaign_lengths :
  add_days (mkdate 2022 6 1) 180 = mkdate 2022 11 28
  /\ add_days (mkdate 2022 6 10) 180 = mkdate 2022 12 7
  /\ add_days (mkdate 2025 11 15) 180 = mkdate 2026 5 14.
Proof. repeat split. Qed.

Example late_campaign_month_tests :
  includes_november late_campaign = true
  /\ includes_december late_campaign = true.
Proof. split; reflexivity. Qed.

(** ** The pledge engine *)

(** *** Rounding *)

(** [round] moves a number by at most one half. *)
Lemma round_half_even_close (y : Q) :
  (Qabs (inject_Z (round_half_even y) - y) <= 1 # 2)%Q.
Proof.
  unfold round_half_even.
  pose proof (Qfloor_le y) as Hlo. pose proof (Qlt_floor y) as Hhi.
  set (f := Qfloor y) in *.
  assert (inject_Z (f + 1) == inject_Z f + 1)%Q as Hf1.
  { rewrite inject_Z_plus. reflexivity. }
  rewrite Hf1 in Hhi.
  apply Qabs_Qle_condition.
  destruct (Qcompare_spec (y - inject_Z f) (1 # 2)) as [He|Hl|Hg].
  - destruct (Z.even f); [|rewrite Hf1]; split; lra.
  - split; lra.
  - rewrite Hf1. split; lra.
Qed.

Lemma round2_close (x : Q) : (Qabs (round2 x - x) <= 1 # 200)%Q.
Proof.
  unfold round2.
  pose proof (round_half_even_close (x * 100)) as H.
  apply Qabs_Qle_condition in H. apply Qabs_Qle_condition.
  set (r := round_half_even (x * 100)) in *.
  assert (r # 100 == inject_Z r * (1 # 100))%Q as ->.
  { unfold Qeq, Qmult, inject_Z. simpl. lia. }
  destruct H as [H1 H2]. split; lra.
Qed.

Lemma pledge_total_amount_close inst n :
  (Qabs (pledge_total_amount inst n - inst * inject_Z n) < 0.01)%Q.
Proof.
  unfold pledge_total_amount.
  eapply Qle_lt_trans; [apply round2_close|reflexivity].
Qed.

Lemma make_pledge_amounts cfg today txs segs camps pledge_id donor e :
  let p := fst (make_pledge cfg today txs segs camps pledge_id donor e) in
  total_amount p = pledge_total_amount (installment_amount p) (installments p).
Proof.
  unfold make_pledge. gen_unfold.
  repeat match goal with
  | |- context [let (_, _) := ?m in _] => destruct m
  end.
  reflexivity.
Qed.

Lemma pledges_loop_cons cfg today cs txs segs camps donor_id rest pid payid
    pledges payments e :
  pledges_loop cfg today cs txs segs camps (donor_id :: rest) pid payid
    pledges payments e
  = match List.find (fun c => constituent_id c =? donor_id) cs with
    | None => (None, e)
    | Some donor =>
        let (pledge, e1) := make_pledge cfg today txs segs camps pid donor e in
        let (pays, e2) := generate_pledge_payments today pledge payid e1 in
        pledges_loop cfg today cs txs segs camps rest (pid + 1)
          (payid + Z.of_nat (length pays)) (pledges ++ [pledge])
          (payments ++ pays) e2
    end.
Proof.
  cbn [pledges_loop]. destruct (List.find _ cs); reflexivity.
Qed.

Lemma pledges_loop_amounts cfg today cs txs segs camps donors :
  forall pid payid pledges payments e out,
  Forall amounts_agree pledges ->
  fst (pledges_loop cfg today cs txs segs camps donors pid payid
         pledges payments e) = Some out ->
  Forall amounts_agree out.1.
Proof.
  induction donors as [|donor_id rest IH];
    intros pid payid pledges payments e out Hacc Hrun.
  - injection Hrun as <-. exact Hacc.
  - rewrite pledges_loop_cons in Hrun.
    destruct (List.find _ cs) as [donor|]; [|discriminate Hrun].
    pose proof (make_pledge_amounts cfg today txs segs camps pid donor e) as Hp.
    destruct (make_pledge cfg today txs segs camps pid donor e) as [pledge e1].
    destruct (generate_pledge_payments today pledge payid e1) as [pays e2].
    eapply IH; [|exact Hrun].
    apply Forall_app. split; [exact Hacc|].
    constructor; [|constructor]. unfold amounts_agree.
    cbn [fst] in Hp. rewrite Hp. apply pledge_total_amount_close.
Qed.

(** C9: for every pledge [generate_pledges] produces, the total amount
    differs from the installment amount times the number of installments by
    less than 0.01. *)
Theorem pledge_amounts_agree cfg today sample cs txs segs camps e
    pledges payments :
  fst (generate_pledges cfg today sample cs txs segs camps e)
  = Some (pledges, payments) ->
  forall p, p ∈ pledges ->
    (Qabs (total_amount p - installment_amount p * inject_Z (installments p))
     < 0.01)%Q.
Proof.
  unfold generate_pledges. intros Hrun.
  destruct (pledge_donor_count cfg (eligible_donors txs)) as [num|];
    [|discriminate Hrun].
  assert (Forall amounts_agree pledges) as Hall.
  { destruct (eligible_donors txs) as [|d0 ds].
    { injection Hrun as <- <-. constructor. }
    destruct (_ =? 0).
    { injection Hrun as <- <-. constructor. }
    revert Hrun. gen_unfold.
    destruct (sample _ _ e) as [pledge_donors e1]. intros Hrun.
    apply (pledges_loop_amounts _ _ _ _ _ _ _ _ _ _ _ _ _
             (List.Forall_nil _) Hrun). }
  intros p Hp. rewrite Forall_forall in Hall. by apply Hall.
Qed.

(** Nine donors with two gifts each under the default configuration: one
    pledge is generated. *)
Lemma pledge_amounts_agree_witness :
  fst (generate_pledges default_config generation_day (Random.sample 0)
         (repeat_donors 9) (two_gifts_each 9) ∅ [november_campaign]
         cancelled_pledge_entropy)
  = Some ([cancelled_pledge], [cancelled_pledge_payment])
  /\ forall p, p ∈ [cancelled_pledge] ->
       (Qabs (total_amount p - installment_amount p * inject_Z (installments p))
        < 0.01)%Q.
Proof.
  assert (fst (generate_pledges default_config generation_day
                 (Random.sample 0) (repeat_donors 9) (two_gifts_each 9) ∅
                 [november_campaign] cancelled_pledge_entropy)
          = Some ([cancelled_pledge], [cancelled_pledge_payment])) as Hrun.
  { vm_compute. reflexivity. }
  split; [exact Hrun|].
  exact (pledge_amounts_agree _ _ _ _ _ _ _ _ _ _ Hrun).
Defined.

(** *** The pledge loop runs to its end *)

Lemma first_occurrences_subset ids : forall seen x,
  x ∈ first_occurrences seen ids -> x ∈ ids.
Proof.
  induction ids as [|i ids IH]; intros seen x Hx; [done|].
  cbn [first_occurrences] in Hx. destruct (bool_decide (i ∈ seen)).
  - right. by eapply IH.
  - apply elem_of_cons in Hx as [->|Hx]; [left|right; by eapply IH].
Qed.

Lemma eligible_donors_have_gifts transactions id :
  id ∈ eligible_donors transactions ->
  exists t, t ∈ transactions /\ t_constituent_id t = id.
Proof.
  unfold eligible_donors. intros H.
  apply list_elem_of_filter in H as [_ H].
  apply first_occurrences_subset, list_elem_of_fmap in H as (t & -> & Ht).
  by exists t.
Qed.

Lemma find_constituent cs id :
  (exists c, c ∈ cs /\ constituent_id c = id) ->
  exists c, List.find (fun c => constituent_id c =? id) cs = Some c.
Proof.
  intros (c & Hc & Hid).
  destruct (List.find (fun c => constituent_id c =? id) cs) as [c'|] eqn:E;
    [by exists c'|].
  apply list_elem_of_In in Hc.
  pose proof (List.find_none _ _ E c Hc) as Hf. cbn in Hf.
  apply Z.eqb_neq in Hf. done.
Qed.

Lemma pledges_loop_returns cfg today cs txs segs camps donors :
  (forall id, id ∈ donors -> exists c, c ∈ cs /\ constituent_id c = id) ->
  forall pid payid pledges payments e,
  exists out,
    fst (pledges_loop cfg today cs txs segs camps donors pid payid
           pledges payments e) = Some out.
Proof.
  induction donors as [|donor_id rest IH];
    intros Hall pid payid pledges payments e.
  - by eexists.
  - rewrite pledges_loop_cons.
    destruct (find_constituent cs donor_id) as [donor ->].
    { apply Hall. left. }
    destruct (make_pledge cfg today txs segs camps pid donor e) as [pledge e1].
    destruct (generate_pledge_payments today pledge payid e1) as [pays e2].
    apply IH. intros id Hid. apply Hall. by right.
Qed.

(** *** Payments of cancelled pledges *)

Lemma payments_loop_length pid status freq start amt n todo :
  forall i payid e,
  length (fst (payments_loop pid status freq start amt n todo i payid e))
  = todo.
Proof.
  induction todo as [|todo IH]; intros i payid e; [reflexivity|].
  cbn [payments_loop]. gen_unfold.
  match goal with |- context [let (_, _) := ?m e in _] =>
    destruct (m e) as [st e1] end.
  specialize (IH (i + 1) (payid + 1) e1).
  destruct (payments_loop pid status freq start amt n todo (i + 1)
              (payid + 1) e1) as [rest e2].
  cbn [fst length] in *. by rewrite IH.
Qed.

(** A cancelled pledge gets between 0 and [max(1, installments - 1)]
    payment rows, and none when the value [random()] returns is at least
    0.3. *)
Lemma cancelled_payments_bounds today pledge payid e :
  p_status pledge = "Cancelled" ->
  let n :=
    Z.of_nat (length (fst (generate_pledge_payments today pledge payid e))) in
  0 <= n <= Z.max 1 (installments pledge - 1)
  /\ ((0.3 <= py_unit e 0)%Q -> n = 0).
Proof.
  intros Hst. unfold generate_pledge_payments, payments_to_generate.
  rewrite Hst. cbn [String.eqb Ascii.eqb Bool.eqb negb]. gen_unfold.
  rewrite random_run.
  destruct (Qlt_bool (py_unit e 0) 0.3) eqn:Hu.
  - pose proof (randint_range 0 (Z.max 1 (installments pledge - 1))
                  (advance_py 1 e) ltac:(lia)) as Hr.
    destruct (Random.randint 0 _ (advance_py 1 e)) as [k e1]. cbn [fst] in Hr.
    rewrite payments_loop_length. cbv zeta. split; [lia|].
    intros Hge. unfold Qlt_bool in Hu. apply negb_true_iff in Hu.
    apply Qle_bool_iff in Hge. congruence.
  - cbn. split; [lia|done].
Qed.

(** For two installments or more the rows never cover all installments. *)
Lemma cancelled_payments_partial today pledge payid e :
  p_status pledge = "Cancelled" -> 2 <= installments pledge ->
  0 <= Z.of_nat (length (fst (generate_pledge_payments today pledge payid e)))
    <= installments pledge - 1.
Proof.
  intros Hst Hn.
  destruct (cancelled_payments_bounds today pledge payid e Hst) as [H _].
  cbv zeta in H. lia.
Qed.

(** C5 fails on the code for a pledge of a single installment: with nine
    repeat donors under the default configuration, the run below generates
    one Annual pledge of one installment, cancels it, and still writes its
    one payment row, so the rows cover all installments of a cancelled
    pledge ([random.randint(0, max(1, installments - 1))] may return 1). *)
Lemma cancelled_pledge_all_installments :
  fst (generate_pledges default_config generation_day (Random.sample 0)
         (repeat_donors 9) (two_gifts_each 9) ∅ [november_campaign]
         cancelled_pledge_entropy)
  = Some ([cancelled_pledge], [cancelled_pledge_payment])
  /\ p_status cancelled_pledge = "Cancelled"
  /\ installments cancelled_pledge = 1
  /\ Z.of_nat (length (payments_of cancelled_pledge
                         [cancelled_pledge_payment]))
     = installments cancelled_pledge.
Proof. vm_compute. repeat split. Qed.

(** ** Running aggregates of the transaction engine *)

(** What [update_donor_metrics] does to the constituent it finds. *)
Lemma record_gift_dates c amount d :
  first_gift_date (record_gift c amount d)
  = Some (default d (first_gift_date c))
  /\ last_gift_date (record_gift c amount d)
     = Some (Date.max (default d (last_gift_date c)) d)
  /\ lifetime_giving (record_gift c amount d) = (lifetime_giving c + amount)%Q.
Proof. destruct c as [? ? ? ? ? ? ? ? ? ? ? ? ? ? ? [f|] l]; done. Qed.

(** An earlier date does not move a first gift date that is already set,
    whereas the minimum would. *)
Example first_gift_date_kept :
  first_gift_date
    (record_gift
       (mkConstituent 1 "Individual" None None (Some "Pat") (Some "Doe")
          (Some "F") "" "" "" "" "CA" "" (mkdate 2021 1 1) 10
          (Some (mkdate 2023 5 1)) (Some (mkdate 2023 5 1)))
       10 (mkdate 2022 5 1))
  = Some (mkdate 2023 5 1)
  /\ spec_first_gift_date (Some (mkdate 2023 5 1)) (mkdate 2022 5 1)
     = Some (mkdate 2022 5 1).
Proof. split; reflexivity. Qed.

(** C1 fails on the code: two constituents, two Board Giving appeals, the
    appeal of May 2023 processed before the appeal of May 2022.  Constituent
    1 answers both; after the run its first gift date is still May 1, 2023,
    later than its gift of May 1, 2022, while its last gift date bounds both
    gifts. *)
Lemma first_gift_date_not_minimum :
  let st :=
    fst (generate_transactions default_config ∅ capital_fund_rows
           (individuals_1_to 2) [board_appeal_2023; board_appeal_2022]
           single_gift_entropy) in
  map (fun t => (t_constituent_id t, t_date t)) (e_transactions st)
  = [(1, mkdate 2023 5 1); (1, mkdate 2022 5 1)]
  /\ map (fun c => (constituent_id c, first_gift_date c, last_gift_date c))
       (e_constituents st)
     = [(1, Some (mkdate 2023 5 1), Some (mkdate 2023 5 1)); (2, None, None)]
  /\ Date.leb (mkdate 2023 5 1) (mkdate 2022 5 1) = false.
Proof. vm_compute. repeat split. Qed.

(** *** The order on dates *)

Lemma date_leb_refl a : Date.leb a a = true.
Proof. date_cmp. lia. Qed.

Lemma date_leb_trans a b c :
  Date.leb a b = true -> Date.leb b c = true -> Date.leb a c = true.
Proof. intros H1 H2. date_cmp. lia. Qed.

Lemma date_leb_max_l a b : Date.leb a (Date.max a b) = true.
Proof.
  unfold Date.max. destruct (Date.ltb a b) eqn:E; [|apply date_leb_refl].
  unfold Date.leb. by rewrite E.
Qed.

Lemma date_leb_max_r a b : Date.leb b (Date.max a b) = true.
Proof.
  unfold Date.max. destruct (Date.ltb a b) eqn:E; [apply date_leb_refl|].
  date_cmp. lia.
Qed.

(** *** [update_donor_metrics] *)

Lemma update_donor_metrics_ids cs id amount d :
  map constituent_id (update_donor_metrics cs id amount d)
  = map constituent_id cs.
Proof.
  induction cs as [|c cs IH]; [reflexivity|].
  cbn [update_donor_metrics]. destruct (constituent_id c =? id).
  - reflexivity.
  - cbn [map]. by rewrite IH.
Qed.

Lemma find_after_update cs id amount d id' :
  find_constituent_by_id (update_donor_metrics cs id amount d) id'
  = if id' =? id
    then (fun c => record_gift c amount d) <$> find_constituent_by_id cs id
    else find_constituent_by_id cs id'.
Proof.
  unfold find_constituent_by_id.
  induction cs as [|c cs IH]; [by destruct (id' =? id)|].
  cbn [update_donor_metrics].
  destruct (Z.eqb_spec (constituent_id c) id) as [Hc|Hc].
  - cbn [List.find record_gift constituent_id]. rewrite Hc.
    destruct (Z.eqb_spec id' id) as [Heq|Hne].
    + rewrite Heq, Z.eqb_refl. reflexivity.
    + destruct (Z.eqb_spec id id'); [congruence|reflexivity].
  - cbn [List.find]. rewrite IH.
    destruct (Z.eqb_spec (constituent_id c) id') as [Hc'|Hc'].
    + destruct (Z.eqb_spec id' id); [congruence|reflexivity].
    + destruct (Z.eqb_spec (constituent_id c) id); [congruence|].
      reflexivity.
Qed.

Lemma find_on_record cs id :
  id ∈ map constituent_id cs ->
  exists c, find_constituent_by_id cs id = Some c.
Proof.
  intros H. apply list_elem_of_fmap in H as (c & -> & Hc).
  apply find_constituent. by exists c.
Qed.

(** *** The loops of the engine *)

Lemma make_gift_ids cfg segs cfs appeal donor gift_num st e :
  map constituent_id
    (e_constituents (fst (make_gift cfg segs cfs appeal donor gift_num st e)))
  = map constituent_id (e_constituents st).
Proof.
  unfold make_gift. gen_unfold.
  repeat match goal with
  | |- context [let (_, _) := ?m in _] => destruct m
  end.
  apply update_donor_metrics_ids.
Qed.

(** The transaction and the constituents one gift leaves behind. *)
Lemma make_gift_effect cfg segs cfs appeal donor gift_num st e :
  exists t,
    t_constituent_id t = constituent_id donor
    /\ e_transactions (fst (make_gift cfg segs cfs appeal donor gift_num st e))
       = e_transactions st ++ [t]
    /\ e_constituents (fst (make_gift cfg segs cfs appeal donor gift_num st e))
       = update_donor_metrics (e_constituents st) (constituent_id donor)
           (t_amount t) (t_date t).
Proof.
  unfold make_gift. gen_unfold.
  repeat match goal with
  | |- context [let (_, _) := ?m in _] => destruct m
  end.
  eexists. cbn [fst e_transactions e_constituents].
  split; [|split; reflexivity]. reflexivity.
Qed.

Section EngineInvariant.

Variable cfg : Config.
Variable segs : gmap Z Segment.
Variable cfs : list CampaignFund.

(** A property of the engine state that every gift of a constituent on
    record preserves. *)
Variable P : Engine -> Prop.
Hypothesis gift_preserves : forall appeal donor gift_num st e,
  constituent_id donor ∈ map constituent_id (e_constituents st) ->
  P st -> P (fst (make_gift cfg segs cfs appeal donor gift_num st e)).

Lemma gifts_loop_keeps appeal donor todo :
  forall gift_num st e,
  constituent_id donor ∈ map constituent_id (e_constituents st) ->
  let st' := fst (gifts_loop cfg segs cfs appeal donor todo gift_num st e) in
  map constituent_id (e_constituents st')
  = map constituent_id (e_constituents st)
  /\ (P st -> P st').
Proof.
  induction todo as [|todo IH]; intros gift_num st e Hrec; cbv zeta.
  - by split.
  - cbn [gifts_loop]. gen_unfold.
    pose proof (make_gift_ids cfg segs cfs appeal donor gift_num st e) as Hi.
    pose proof (gift_preserves appeal donor gift_num st e Hrec) as Hp.
    destruct (make_gift cfg segs cfs appeal donor gift_num st e) as [st1 e1].
    cbn [fst] in Hi, Hp.
    destruct (IH (gift_num + 1) st1 e1) as [Hi' Hp'].
    { by rewrite Hi. }
    cbv zeta in Hi', Hp'. split; [by rewrite Hi'|auto].
Qed.

Lemma donor_gifts_keeps appeal donor st e :
  constituent_id donor ∈ map constituent_id (e_constituents st) ->
  let st' := fst (donor_gifts cfg segs cfs appeal donor st e) in
  map constituent_id (e_constituents st')
  = map constituent_id (e_constituents st)
  /\ (P st -> P st').
Proof.
  intros Hrec. cbv zeta. unfold donor_gifts. gen_unfold.
  destruct (Random.random e) as [u e1].
  match goal with |- context [let (_, _) := ?m e1 in _] =>
    destruct (m e1) as [num_gifts e2] end.
  by apply gifts_loop_keeps.
Qed.

Lemma donors_loop_keeps appeal appeal_donors :
  forall st e,
  (forall donor, donor ∈ appeal_donors ->
     constituent_id donor ∈ map constituent_id (e_constituents st)) ->
  let st' := fst (donors_loop cfg segs cfs appeal appeal_donors st e) in
  map constituent_id (e_constituents st')
  = map constituent_id (e_constituents st)
  /\ (P st -> P st').
Proof.
  induction appeal_donors as [|donor rest IH]; intros st e Hrec; cbv zeta.
  - by split.
  - cbn [donors_loop]. gen_unfold.
    destruct (donor_gifts_keeps appeal donor st e (Hrec donor ltac:(left)))
      as [Hi Hp]. cbv zeta in Hi, Hp.
    destruct (donor_gifts cfg segs cfs appeal donor st e) as [st1 e1].
    cbn [fst] in Hi, Hp.
    destruct (IH st1 e1) as [Hi' Hp'].
    { intros d Hd. rewrite Hi. apply Hrec. by right. }
    cbv zeta in Hi', Hp'. split; [by rewrite Hi'|auto].
Qed.

Lemma appeal_transactions_keeps appeal st e :
  let st' := fst (appeal_transactions cfg segs cfs appeal st e) in
  map constituent_id (e_constituents st')
  = map constituent_id (e_constituents st)
  /\ (P st -> P st').
Proof.
  cbv zeta. unfold appeal_transactions.
  destruct (potential_donors (e_constituents st) appeal) as [|d0 ds] eqn:Hd.
  { by split. }
  gen_unfold.
  destruct (select_donors cfg segs cfs appeal (d0 :: ds) e) as [idx e1].
  apply donors_loop_keeps. intros donor Hdonor.
  apply list_elem_of_fmap in Hdonor as (i & -> & _).
  assert (nth i (d0 :: ds) d0 ∈ d0 :: ds) as Hin.
  { destruct (nth_in_or_default i (d0 :: ds) d0) as [H|H].
    - by apply list_elem_of_In.
    - rewrite H. left. }
  assert (forall x, x ∈ d0 :: ds -> x ∈ e_constituents st) as Hsub.
  { intros x Hx. rewrite <- Hd in Hx. unfold potential_donors in Hx.
    by apply list_elem_of_filter in Hx as [_ Hx]. }
  apply list_elem_of_fmap. eexists. split; [reflexivity|by apply Hsub].
Qed.

Lemma appeals_engine_loop_keeps appeals :
  forall st e,
  let st' := fst (appeals_engine_loop cfg segs cfs appeals st e) in
  map constituent_id (e_constituents st')
  = map constituent_id (e_constituents st)
  /\ (P st -> P st').
Proof.
  induction appeals as [|appeal rest IH]; intros st e; cbv zeta.
  - by split.
  - cbn [appeals_engine_loop]. gen_unfold.
    destruct (appeal_transactions_keeps appeal st e) as [Hi Hp].
    cbv zeta in Hi, Hp.
    destruct (appeal_transactions cfg segs cfs appeal st e) as [st1 e1].
    cbn [fst] in Hi, Hp.
    destruct (IH st1 e1) as [Hi' Hp']. cbv zeta in Hi', Hp'.
    split; [by rewrite Hi'|auto].
Qed.

(** What holds before the first appeal and survives every gift holds after
    the run. *)
Lemma generate_transactions_invariant constituents appeals e :
  P (mkEngine constituents [] 1) ->
  P (fst (generate_transactions cfg segs cfs constituents appeals e)).
Proof.
  unfold generate_transactions.
  by destruct (appeals_engine_loop_keeps appeals
                 (mkEngine constituents [] 1) e) as [_ Hp].
Qed.

End EngineInvariant.

Lemma make_gift_last_gift_bounds cfg segs cfs appeal donor gift_num st e :
  constituent_id donor ∈ map constituent_id (e_constituents st) ->
  last_gift_bounds st ->
  last_gift_bounds (fst (make_gift cfg segs cfs appeal donor gift_num st e)).
Proof.
  intros Hrec Hb.
  destruct (make_gift_effect cfg segs cfs appeal donor gift_num st e)
    as (t0 & Hid & Htx & Hcs).
  unfold last_gift_bounds. rewrite Htx, Hcs. intros t Ht.
  destruct (find_on_record _ _ Hrec) as [c0 Hc0].
  rewrite find_after_update.
  apply elem_of_app in Ht as [Ht|Ht].
  - destruct (Hb t Ht) as (c & l & Hf & Hl & Hle).
    destruct (Z.eqb_spec (t_constituent_id t) (constituent_id donor))
      as [Heq|Hne].
    + rewrite Heq in Hf. rewrite Hf. cbn [fmap option_fmap option_map].
      eexists _, _. split; [reflexivity|].
      destruct (record_gift_dates c (t_amount t0) (t_date t0)) as (_ & -> & _).
      split; [reflexivity|]. rewrite Hl. cbn [default].
      eapply date_leb_trans; [exact Hle|apply date_leb_max_l].
    + by exists c, l.
  - apply list_elem_of_singleton in Ht as ->.
    rewrite Hid, Z.eqb_refl, Hc0. cbn [fmap option_fmap option_map].
    eexists _, _. split; [reflexivity|].
    destruct (record_gift_dates c0 (t_amount t0) (t_date t0)) as (_ & -> & _).
    split; [reflexivity|apply date_leb_max_r].
Qed.

(** X21: After the engine has run, every transaction's donor carries a last gift
    date, and it is no earlier than the transaction's date. *)
Theorem last_gift_date_bounds_transactions cfg segs cfs constituents appeals e :
  last_gift_bounds
    (fst (generate_transactions cfg segs cfs constituents appeals e)).
Proof.
  apply generate_transactions_invariant.
  - apply make_gift_last_gift_bounds.
  - intros t Ht. inversion Ht.
Qed.

Lemma transactions_of_app txs1 txs2 id :
  transactions_of (txs1 ++ txs2) id
  = transactions_of txs1 id ++ transactions_of txs2 id.
Proof. unfold transactions_of. apply filter_app. Qed.

Lemma make_gift_first_gift cfg segs cfs appeal donor gift_num st e :
  constituent_id donor ∈ map constituent_id (e_constituents st) ->
  first_gift_first_processed st ->
  first_gift_first_processed
    (fst (make_gift cfg segs cfs appeal donor gift_num st e)).
Proof.
  intros Hrec Hf.
  destruct (make_gift_effect cfg segs cfs appeal donor gift_num st e)
    as (t0 & Hid & Htx & Hcs).
  unfold first_gift_first_processed. rewrite Htx, Hcs. intros id c.
  rewrite find_after_update, transactions_of_app.
  unfold transactions_of at 2. rewrite filter_cons, filter_nil, Hid.
  destruct (Z.eqb_spec id (constituent_id donor)) as [->|Hne].
  - destruct (find_constituent_by_id (e_constituents st) (constituent_id donor))
      as [c1|] eqn:Hc1; [|discriminate].
    intros [= <-]. rewrite decide_True by done.
    destruct (record_gift_dates c1 (t_amount t0) (t_date t0)) as (-> & _).
    rewrite (Hf _ _ Hc1).
    by destruct (transactions_of (e_transactions st) (constituent_id donor)).
  - intros Hc. rewrite decide_False by done. rewrite app_nil_r.
    by apply Hf.
Qed.

(** X22: What the engine does in place of the minimum: when no constituent has a
    first gift date before the run, afterwards each first gift date is the
    date of the first transaction appended for the constituent. *)
Theorem first_gift_date_is_first_processed cfg segs cfs constituents appeals e :
  (forall c, c ∈ constituents -> first_gift_date c = None) ->
  first_gift_first_processed
    (fst (generate_transactions cfg segs cfs constituents appeals e)).
Proof.
  intros Hnone. apply generate_transactions_invariant.
  - apply make_gift_first_gift.
  - intros id c Hc. cbn [e_constituents e_transactions] in *.
    apply List.find_some in Hc as [Hc _]. apply list_elem_of_In in Hc.
    by rewrite (Hnone c Hc).
Qed.

Lemma first_gift_date_is_first_processed_witness :
  first_gift_first_processed
    (fst (generate_transactions default_config ∅ capital_fund_rows
            (individuals_1_to 2) [board_appeal_2023; board_appeal_2022]
            single_gift_entropy)).
Proof.
  apply first_gift_date_is_first_processed.
  intros c Hc. unfold individuals_1_to in Hc. cbn [seq map] in Hc.
  apply elem_of_cons in Hc as [->|Hc]; [reflexivity|].
  apply list_elem_of_singleton in Hc as ->. reflexivity.
Defined.

(** ** Reproducibility *)

Lemma first_state_low fake_text py_seeded fk_seeded :
  first_state (one_constituent_run fake_text py_seeded fk_seeded numpy_low)
  = "CA".
Proof. vm_compute. reflexivity. Qed.

Lemma first_state_high fake_text py_seeded fk_seeded :
  first_state (one_constituent_run fake_text py_seeded fk_seeded numpy_high)
  = "OR".
Proof. vm_compute. reflexivity. Qed.

(** C3 fails on the code: the script seeds the [random] module and Faker
    but never numpy, whose global generator picks the state, gender and
    segment of every constituent.  With the [random] and Faker generators in
    the states their seeds fix, and the default configuration, two runs
    whose numpy generators start differently produce different constituent
    tables. *)
Theorem numpy_draws_escape_the_seed fake_text (py_seeded fk_seeded : rng) :
  exists np1 np2,
    one_constituent_run fake_text py_seeded fk_seeded np1
    <> one_constituent_run fake_text py_seeded fk_seeded np2.
Proof.
  exists numpy_low, numpy_high. intros Heq.
  pose proof (first_state_low fake_text py_seeded fk_seeded) as Hl.
  pose proof (first_state_high fake_text py_seeded fk_seeded) as Hh.
  rewrite Heq in Hl. rewrite Hl in Hh. discriminate Hh.
Qed.

(** The pledge table also depends on the day of the run
    ([datetime.now()]): the same inputs and the same generators give an
    Active pledge in January 2023 and a Completed one in November 2026. *)
Example pledge_status_follows_the_clock :
  pledge_statuses
    (fst (generate_pledges default_config (mkdate 2023 1 15) (Random.sample 0)
            (repeat_donors 9) (two_gifts_each 9) ∅ [november_campaign]
            plain_pledge_entropy))
  = ["Active"]
  /\ pledge_statuses
       (fst (generate_pledges default_config (mkdate 2026 11 4)
               (Random.sample 0) (repeat_donors 9) (two_gifts_each 9) ∅
               [november_campaign] plain_pledge_entropy))
     = ["Completed"].
Proof. vm_compute. split; reflexivity. Qed.

(** ** The household pairing engine *)

Lemma choice_elem {A} (d : A) (seq : list A) e :
  seq <> [] -> fst (Random.choice d seq e) ∈ seq.
Proof.
  intros Hne. unfold Random.choice, Random.randbelow. gen_unfold.
  destruct (py_word e) as [w e1]. cbn [fst].
  apply nth_elem_of.
  assert (0 < Z.of_nat (length seq)) as Hl.
  { destruct seq; [done|]. cbn [length]. lia. }
  pose proof (Z.mod_pos_bound (Z.of_N w) _ Hl). lia.
Qed.

Lemma not_elem_of_add (s : gset nat) (i p : nat) :
  p ∉ s -> p <> i -> p ∉ {[i]} ∪ s.
Proof.
  intros Hs Hne Hin. apply elem_of_union in Hin as [Hin|Hin]; [|done].
  by apply elem_of_singleton in Hin.
Qed.

Lemma subseteq_add_two (s s' : gset nat) (i p : nat) :
  {[p]} ∪ ({[i]} ∪ s) ⊆ s' -> s ⊆ s' /\ i ∈ s'.
Proof. set_solver. Qed.

Lemma subseteq_add_one (s : gset nat) (i : nat) :
  s ⊆ {[i]} ∪ s /\ i ∈ {[i]} ∪ s.
Proof. set_solver. Qed.

Section HouseholdProofs.

Variable individuals : list Constituent.
Variable nobody : Constituent.


Lemma unassigned_in_window_spec assigned i w j :
  j ∈ unassigned_in_window individuals assigned i w ->
  (j ∉ assigned) /\ (i < j < length individuals)%nat.
Proof.
  unfold unassigned_in_window. intros H.
  apply list_elem_of_filter in H as [H1 H2].
  apply elem_of_seq in H2. split; [done|lia].
Qed.

Lemma covers_add order rows assigned j hid name primary is_primary :
  covers individuals nobody order rows assigned ->
  j ∉ assigned -> (j < length individuals)%nat ->
  covers individuals nobody (order ++ [j])
    (rows ++ [household_row hid name primary
                (individual individuals nobody j) is_primary])
    ({[j]} ∪ assigned).
Proof.
  intros (Hnd & Hiff & Hlt & Hids) Hj Hjn. repeat split.
  - apply NoDup_app. split; [done|]. split; [|apply NoDup_singleton].
    intros x Hx Hx'. apply list_elem_of_singleton in Hx' as ->.
    by apply Hj, Hiff.
  - intros Hx. apply elem_of_app in Hx as [Hx|Hx].
    + apply elem_of_union. right. by apply Hiff.
    + apply list_elem_of_singleton in Hx as ->.
      apply elem_of_union. left. by apply elem_of_singleton.
  - intros Hx. apply elem_of_app.
    apply elem_of_union in Hx as [Hx|Hx].
    + right. apply elem_of_singleton in Hx as ->. left.
    + left. by apply Hiff.
  - intros x Hx. apply elem_of_app in Hx as [Hx|Hx]; [by apply Hlt|].
    by apply list_elem_of_singleton in Hx as ->.
  - rewrite !map_app, Hids. reflexivity.
Qed.

Lemma numbered_new_household rows next r :
  households_numbered rows next ->
  h_household_id r = next -> h_is_primary r = true -> 1 <= next ->
  households_numbered (rows ++ [r]) (next + 1).
Proof.
  intros [Hr Hh] Hid Hp Hnext. split.
  - intros r' Hin. apply elem_of_app in Hin as [Hin|Hin].
    + specialize (Hr r' Hin). lia.
    + apply list_elem_of_singleton in Hin as ->. lia.
  - intros h Hrange. destruct (decide (h = next)) as [->|Hne].
    + exists r. split; [|done]. apply elem_of_app. right. left.
    + destruct (Hh h ltac:(lia)) as (r' & Hin & Hid' & Hp').
      exists r'. split; [|done]. apply elem_of_app. by left.
Qed.

Lemma numbered_new_member rows next r :
  households_numbered rows next ->
  1 <= h_household_id r < next ->
  households_numbered (rows ++ [r]) next.
Proof.
  intros [Hr Hh] Hid. split.
  - intros r' Hin. apply elem_of_app in Hin as [Hin|Hin]; [by apply Hr|].
    by apply list_elem_of_singleton in Hin as ->.
  - intros h Hrange. destruct (Hh h Hrange) as (r' & Hin & Hid' & Hp').
    exists r'. split; [|done]. apply elem_of_app. by left.
Qed.

Lemma additional_members_loop_spec fuel hid name primary :
  forall more search_idx rows assigned order next,
  covers individuals nobody order rows assigned ->
  households_numbered rows next ->
  1 <= hid < next ->
  (search_idx + fuel <= length individuals)%nat ->
  let out := additional_members_loop individuals nobody fuel hid name
               primary more search_idx rows assigned in
  (exists order', covers individuals nobody order' out.1 out.2)
  /\ households_numbered out.1 next
  /\ assigned ⊆ out.2.
Proof.
  induction fuel as [|fuel IH];
    intros more search_idx rows assigned order next Hc Hn Hhid Hfuel.
  - cbn. split; [by exists order|]. split; [done|set_solver].
  - destruct more as [|more].
    { cbn. split; [by exists order|]. split; [done|set_solver]. }
    cbn [additional_members_loop].
    destruct (bool_decide (search_idx ∉ assigned)) eqn:Hdec.
    + apply bool_decide_eq_true in Hdec.
      edestruct (IH more (S search_idx)) as (Ho & Hn' & Hsub).
      { apply (covers_add order rows assigned search_idx hid name primary
                 false Hc Hdec). lia. }
      { apply numbered_new_member; [exact Hn|exact Hhid]. }
      { exact Hhid. }
      { lia. }
      cbv zeta in Ho, Hn', Hsub. cbv zeta.
      split; [exact Ho|]. split; [exact Hn'|].
      etrans; [|exact Hsub]. apply union_subseteq_r.
    + apply (IH (S more) (S search_idx) rows assigned order next Hc Hn Hhid).
      lia.
Qed.


Lemma single_household_spec i st e :
  pairing_inv individuals nobody st ->
  i ∉ assigned_constituents st -> (i < length individuals)%nat ->
  let st' := fst (single_household individuals nobody i st e) in
  pairing_inv individuals nobody st'
  /\ assigned_constituents st ⊆ assigned_constituents st'
  /\ i ∈ assigned_constituents st'.
Proof.
  intros ([order Hc] & Hn & H1) Hi Hin. cbv zeta.
  unfold pairing_inv, single_household. gen_unfold.
  destruct (get_formal_name (individual individuals nobody i) e)
    as [name e1]. cbn [fst households assigned_constituents household_id].
  split; [|apply subseteq_add_one].
  split; [|split; [|lia]].
  - eexists. by apply covers_add.
  - by apply numbered_new_household.
Qed.

Lemma couple_household_spec i potential_partners st e :
  pairing_inv individuals nobody st ->
  i ∉ assigned_constituents st -> (i < length individuals)%nat ->
  potential_partners <> [] ->
  (forall j, j ∈ potential_partners ->
     (j ∉ assigned_constituents st) /\ (i < j < length individuals)%nat) ->
  let st' :=
    fst (couple_household individuals nobody i potential_partners st e) in
  pairing_inv individuals nobody st'
  /\ assigned_constituents st ⊆ assigned_constituents st'
  /\ i ∈ assigned_constituents st'.
Proof.
  intros ([order Hc] & Hn & H1) Hi Hin Hne Hpp. cbv zeta.
  unfold pairing_inv, couple_household. gen_unfold.
  pose proof (choice_elem O potential_partners e Hne) as Hp0.
  destruct (Random.choice O potential_partners e) as [p0 e1].
  cbn [fst] in Hp0. apply Hpp in Hp0.
  destruct (Random.random e1) as [u e2].
  match goal with |- context [let (_, _) := ?m e2 in _] =>
    assert (exists p e3,
              m e2 = (p, e3)
              /\ (p ∉ assigned_constituents st) /\ (i < p < length individuals)%nat)
    as (p & e3 & -> & Hp & Hpn) end.
  { destruct (_ && _); [|by eexists _, _].
    destruct (filter _ _) as [|g gs] eqn:Hf; [by eexists _, _|].
    pose proof (choice_elem O (g :: gs) e2 ltac:(done)) as Hg.
    destruct (Random.choice O (g :: gs) e2) as [p e3]. cbn [fst] in Hg.
    exists p, e3. split; [done|]. rewrite <- Hf in Hg.
    apply list_elem_of_filter in Hg as [_ Hg].
    by apply unassigned_in_window_spec in Hg. }
  destruct (couple_name _ _ _ e3) as [name e4].
  destruct (Random.choices1 0 _ _ e4) as [additional e5].
  set (hid := household_id st).
  set (rows2 := households st ++ _).
  set (assigned2 := {[p]} ∪ ({[i]} ∪ assigned_constituents st)).
  assert (covers individuals nobody (order ++ [i] ++ [p]) rows2 assigned2) as Hc2.
  { subst rows2 assigned2. rewrite app_assoc.
    change [?a; ?b] with ([a] ++ [b]). rewrite (app_assoc (households st)).
    apply covers_add; [apply covers_add; done| |lia].
    apply not_elem_of_add; [done|lia]. }
  assert (households_numbered rows2 (hid + 1)) as Hn2.
  { subst rows2. change [?a; ?b] with ([a] ++ [b]). rewrite app_assoc.
    apply numbered_new_member; [by apply numbered_new_household|].
    cbn. lia. }
  edestruct (additional_members_loop_spec
               (length individuals - S (Nat.max i p)) hid name
               (individual individuals nobody i) (Z.to_nat additional)
               (S (Nat.max i p)) rows2 assigned2 _ (hid + 1) Hc2 Hn2)
    as (Ho & Hn' & Hsub); [lia|lia|].
  cbv zeta in Ho, Hn', Hsub.
  destruct (additional_members_loop individuals nobody _ hid name _ _ _
              rows2 assigned2) as [rows3 assigned3].
  cbn [fst snd households assigned_constituents household_id] in *.
  split; [|subst assigned2; by apply subseteq_add_two in Hsub].
  split; [exact Ho|]. split; [exact Hn'|lia].
Qed.

Lemma pairing_step_spec i st e :
  pairing_inv individuals nobody st -> (i < length individuals)%nat ->
  let st' := fst (pairing_step individuals nobody i st e) in
  pairing_inv individuals nobody st'
  /\ assigned_constituents st ⊆ assigned_constituents st'
  /\ i ∈ assigned_constituents st'.
Proof.
  intros Hinv Hin. cbv zeta. unfold pairing_step.
  destruct (bool_decide (i ∈ assigned_constituents st)) eqn:Hdec.
  { apply bool_decide_eq_true in Hdec. cbn. split; [done|]. set_solver. }
  apply bool_decide_eq_false in Hdec. gen_unfold.
  destruct (Random.random e) as [u e1].
  destruct (Qlt_bool u 0.75); [|by apply single_household_spec].
  destruct (unassigned_in_window individuals (assigned_constituents st) i 10)
    as [|p ps] eqn:Hw; [by apply single_household_spec|].
  apply couple_household_spec; try done.
  intros j Hj. rewrite <- Hw in Hj.
  by apply unassigned_in_window_spec in Hj.
Qed.

Lemma pairing_loop_spec todo : forall i st e,
  pairing_inv individuals nobody st -> (i + todo <= length individuals)%nat ->
  (forall j, (j < i)%nat -> j ∈ assigned_constituents st) ->
  let st' := fst (pairing_loop individuals nobody todo i st e) in
  pairing_inv individuals nobody st'
  /\ forall j, (j < i + todo)%nat -> j ∈ assigned_constituents st'.
Proof.
  induction todo as [|todo IH]; intros i st e Hinv Hle Hbelow.
  - cbn. split; [done|]. intros j Hj. apply Hbelow. lia.
  - cbv zeta. cbn [pairing_loop]. gen_unfold.
    pose proof (pairing_step_spec i st e Hinv ltac:(lia)) as Hstep.
    destruct (pairing_step individuals nobody i st e) as [st1 e1].
    cbn [fst] in Hstep. destruct Hstep as (Hinv1 & Hsub & Hi).
    destruct (IH (S i) st1 e1 Hinv1 ltac:(lia)) as [Hinv' Hall].
    { intros j Hj. destruct (decide (j = i)) as [->|Hne]; [done|].
      apply Hsub, Hbelow. lia. }
    cbv zeta in Hinv', Hall. split; [exact Hinv'|].
    intros j Hj. apply Hall. lia.
Qed.

(** Once every position is assigned the closing sweep adds nothing. *)
Lemma sweep_loop_idle todo : forall i st e,
  (forall j, (i <= j < i + todo)%nat -> j ∈ assigned_constituents st) ->
  sweep_loop individuals nobody todo i st e = (st, e).
Proof.
  induction todo as [|todo IH]; intros i st e Hall; [reflexivity|].
  cbn [sweep_loop]. gen_unfold. unfold sweep_step.
  rewrite bool_decide_eq_true_2 by (apply Hall; lia).
  gen_unfold. apply IH. intros j Hj. apply Hall. lia.
Qed.

End HouseholdProofs.

Lemma map_nth_seq {A B} (f : A -> B) (d : A) (l : list A) :
  map (fun j => f (nth j l d)) (seq 0 (length l)) = map f l.
Proof.
  induction l as [|x l IH]; [reflexivity|].
  cbn [length seq map nth]. f_equal.
  rewrite <- seq_shift, map_map. exact IH.
Qed.

(** The rows of the pairing cover every position exactly once, and every
    numbered household has its primary row. *)
Lemma pair_households_spec individuals nobody e :
  let st := fst (pair_households individuals nobody e) in
  map h_constituent_id (households st) ≡ₚ map constituent_id individuals
  /\ households_numbered (households st) (household_id st).
Proof.
  cbv zeta. unfold pair_households. gen_unfold.
  destruct (pairing_loop_spec individuals nobody (length individuals) 0
              (mkPairing [] ∅ 1) e) as [Hinv Hall].
  { split; [|split; [|done]].
    - exists []. split; [apply NoDup_nil_2|]. split; [|split; [|done]].
      + intros j. cbn. rewrite elem_of_nil. set_solver.
      + intros j Hj. inversion Hj.
    - split; [intros r H; inversion H|]. intros h Hh. cbn in Hh. lia. }
  { lia. }
  { intros j Hj. lia. }
  cbv zeta in Hinv, Hall.
  destruct (pairing_loop individuals nobody (length individuals) 0
              (mkPairing [] ∅ 1) e) as [st e1]. cbn [fst] in Hinv, Hall.
  rewrite sweep_loop_idle by (intros j Hj; apply Hall; lia). cbn [fst].
  destruct Hinv as ([order (Hnd & Hiff & Hlt & Hids)] & Hnum & _).
  split; [|exact Hnum].
  rewrite Hids, <- (map_nth_seq constituent_id nobody individuals).
  apply Permutation_map, list.NoDup_Permutation;
    [exact Hnd|apply NoDup_seq|].
  intros j. rewrite elem_of_seq. split.
  - intros Hj. apply Hlt in Hj. lia.
  - intros Hj. apply Hiff, Hall. lia.
Qed.

(** C7: the rows of [generate_households] partition the individual
    constituents: their members are the individual constituents, each as
    often as it occurs among them (so there are as many rows as individual
    constituents, and with distinct ids nobody is in two households); every
    row carries one of the household numbers that were handed out, and every
    household number that was handed out has a row, its primary one (no
    household is empty). *)
Theorem households_partition (constituents : list Constituent) (e : Entropy) :
  let individuals := individual_constituents constituents in
  let st := fst (pair_households individuals no_constituent e) in
  let rows := fst (generate_households constituents e) in
  rows = households st
  /\ map h_constituent_id rows ≡ₚ map constituent_id individuals
  /\ length rows = length individuals
  /\ (forall r, r ∈ rows -> 1 <= h_household_id r < household_id st)
  /\ (forall h, 1 <= h < household_id st ->
        exists r, r ∈ rows /\ h_household_id r = h /\ h_is_primary r = true).
Proof.
  cbv zeta. unfold generate_households. gen_unfold.
  destruct (pair_households_spec (individual_constituents constituents)
              no_constituent e) as [Hperm [Hrows Hhh]].
  cbv zeta in Hperm, Hrows, Hhh.
  destruct (pair_households (individual_constituents constituents)
              no_constituent e) as [st e1]. cbn [fst] in *.
  split; [reflexivity|]. split; [exact Hperm|].
  split; [|split; [exact Hrows|exact Hhh]].
  apply Permutation_length in Hperm. by rewrite !length_map in Hperm.
Qed.

(** With distinct constituent ids no constituent is a member twice. *)
Corollary households_members_distinct constituents e :
  NoDup (map constituent_id constituents) ->
  NoDup (map h_constituent_id (fst (generate_households constituents e))).
Proof.
  intros Hnd. unfold generate_households. gen_unfold.
  destruct (pair_households_spec (individual_constituents constituents)
              no_constituent e) as [Hperm _]. cbv zeta in Hperm.
  destruct (pair_households (individual_constituents constituents)
              no_constituent e) as [st e1]. cbn [fst] in *.
  rewrite Hperm.
  unfold individual_constituents.
  clear -Hnd. induction constituents as [|c cs IH]; [constructor|].
  cbn [map] in Hnd. apply NoDup_cons in Hnd as [Hc Hnd].
  rewrite filter_cons. destruct (decide _); [|by apply IH].
  cbn [map]. apply NoDup_cons. split; [|by apply IH].
  intros Hin. apply Hc. apply list_elem_of_fmap in Hin as (c' & -> & Hin).
  apply list_elem_of_filter in Hin as [_ Hin].
  apply list_elem_of_fmap. by exists c'.
Qed.

Lemma households_members_distinct_witness :
  NoDup (map h_constituent_id
           (fst (generate_households six_individuals zero_entropy))).
Proof.
  apply households_members_distinct.
  apply (bool_decide_unpack _). vm_compute. exact I.
Defined.

Example six_individuals_households :
  map (fun r => (h_household_id r, h_constituent_id r, h_is_primary r))
    (fst (generate_households six_individuals
            (entropy_of_lists
               [0; 3; 0; 0; 0; word_of_fraction 7 10; word_of_fraction 9 10;
                0; 0; 1]%N [] [])))
  = [(1, 11, true); (1, 15, false); (1, 16, false); (2, 12, true);
     (3, 13, true); (3, 14, false)].
Proof. vm_compute. reflexivity. Qed.

(** * Further properties *)

(** ** The metrics aggregator *)

Lemma date_min_leb_l a b : Date.leb (Date.min a b) a = true.
Proof.
  unfold Date.min. destruct (Date.ltb b a) eqn:E; [|apply date_leb_refl].
  unfold Date.leb. by rewrite E.
Qed.

Lemma date_min_leb_r a b : Date.leb (Date.min a b) b = true.
Proof.
  unfold Date.min. destruct (Date.ltb b a) eqn:E; [apply date_leb_refl|].
  date_cmp. lia.
Qed.

Lemma min_date_below ds : forall d,
  Date.leb (min_date d ds) d = true
  /\ forall x, x ∈ ds -> Date.leb (min_date d ds) x = true.
Proof.
  unfold min_date. induction ds as [|y ds IH]; intros d; cbn [fold_left].
  - split; [apply date_leb_refl|]. intros x Hx. inversion Hx.
  - destruct (IH (Date.min d y)) as [H1 H2]. split.
    + eapply date_leb_trans; [exact H1|apply date_min_leb_l].
    + intros x Hx. apply elem_of_cons in Hx as [->|Hx]; [|by apply H2].
      eapply date_leb_trans; [exact H1|apply date_min_leb_r].
Qed.

Lemma max_date_above ds : forall d,
  Date.leb d (max_date d ds) = true
  /\ forall x, x ∈ ds -> Date.leb x (max_date d ds) = true.
Proof.
  unfold max_date. induction ds as [|y ds IH]; intros d; cbn [fold_left].
  - split; [apply date_leb_refl|]. intros x Hx. inversion Hx.
  - destruct (IH (Date.max d y)) as [H1 H2]. split.
    + eapply date_leb_trans; [apply date_leb_max_l|exact H1].
    + intros x Hx. apply elem_of_cons in Hx as [->|Hx]; [|by apply H2].
      eapply date_leb_trans; [apply date_leb_max_r|exact H1].
Qed.

Lemma max_date_elem ds : forall d, max_date d ds ∈ d :: ds.
Proof.
  unfold max_date. induction ds as [|y ds IH]; intros d; cbn [fold_left].
  - left.
  - specialize (IH (Date.max d y)). unfold Date.max in *.
    destruct (Date.ltb d y).
    + by right.
    + apply elem_of_cons in IH as [->|IH]; [left|by do 2 right].
Qed.

(** The rows of a run whose pledge tables are at hand. *)
Lemma generate_donor_metrics_rows today cs txs pledges hh :
  generate_donor_metrics today cs txs (Some pledges) hh
  = Some (omap (fun c =>
                  match transactions_of txs (constituent_id c) with
                  | [] => None
                  | t :: ts =>
                      Some (donor_metrics_row today pledges hh
                              (constituent_id c) t ts)
                  end) cs).
Proof. by destruct cs. Qed.

Lemma metrics_row_origin today (cs : list Constituent) txs pledges hh
    (m : DonorMetrics) :
  m ∈ omap (fun c =>
              match transactions_of txs (constituent_id c) with
              | [] => None
              | t :: ts =>
                  Some (donor_metrics_row today pledges hh
                          (constituent_id c) t ts)
              end) cs ->
  exists c t ts,
    c ∈ cs /\ transactions_of txs (constituent_id c) = t :: ts
    /\ m = donor_metrics_row today pledges hh (constituent_id c) t ts.
Proof.
  intros H. apply list_elem_of_omap in H as (c & Hc & Hm).
  destruct (transactions_of txs (constituent_id c)) as [|t ts] eqn:E;
    [discriminate|].
  injection Hm as <-. by exists c, t, ts.
Qed.

(** X28: In the metrics table the first gift date is no later, and the last gift
    date no earlier, than any transaction of the donor. *)
Theorem metrics_dates_bound_gifts today cs txs pledges hh :
  exists rows,
    generate_donor_metrics today cs txs (Some pledges) hh = Some rows
    /\ forall m t, m ∈ rows -> t ∈ txs ->
         t_constituent_id t = m_constituent_id m ->
         Date.leb (m_first_gift_date m) (t_date t) = true
         /\ Date.leb (t_date t) (m_last_gift_date m) = true.
Proof.
  eexists. split; [apply generate_donor_metrics_rows|].
  intros m t Hm Ht Hid.
  apply metrics_row_origin in Hm as (c & t0 & ts & Hc & Hts & ->).
  cbn [m_first_gift_date m_last_gift_date m_constituent_id donor_metrics_row]
    in *.
  assert (t ∈ t0 :: ts) as Hin.
  { rewrite <- Hts. unfold transactions_of.
    apply list_elem_of_filter. by split. }
  destruct (min_date_below (map t_date ts) (t_date t0)) as [Hm1 Hm2].
  destruct (max_date_above (map t_date ts) (t_date t0)) as [HM1 HM2].
  apply elem_of_cons in Hin as [->|Hin]; [by split|].
  split; [apply Hm2|apply HM2]; by apply list_elem_of_fmap_2.
Qed.

Lemma py_sum_from (xs : list Q) : forall a,
  (fold_left Qplus xs a == a + Qsum xs)%Q.
Proof.
  induction xs as [|x xs IH]; intros a; cbn [fold_left Qsum foldr].
  - lra.
  - rewrite IH. fold (Qsum xs). lra.
Qed.

Lemma py_sum_Qsum (xs : list Q) : (py_sum xs == Qsum xs)%Q.
Proof. unfold py_sum. rewrite py_sum_from. lra. Qed.

Lemma omap_gift_rows_ids today pledges hh txs (cs : list Constituent) :
  map m_constituent_id
    (omap (fun c =>
             match transactions_of txs (constituent_id c) with
             | [] => None
             | t :: ts =>
                 Some (donor_metrics_row today pledges hh
                         (constituent_id c) t ts)
             end) cs)
  = filter (fun id => (0 < length (transactions_of txs id))%nat)
      (map constituent_id cs).
Proof.
  induction cs as [|c cs IH]; [reflexivity|].
  cbn [omap list_omap map]. rewrite filter_cons.
  destruct (transactions_of txs (constituent_id c)) as [|t ts] eqn:E.
  - rewrite decide_False by (cbn; lia). exact IH.
  - rewrite decide_True by (cbn; lia). cbn [map]. f_equal. exact IH.
Qed.

(** X27: The metrics table has one row for each constituent that has a
    transaction, in the order of the constituent table, and none for the
    others; the row counts the donor's transactions and totals their
    amounts. *)
Theorem metrics_rows_are_the_donors today cs txs pledges hh :
  exists rows,
    generate_donor_metrics today cs txs (Some pledges) hh = Some rows
    /\ map m_constituent_id rows
       = filter (fun id => (0 < length (transactions_of txs id))%nat)
           (map constituent_id cs)
    /\ forall m, m ∈ rows ->
         m_lifetime_gifts m
         = Z.of_nat (length (transactions_of txs (m_constituent_id m)))
         /\ (m_lifetime_giving m
             == Qsum (map t_amount
                        (transactions_of txs (m_constituent_id m))))%Q.
Proof.
  eexists. split; [apply generate_donor_metrics_rows|].
  split; [apply omap_gift_rows_ids|].
  intros m Hm.
  apply metrics_row_origin in Hm as (c & t0 & ts & Hc & Hts & ->).
  cbn [m_lifetime_gifts m_lifetime_giving m_constituent_id donor_metrics_row].
  rewrite Hts. split; [reflexivity|apply py_sum_Qsum].
Qed.

Lemma retention_new_recent cy years last :
  last ∈ years ->
  retention_status cy years last = "New/Recent" -> cy < last.
Proof.
  intros Hin Hst. unfold retention_status in Hst. cbv zeta in Hst.
  destruct (existsb (Z.eqb cy) years) eqn:Hc;
    destruct (existsb (fun y => negb (y =? cy) && (y =? cy - 1)) years)
      eqn:Hp;
    cbn [andb negb] in Hst; try discriminate Hst.
  destruct (Z.leb_spec (cy - last) 1) as [Hle|Hgt].
  2:{ destruct (cy - last <=? 3); discriminate Hst. }
  apply list_elem_of_In in Hin.
  assert ((cy =? last) = false) as H1.
  { destruct (cy =? last) eqn:E; [|done].
    rewrite <- Hc. symmetry. apply existsb_exists. by exists last. }
  assert ((negb (last =? cy) && (last =? cy - 1)) = false) as H2.
  { destruct (negb (last =? cy) && (last =? cy - 1)) eqn:E; [|done].
    rewrite <- Hp. symmetry. apply existsb_exists. by exists last. }
  apply Z.eqb_neq in H1.
  destruct (Z.eqb_spec last cy) as [|Hne]; [lia|].
  cbn [negb andb] in H2. apply Z.eqb_neq in H2. lia.
Qed.

(** X30: A donor is classified New/Recent only when its last gift is dated in a
    year after the year of the run: with gifts in neither the current nor
    the previous year, a last gift of the past is at least two years old. *)
Theorem new_recent_needs_future_gift today cs txs pledges hh :
  exists rows,
    generate_donor_metrics today cs txs (Some pledges) hh = Some rows
    /\ forall m, m ∈ rows ->
         m_retention_status m = "New/Recent" ->
         year today < year (m_last_gift_date m).
Proof.
  eexists. split; [apply generate_donor_metrics_rows|].
  intros m Hm.
  apply metrics_row_origin in Hm as (c & t0 & ts & Hc & Hts & ->).
  cbn [m_retention_status m_last_gift_date donor_metrics_row].
  apply retention_new_recent.
  pose proof (max_date_elem (map t_date ts) (t_date t0)) as Hmax.
  change (t_date t0 :: map t_date ts) with (map t_date (t0 :: ts)) in Hmax.
  apply list_elem_of_fmap in Hmax as (t & -> & Ht).
  apply list_elem_of_fmap. by exists t.
Qed.

Lemma max_amount_above (xs : list Q) : forall x,
  (x <= max_amount x xs)%Q
  /\ (forall y, y ∈ xs -> (y <= max_amount x xs)%Q)
  /\ max_amount x xs ∈ x :: xs.
Proof.
  unfold max_amount. induction xs as [|z xs IH]; intros x; cbn [fold_left].
  - split; [lra|]. split; [intros y Hy; inversion Hy|left].
  - destruct (IH (if Qlt_bool x z then z else x)) as (H1 & H2 & H3).
    unfold Qlt_bool in *.
    destruct (Qle_bool z x) eqn:E; cbn [negb] in *.
    + apply Qle_bool_iff in E. split; [exact H1|]. split.
      * intros y Hy. apply elem_of_cons in Hy as [->|Hy]; [lra|by apply H2].
      * apply elem_of_cons in H3 as [->|H3]; [left|by do 2 right].
    + assert (x < z)%Q as Hlt.
      { apply Qnot_le_lt. intros Hle. apply Qle_bool_iff in Hle. congruence. }
      split; [lra|]. split.
      * intros y Hy. apply elem_of_cons in Hy as [->|Hy]; [exact H1|by apply H2].
      * by right.
Qed.

(** X29: The largest gift of a metrics row is the amount of one of the donor's
    transactions and no transaction of the donor exceeds it. *)
Theorem metrics_largest_gift today cs txs pledges hh :
  exists rows,
    generate_donor_metrics today cs txs (Some pledges) hh = Some rows
    /\ forall m, m ∈ rows ->
         (exists t, t ∈ txs /\ t_constituent_id t = m_constituent_id m
                    /\ t_amount t = m_largest_gift m)
         /\ forall t, t ∈ txs -> t_constituent_id t = m_constituent_id m ->
              (t_amount t <= m_largest_gift m)%Q.
Proof.
  eexists. split; [apply generate_donor_metrics_rows|].
  intros m Hm.
  apply metrics_row_origin in Hm as (c & t0 & ts & Hc & Hts & ->).
  cbn [m_largest_gift m_constituent_id donor_metrics_row].
  destruct (max_amount_above (map t_amount ts) (t_amount t0))
    as (H1 & H2 & H3).
  assert (forall t, t ∈ t0 :: ts ->
            t ∈ txs /\ t_constituent_id t = constituent_id c) as Hown.
  { intros t Ht. rewrite <- Hts in Ht. unfold transactions_of in Ht.
    apply list_elem_of_filter in Ht as [? ?]. by split. }
  split.
  - change (t_amount t0 :: map t_amount ts)
      with (map t_amount (t0 :: ts)) in H3.
    apply list_elem_of_fmap in H3 as (t & Ht & Hin).
    exists t. destruct (Hown t Hin). by repeat split.
  - intros t Ht Hid.
    assert (t ∈ t0 :: ts) as Hin.
    { rewrite <- Hts. apply list_elem_of_filter. by split. }
    apply elem_of_cons in Hin as [->|Hin]; [exact H1|].
    apply H2. by apply list_elem_of_fmap_2.
Qed.

(** ** Weighted draws *)

Lemma unit_of_word_range w : (0 <= unit_of_word w < 1)%Q.
Proof.
  unfold unit_of_word.
  pose proof (N.mod_upper_bound w (2 ^ 53) ltac:(done)) as Hlt.
  generalize dependent (w mod 2 ^ 53)%N. intros n Hlt.
  assert (Z.of_N n < Z.pos (2 ^ 53)) as Hz.
  { change (Z.pos (2 ^ 53)) with (Z.of_N (2 ^ 53)). apply N2Z.inj_lt, Hlt. }
  pose proof (N2Z.is_nonneg n) as Hnn.
  generalize dependent (Z.of_N n). clear. intros z Hz Hnn.
  split.
  - unfold Qle. cbn [Qnum Qden]. lia.
  - unfold Qlt. cbn [Qnum Qden]. lia.
Qed.

Lemma bisect_le a x : forall hi, (Random.bisect a x hi <= hi)%nat.
Proof.
  induction a as [|c a IH]; intros [|hi]; cbn [Random.bisect]; try lia.
  destruct (Qle_bool c x); [|lia]. specialize (IH hi). lia.
Qed.

Lemma accumulate_from_length ws : forall acc,
  length (Random.accumulate_from acc ws) = length ws.
Proof.
  induction ws as [|w ws IH]; intros acc; cbn; [done|]. by rewrite IH.
Qed.

Lemma choices_index_lt weights u :
  weights <> [] ->
  (Random.choices_index weights u < length weights)%nat.
Proof.
  intros Hne. unfold Random.choices_index.
  pose proof (bisect_le (Random.accumulate weights)
                (u * List.last (Random.accumulate weights) 0)%Q
                (length weights - 1)) as H.
  destruct weights; [done|]. cbn [length] in *. lia.
Qed.

(** A weighted draw returns a member of the population. *)
Lemma choices1_elem {A} (d : A) population weights e :
  length population = length weights -> population <> [] ->
  fst (Random.choices1 d population weights e) ∈ population.
Proof.
  intros Hlen Hne. unfold Random.choices1, mbind, gen_bind, mret, gen_ret.
  destruct (Random.random e) as [u e1]. cbn [fst].
  apply nth_elem_of. rewrite Hlen. apply choices_index_lt.
  intros ->. by destruct population.
Qed.

(** ** [select_fund_for_transaction] and [generate_payment_method] *)

(** The fund of a transaction is 1 when the campaign has no mapping row, and
    otherwise the fund of one of the campaign's mapping rows. *)
Lemma select_fund_in_mapping cfs campaign_id e :
  let fund := fst (select_fund_for_transaction cfs campaign_id e) in
  (rows_of_campaign campaign_id cfs = [] /\ fund = 1)
  \/ exists cf, cf ∈ cfs /\ cf_campaign_id cf = campaign_id
                /\ cf_fund_id cf = fund.
Proof.
  cbv zeta. unfold select_fund_for_transaction.
  destruct (rows_of_campaign campaign_id cfs) as [|r rows] eqn:E.
  { left. by split. }
  right.
  pose proof (choices1_elem 0 (map cf_fund_id (r :: rows))
                (map cf_weight (r :: rows)) e) as H.
  rewrite !length_map in H. specialize (H eq_refl ltac:(done)).
  apply list_elem_of_fmap in H as (cf & Hf & Hcf).
  exists cf. rewrite <- E in Hcf. unfold rows_of_campaign in Hcf.
  apply list_elem_of_filter in Hcf as [Hid Hin]. by repeat split.
Qed.

(** The payment method is one of the five methods; Cash goes only to
    constituents that are not organizations, for amounts below 1000; an
    organization never pays 5000 or more by credit card. *)
Lemma payment_method_spec constituent_type amount e :
  let method := fst (generate_payment_method constituent_type amount e) in
  method ∈ payment_methods
  /\ (method = "Cash" ->
      constituent_type <> "Organization" /\ (amount < 1000)%Q)
  /\ (constituent_type = "Organization" -> (5000 <= amount)%Q ->
      method <> "Credit Card" /\ method <> "Cash").
Proof.
  cbv zeta. unfold generate_payment_method.
  destruct (String.eqb_spec constituent_type "Organization") as [Hty|Hty].
  - destruct (Qle_bool 5000 amount) eqn:Hamt.
    + match goal with |- context [Random.choices1 ?d ?p ?w e] =>
        pose proof (choices1_elem d p w e eq_refl ltac:(done)) as H;
        destruct (Random.choices1 d p w e) as [m e1] end.
      cbn [fst map] in *.
      repeat (apply elem_of_cons in H as [->|H]);
        try (by inversion H); (split; [unfold payment_methods; repeat constructor|]);
        (split; [intros [=]|intros _ _; split; intros [=]]).
    + match goal with |- context [Random.choices1 ?d ?p ?w e] =>
        pose proof (choices1_elem d p w e eq_refl ltac:(done)) as H;
        destruct (Random.choices1 d p w e) as [m e1] end.
      cbn [fst map] in *.
      assert (~ (5000 <= amount)%Q) as Hlt.
      { intros Hle. apply Qle_bool_iff in Hle. congruence. }
      repeat (apply elem_of_cons in H as [->|H]);
        try (by inversion H); (split; [unfold payment_methods; repeat constructor|]);
        (split; [intros [=]|intros _ Hle; by destruct Hlt]).
  - destruct (Qle_bool 1000 amount) eqn:Hamt.
    + match goal with |- context [Random.choices1 ?d ?p ?w e] =>
        pose proof (choices1_elem d p w e eq_refl ltac:(done)) as H;
        destruct (Random.choices1 d p w e) as [m e1] end.
      cbn [fst map] in *.
      repeat (apply elem_of_cons in H as [->|H]);
        try (by inversion H); (split; [unfold payment_methods; repeat constructor|]);
        (split; [intros [=]|intros Ht; by destruct Hty]).
    + match goal with |- context [Random.choices1 ?d ?p ?w e] =>
        pose proof (choices1_elem d p w e eq_refl ltac:(done)) as H;
        destruct (Random.choices1 d p w e) as [m e1] end.
      cbn [fst map] in *.
      assert (amount < 1000)%Q as Hlt.
      { apply Qnot_le_lt. intros Hle. apply Qle_bool_iff in Hle. congruence. }
      repeat (apply elem_of_cons in H as [->|H]);
        try (by inversion H); (split; [unfold payment_methods; repeat constructor|]);
        (split; [intros Hm; first [discriminate Hm|by split]
                |intros Ht; by destruct Hty]).
Qed.

(** ** The engine's transactions *)

Lemma Qsum_snoc l a : (Qsum (l ++ [a]) == Qsum l + a)%Q.
Proof.
  unfold Qsum. induction l as [|x l IH]; cbn [foldr app]; [lra|].
  rewrite IH. lra.
Qed.

Lemma make_gift_lifetime_total cfg segs cfs appeal donor gift_num st e :
  constituent_id donor ∈ map constituent_id (e_constituents st) ->
  lifetime_giving_is_total st ->
  lifetime_giving_is_total
    (fst (make_gift cfg segs cfs appeal donor gift_num st e)).
Proof.
  intros Hrec Hf.
  destruct (make_gift_effect cfg segs cfs appeal donor gift_num st e)
    as (t0 & Hid & Htx & Hcs).
  unfold lifetime_giving_is_total. rewrite Htx, Hcs. intros id c.
  rewrite find_after_update, transactions_of_app.
  unfold transactions_of at 2. rewrite filter_cons, filter_nil, Hid.
  destruct (Z.eqb_spec id (constituent_id donor)) as [->|Hne].
  - destruct (find_constituent_by_id (e_constituents st) (constituent_id donor))
      as [c1|] eqn:Hc1; [|discriminate].
    intros [= <-]. rewrite decide_True by done.
    rewrite map_app. cbn [map]. rewrite Qsum_snoc.
    cbn [record_gift lifetime_giving]. by rewrite (Hf _ _ Hc1).
  - intros Hc. rewrite decide_False by done. rewrite app_nil_r.
    by apply Hf.
Qed.

(** X20: When every constituent starts with a lifetime giving of zero, after the
    run the lifetime giving of each constituent on record is the total of the
    amounts of its transactions. *)
Theorem lifetime_giving_totals_transactions
    cfg segs cfs constituents appeals e :
  (forall c, c ∈ constituents -> (lifetime_giving c == 0)%Q) ->
  lifetime_giving_is_total
    (fst (generate_transactions cfg segs cfs constituents appeals e)).
Proof.
  intros Hzero. apply generate_transactions_invariant.
  - apply make_gift_lifetime_total.
  - intros id c Hc. cbn [e_constituents e_transactions] in *.
    apply List.find_some in Hc as [Hc _]. apply list_elem_of_In in Hc.
    by rewrite (Hzero c Hc).
Qed.

(** The run of two constituents and two Board Giving appeals. *)
Lemma lifetime_giving_totals_transactions_witness :
  lifetime_giving_is_total
    (fst (generate_transactions default_config ∅ capital_fund_rows
            (individuals_1_to 2) [board_appeal_2023; board_appeal_2022]
            single_gift_entropy)).
Proof.
  apply lifetime_giving_totals_transactions.
  intros c Hc. unfold individuals_1_to in Hc. cbn [seq map] in Hc.
  apply elem_of_cons in Hc as [->|Hc]; [reflexivity|].
  apply list_elem_of_singleton in Hc as ->. reflexivity.
Defined.

(** What one gift appends. *)
Lemma make_gift_transaction cfg segs cfs appeal donor gift_num st e t :
  e_transactions (fst (make_gift cfg segs cfs appeal donor gift_num st e))
  = e_transactions st ++ [t] ->
  t_transaction_id t = e_transaction_id st
  /\ t_constituent_id t = constituent_id donor
  /\ t_appeal_id t = a_appeal_id appeal
  /\ t_campaign_id t = a_campaign_id appeal
  /\ t_type t = "Gift" /\ t_status t = "Completed"
  /\ t_date t = fst (transaction_date appeal e)
  /\ (exists e1, t_fund_id t
        = fst (select_fund_for_transaction cfs (a_campaign_id appeal) e1))
  /\ (exists e2,
        let amount :=
          fst (generate_transaction_amount cfg (e_constituents st) segs
                 (constituent_id donor) (a_type appeal) e2) in
        t_amount t = if 0 <? gift_num then (amount * 0.7)%Q else amount)
  /\ (exists e3, t_payment_method t
        = fst (generate_payment_method (type donor) (t_amount t) e3)).
Proof.
  unfold make_gift. gen_unfold.
  destruct (transaction_date appeal e) as [d e1].
  pose (e1' := e1).
  destruct (select_fund_for_transaction cfs (a_campaign_id appeal) e1)
    as [fund e2] eqn:Hfund.
  destruct (generate_transaction_amount cfg (e_constituents st) segs
              (constituent_id donor) (a_type appeal) e2)
    as [amount e3] eqn:Hamount.
  destruct (generate_payment_method (type donor)
              (if 0 <? gift_num then (amount * 0.7)%Q else amount) e3)
    as [method e4] eqn:Hmethod.
  cbn [fst e_transactions]. intros Heq.
  apply app_inj_tail in Heq as [_ <-].
  cbn [t_transaction_id t_constituent_id t_appeal_id t_campaign_id t_type
       t_status t_date t_fund_id t_amount t_payment_method].
  repeat (split; [reflexivity|]).
  split; [exists e1; by rewrite Hfund|].
  split; [exists e2; cbv zeta; by rewrite Hamount|].
  exists e3. by rewrite Hmethod.
Qed.

Lemma make_gift_next_id cfg segs cfs appeal donor gift_num st e :
  e_transaction_id (fst (make_gift cfg segs cfs appeal donor gift_num st e))
  = e_transaction_id st + 1.
Proof.
  unfold make_gift. gen_unfold.
  repeat match goal with
  | |- context [let (_, _) := ?m in _] => destruct m
  end.
  reflexivity.
Qed.

Lemma seqZ_snoc m n : 0 <= n -> seqZ m (n + 1) = seqZ m n ++ [m + n].
Proof.
  intros Hn. rewrite seqZ_app by lia. f_equal.
Qed.

(** X17: Transaction ids are 1, 2, 3, ... in the order of the table. *)
Theorem transaction_ids_consecutive cfg segs cfs constituents appeals e :
  let txs :=
    e_transactions
      (fst (generate_transactions cfg segs cfs constituents appeals e)) in
  map t_transaction_id txs = seqZ 1 (Z.of_nat (length txs)).
Proof.
  cbv zeta.
  enough (transactions_numbered
            (fst (generate_transactions cfg segs cfs constituents appeals e)))
    as [H _] by exact H.
  apply generate_transactions_invariant; [|by split].
  intros appeal donor gift_num st e0 _ [Hids Hnext].
  destruct (make_gift_effect cfg segs cfs appeal donor gift_num st e0)
    as (t0 & _ & Htx & _).
  destruct (make_gift_transaction _ _ _ _ _ _ _ _ _ Htx) as (Hid & _).
  unfold transactions_numbered.
  rewrite make_gift_next_id, Htx, map_app, length_app, Hids.
  cbn [map length]. rewrite Nat2Z.inj_add. cbn [Z.of_nat Pos.of_succ_nat].
  rewrite seqZ_snoc by lia. rewrite Hid, Hnext. split; [reflexivity|lia].
Qed.

(** *** Appeals nobody can answer, constituents nobody knows *)

Lemma appeals_engine_loop_idle cfg segs cfs appeals : forall st e,
  (forall appeal, appeal ∈ appeals ->
     potential_donors (e_constituents st) appeal = []) ->
  appeals_engine_loop cfg segs cfs appeals st e = (st, e).
Proof.
  induction appeals as [|appeal rest IH]; intros st e Hnone; [reflexivity|].
  cbn [appeals_engine_loop]. gen_unfold.
  unfold appeal_transactions. rewrite (Hnone appeal) by left.
  gen_unfold. apply IH. intros a Ha. apply Hnone. by right.
Qed.

(** X19: When no constituent was created on or before the end of any appeal, the
    engine appends no transaction, changes no constituent and consumes no
    random number. *)
Theorem no_eligible_donor_no_transaction cfg segs cfs constituents appeals e :
  (forall appeal c, appeal ∈ appeals -> c ∈ constituents ->
     Date.ltb (a_end_date appeal) (creation_date c) = true) ->
  generate_transactions cfg segs cfs constituents appeals e
  = (mkEngine constituents [] 1, e).
Proof.
  intros Hlate. unfold generate_transactions.
  apply appeals_engine_loop_idle. cbn [e_constituents].
  intros appeal Happeal. unfold potential_donors.
  induction constituents as [|c cs IH]; [reflexivity|].
  rewrite filter_cons.
  pose proof (Hlate appeal c Happeal ltac:(left)) as Hc.
  rewrite decide_False.
  - apply IH. intros a c' Ha Hc'. apply Hlate; [done|by right].
  - intros Hle. revert Hc Hle. date_cmp. lia.
Qed.

(** A constituent created in 2025 and an appeal of March 2022. *)
Lemma no_eligible_donor_no_transaction_witness :
  generate_transactions default_config ∅ capital_fund_rows [late_individual]
    [direct_mail_appeal] single_gift_entropy
  = (mkEngine [late_individual] [] 1, single_gift_entropy).
Proof.
  apply no_eligible_donor_no_transaction.
  intros appeal c Ha Hc.
  apply list_elem_of_singleton in Ha as ->.
  apply list_elem_of_singleton in Hc as ->. reflexivity.
Defined.

(** [update_donor_metrics] changes nothing when no constituent has the id. *)
Lemma update_donor_metrics_unknown cs id amount d :
  id ∉ map constituent_id cs ->
  update_donor_metrics cs id amount d = cs.
Proof.
  induction cs as [|c cs IH]; intros Hid; [reflexivity|].
  cbn [update_donor_metrics].
  destruct (Z.eqb_spec (constituent_id c) id) as [Hc|Hc].
  - exfalso. apply Hid. cbn [map]. rewrite Hc. left.
  - rewrite IH; [done|]. intros H. apply Hid. cbn [map]. by right.
Qed.

(** *** Where a transaction comes from *)

Lemma update_donor_metrics_identity cs id amount d :
  map identity (update_donor_metrics cs id amount d) = map identity cs.
Proof.
  induction cs as [|c cs IH]; [reflexivity|].
  cbn [update_donor_metrics]. destruct (constituent_id c =? id).
  - reflexivity.
  - cbn [map]. by rewrite IH.
Qed.

Section EngineTrace.

Variable cfg : Config.
Variable segs : gmap Z Segment.
Variable cfs : list CampaignFund.
Variable cs0 : list Constituent.
Variable appeals0 : list Appeal.

Lemma make_gift_trace appeal donor gift_num st e :
  appeal ∈ appeals0 ->
  identity donor ∈ map identity cs0 ->
  Date.leb (creation_date donor) (a_end_date appeal) = true ->
  gifts_to cfg segs cfs cs0 appeals0 st ->
  gifts_to cfg segs cfs cs0 appeals0
    (fst (make_gift cfg segs cfs appeal donor gift_num st e)).
Proof.
  intros Happeal Hdonor Hle [Hcs Htxs].
  destruct (make_gift_effect cfg segs cfs appeal donor gift_num st e)
    as (t0 & _ & Htx & Hupd).
  split.
  - by rewrite Hupd, update_donor_metrics_identity.
  - intros t Ht. rewrite Htx in Ht. apply elem_of_app in Ht as [Ht|Ht].
    + by apply Htxs.
    + apply list_elem_of_singleton in Ht as ->.
      exists appeal. split; [done|]. by exists donor, gift_num, st, e.
Qed.

Lemma gifts_loop_trace appeal donor todo : forall gift_num st e,
  appeal ∈ appeals0 ->
  identity donor ∈ map identity cs0 ->
  Date.leb (creation_date donor) (a_end_date appeal) = true ->
  gifts_to cfg segs cfs cs0 appeals0 st ->
  gifts_to cfg segs cfs cs0 appeals0
    (fst (gifts_loop cfg segs cfs appeal donor todo gift_num st e)).
Proof.
  induction todo as [|todo IH]; intros gift_num st e Ha Hd Hle Hst; [done|].
  cbn [gifts_loop]. gen_unfold.
  pose proof (make_gift_trace appeal donor gift_num st e Ha Hd Hle Hst) as H1.
  destruct (make_gift cfg segs cfs appeal donor gift_num st e) as [st1 e1].
  by apply IH.
Qed.

Lemma donors_loop_trace appeal appeal_donors : forall st e,
  appeal ∈ appeals0 ->
  (forall donor, donor ∈ appeal_donors ->
     identity donor ∈ map identity cs0
     /\ Date.leb (creation_date donor) (a_end_date appeal) = true) ->
  gifts_to cfg segs cfs cs0 appeals0 st ->
  gifts_to cfg segs cfs cs0 appeals0
    (fst (donors_loop cfg segs cfs appeal appeal_donors st e)).
Proof.
  induction appeal_donors as [|donor rest IH]; intros st e Ha Hds Hst; [done|].
  cbn [donors_loop]. gen_unfold.
  destruct (Hds donor ltac:(left)) as [Hd Hle].
  assert (gifts_to cfg segs cfs cs0 appeals0
            (fst (donor_gifts cfg segs cfs appeal donor st e))) as H1.
  { unfold donor_gifts. gen_unfold.
    destruct (Random.random e) as [u e1].
    match goal with |- context [let (_, _) := ?m e1 in _] =>
      destruct (m e1) as [num_gifts e2] end.
    by apply gifts_loop_trace. }
  destruct (donor_gifts cfg segs cfs appeal donor st e) as [st1 e1].
  apply IH; [done| |done]. intros d Hd'. apply Hds. by right.
Qed.

Lemma appeal_transactions_trace appeal st e :
  appeal ∈ appeals0 ->
  gifts_to cfg segs cfs cs0 appeals0 st ->
  gifts_to cfg segs cfs cs0 appeals0
    (fst (appeal_transactions cfg segs cfs appeal st e)).
Proof.
  intros Ha Hst. unfold appeal_transactions.
  destruct (potential_donors (e_constituents st) appeal) as [|d0 ds] eqn:Hd;
    [done|].
  gen_unfold.
  destruct (select_donors cfg segs cfs appeal (d0 :: ds) e) as [idx e1].
  apply donors_loop_trace; [done| |done]. intros donor Hdonor.
  apply list_elem_of_fmap in Hdonor as (i & -> & _).
  assert (nth i (d0 :: ds) d0 ∈ d0 :: ds) as Hin.
  { destruct (nth_in_or_default i (d0 :: ds) d0) as [H|H].
    - by apply list_elem_of_In.
    - rewrite H. left. }
  generalize dependent (nth i (d0 :: ds) d0). intros donor Hin.
  rewrite <- Hd in Hin. unfold potential_donors in Hin.
  apply list_elem_of_filter in Hin as [Hle Hin]. split; [|exact Hle].
  destruct Hst as [<- _]. apply list_elem_of_fmap. by eexists.
Qed.

Lemma appeals_engine_loop_trace appeals : forall st e,
  (forall appeal, appeal ∈ appeals -> appeal ∈ appeals0) ->
  gifts_to cfg segs cfs cs0 appeals0 st ->
  gifts_to cfg segs cfs cs0 appeals0
    (fst (appeals_engine_loop cfg segs cfs appeals st e)).
Proof.
  induction appeals as [|appeal rest IH]; intros st e Hsub Hst; [done|].
  cbn [appeals_engine_loop]. gen_unfold.
  pose proof (appeal_transactions_trace appeal st e
                (Hsub appeal ltac:(left)) Hst) as H1.
  destruct (appeal_transactions cfg segs cfs appeal st e) as [st1 e1].
  apply IH; [|done]. intros a Ha. apply Hsub. by right.
Qed.

End EngineTrace.

(** Every transaction of the run was appended by the gift body, for one of
    the appeals and for a constituent eligible for it. *)
Lemma transactions_are_gifts cfg segs cfs constituents appeals e t :
  t ∈ e_transactions
        (fst (generate_transactions cfg segs cfs constituents appeals e)) ->
  exists appeal,
    appeal ∈ appeals /\ gift_of cfg segs cfs constituents appeal t.
Proof.
  unfold generate_transactions. intros Ht.
  destruct (appeals_engine_loop_trace cfg segs cfs constituents appeals
              appeals (mkEngine constituents [] 1) e) as [_ H].
  - auto.
  - split; [done|]. intros t0 Ht0. inversion Ht0.
  - by apply H.
Qed.

(** X16: Every transaction is a completed gift to one of the appeals, carries
    that appeal's campaign, and its donor is a constituent created on or
    before the appeal's end date. *)
Theorem transactions_reference_appeals cfg segs cfs constituents appeals e :
  Forall (fun t =>
            t_type t = "Gift" /\ t_status t = "Completed"
            /\ exists appeal c,
                 appeal ∈ appeals /\ c ∈ constituents
                 /\ t_appeal_id t = a_appeal_id appeal
                 /\ t_campaign_id t = a_campaign_id appeal
                 /\ t_constituent_id t = constituent_id c
                 /\ Date.leb (creation_date c) (a_end_date appeal) = true)
    (e_transactions
       (fst (generate_transactions cfg segs cfs constituents appeals e))).
Proof.
  apply Forall_forall. intros t Ht.
  destruct (transactions_are_gifts _ _ _ _ _ _ _ Ht)
    as (appeal & Happeal & donor & gift_num & st & e0 & Hd & Hle & _ & Htx).
  destruct (make_gift_transaction _ _ _ _ _ _ _ _ _ Htx)
    as (_ & Hc & Ha & Hcamp & Hty & Hst & _).
  split; [done|]. split; [done|].
  apply list_elem_of_fmap in Hd as (c & Hid & Hc0).
  injection Hid as Hid _ Hcr.
  exists appeal, c. rewrite <- Hcr, <- Hid. by repeat split.
Qed.

(** X15: Every transaction credits a fund its campaign is mapped to, and fund 1
    when the campaign has no mapping row. *)
Theorem transaction_funds_follow_mapping
    cfg segs cfs constituents appeals e :
  Forall (fun t =>
            (rows_of_campaign (t_campaign_id t) cfs = [] /\ t_fund_id t = 1)
            \/ exists cf, cf ∈ cfs /\ cf_campaign_id cf = t_campaign_id t
                          /\ cf_fund_id cf = t_fund_id t)
    (e_transactions
       (fst (generate_transactions cfg segs cfs constituents appeals e))).
Proof.
  apply Forall_forall. intros t Ht.
  destruct (transactions_are_gifts _ _ _ _ _ _ _ Ht)
    as (appeal & _ & donor & gift_num & st & e0 & _ & _ & _ & Htx).
  destruct (make_gift_transaction _ _ _ _ _ _ _ _ _ Htx)
    as (_ & _ & _ & -> & _ & _ & _ & [e1 ->] & _).
  apply select_fund_in_mapping.
Qed.

(** X14: Every transaction is paid by one of the five methods.  A cash gift is
    below 1000 and comes from a constituent that is not an organization; a
    gift of 5000 or more from an organization is paid by check, ACH or
    other. *)
Theorem payment_methods_of_transactions
    cfg segs cfs constituents appeals e :
  Forall (fun t =>
            t_payment_method t ∈ payment_methods
            /\ exists c,
                 c ∈ constituents /\ constituent_id c = t_constituent_id t
                 /\ (t_payment_method t = "Cash" ->
                     type c <> "Organization" /\ (t_amount t < 1000)%Q)
                 /\ (type c = "Organization" -> (5000 <= t_amount t)%Q ->
                     t_payment_method t ∈ ["Check"; "ACH"; "Other"]))
    (e_transactions
       (fst (generate_transactions cfg segs cfs constituents appeals e))).
Proof.
  apply Forall_forall. intros t Ht.
  destruct (transactions_are_gifts _ _ _ _ _ _ _ Ht)
    as (appeal & _ & donor & gift_num & st & e0 & Hd & _ & _ & Htx).
  destruct (make_gift_transaction _ _ _ _ _ _ _ _ _ Htx)
    as (_ & Hc & _ & _ & _ & _ & _ & _ & _ & [e3 Hm]).
  destruct (payment_method_spec (type donor) (t_amount t) e3)
    as (Hin & Hcash & Horg). cbv zeta in *. rewrite <- Hm in *.
  split; [done|].
  apply list_elem_of_fmap in Hd as (c & Hid & Hc0).
  injection Hid as Hid Hty _.
  exists c. rewrite <- Hty, <- Hid. repeat split; try done.
  - by apply Hcash.
  - by apply Hcash.
  - intros Ho Hbig. destruct (Horg Ho Hbig) as [Hcc Hca].
    unfold payment_methods in Hin.
    repeat (apply elem_of_cons in Hin as [Hin|Hin]); try done;
      try (rewrite Hin; repeat constructor). by inversion Hin.
Qed.

(** ** Gift amounts *)

Lemma round_half_even_proper x y :
  (x == y)%Q -> round_half_even x = round_half_even y.
Proof.
  intros H. unfold round_half_even. cbv zeta.
  rewrite (Qfloor_comp _ _ H).
  assert (x - inject_Z (Qfloor y) == y - inject_Z (Qfloor y))%Q as Hr
    by (rewrite H; reflexivity).
  by rewrite (Qcompare_comp _ _ Hr (1 # 2) (1 # 2) (Qeq_refl _)).
Qed.

(** Rounding is monotone. *)
Lemma round_half_even_mono x y :
  (x <= y)%Q -> round_half_even x <= round_half_even y.
Proof.
  intros Hle. destruct (Qeq_dec x y) as [Heq|Hne].
  { rewrite (round_half_even_proper _ _ Heq). lia. }
  assert (x < y)%Q as Hlt.
  { apply Qle_lt_or_eq in Hle as [H|H]; [done|by destruct Hne]. }
  pose proof (round_half_even_close x) as Hx.
  pose proof (round_half_even_close y) as Hy.
  apply Qabs_Qle_condition in Hx, Hy.
  assert (inject_Z (round_half_even x) < inject_Z (round_half_even y + 1))%Q
    as H.
  { rewrite inject_Z_plus. change (inject_Z 1) with 1%Q.
    destruct Hx, Hy. lra. }
  rewrite <- Zlt_Qlt in H. lia.
Qed.

Lemma round2_mono x y : (x <= y)%Q -> (round2 x <= round2 y)%Q.
Proof.
  intros Hle. unfold round2, Qle. cbn [Qnum Qden].
  assert (round_half_even (x * 100) <= round_half_even (y * 100)) as H.
  { apply round_half_even_mono. lra. }
  lia.
Qed.

Lemma uniform_range a b e :
  (a <= b)%Q ->
  (a <= fst (Random.uniform a b e) <= b)%Q.
Proof.
  intros Hab. unfold Random.uniform, Random.random, py_word. gen_unfold.
  destruct (next_word (py e)) as [w g]. cbn [fst].
  pose proof (unit_of_word_range w) as [H0 H1].
  set (u := unit_of_word w) in *. split; nra.
Qed.

(** The amount is the rounded product of a base amount of the donor's range
    with the two multipliers, times the volume multiplier. *)
Lemma transaction_amount_spec cfg constituents segs id appeal_type e :
  let constituent_type :=
    from_option type "Individual" (find_constituent_by_id constituents id) in
  let segment := segment_of segs id in
  let range := base_range constituent_type (level segment) in
  let m := dict_get amount_multipliers appeal_type 1.0%Q in
  let tr := dict_get trend_multipliers (giving_trend segment) 1.0%Q in
  (fst range <= snd range)%Q ->
  exists x,
    (fst range <= x <= snd range)%Q
    /\ fst (generate_transaction_amount cfg constituents segs id appeal_type e)
       = (round2 (x * m * tr) * transaction_volume_multiplier cfg)%Q.
Proof.
  cbv zeta. unfold generate_transaction_amount, find_constituent_by_id,
    segment_of, base_range.
  cbv zeta.
  destruct (dict_get _ (level _) _) as [lo hi]. cbn [fst snd]. intros Hr.
  gen_unfold.
  pose proof (uniform_range lo hi e Hr) as Hx.
  destruct (Random.uniform lo hi e) as [x e1]. cbn [fst] in *.
  exists x. split; [exact Hx|reflexivity].
Qed.

Lemma base_range_bounds constituent_type level :
  (5 <= fst (base_range constituent_type level)
   /\ fst (base_range constituent_type level)
      <= snd (base_range constituent_type level)
   /\ snd (base_range constituent_type level) <= 100000)%Q.
Proof.
  unfold base_range, level_ranges. cbn [dict_get].
  repeat match goal with
  | |- context [String.eqb ?a ?b] =>
      first [ is_var b; destruct (String.eqb a b)
            | let v := eval vm_compute in (String.eqb a b) in
              change (String.eqb a b) with v ];
      cbn [dict_get]
  end; cbn [fst snd]; repeat split; lra.
Qed.

Lemma amount_multiplier_bounds appeal_type :
  (0.7 <= dict_get amount_multipliers appeal_type 1.0 <= 3)%Q.
Proof.
  unfold amount_multipliers. cbn [dict_get].
  repeat match goal with
  | |- context [String.eqb ?a ?b] => destruct (String.eqb a b)
  end; split; lra.
Qed.

Lemma trend_multiplier_bounds trend :
  (0.8 <= dict_get trend_multipliers trend 1.0 <= 1.2)%Q.
Proof.
  unfold trend_multipliers. cbn [dict_get].
  repeat match goal with
  | |- context [String.eqb ?a ?b] => destruct (String.eqb a b)
  end; split; lra.
Qed.

Lemma Qmult_between a b c d x y :
  (0 <= a -> a <= x -> x <= b -> 0 <= c -> c <= y -> y <= d ->
   a * c <= x * y /\ x * y <= b * d)%Q.
Proof. intros. split; nra. Qed.

(** X12: The amount [generate_transaction_amount] returns for a constituent on
    record lies between the two ends of the donor's base range, each
    scaled by the channel and trend multipliers, rounded to cents and
    multiplied by the volume multiplier. *)
Theorem transaction_amount_range
    cfg constituents segs id appeal_type e c :
  find_constituent_by_id constituents id = Some c ->
  (0 <= transaction_volume_multiplier cfg)%Q ->
  let segment := segment_of segs id in
  let range := base_range (type c) (level segment) in
  let m := dict_get amount_multipliers appeal_type 1.0%Q in
  let tr := dict_get trend_multipliers (giving_trend segment) 1.0%Q in
  let amount :=
    fst (generate_transaction_amount cfg constituents segs id appeal_type e) in
  (round2 (fst range * m * tr) * transaction_volume_multiplier cfg <= amount
   /\ amount <= round2 (snd range * m * tr) * transaction_volume_multiplier cfg)%Q.
Proof.
  intros Hc Hvol. cbv zeta.
  pose proof (transaction_amount_spec cfg constituents segs id appeal_type e)
    as H. cbv zeta in H. rewrite Hc in H. cbn [from_option] in H.
  pose proof (base_range_bounds (type c) (level (segment_of segs id)))
    as (Hlo & Hmid & Hhi).
  destruct (H Hmid) as (x & [Hx1 Hx2] & ->). clear H.
  pose proof (amount_multiplier_bounds appeal_type) as [Hm1 Hm2].
  pose proof (trend_multiplier_bounds (giving_trend (segment_of segs id)))
    as [Ht1 Ht2].
  set (m := dict_get amount_multipliers appeal_type 1.0%Q) in *.
  set (tr := dict_get trend_multipliers _ _) in *.
  set (lo := fst _) in *. set (hi := snd _) in *.
  assert (lo * m * tr <= x * m * tr)%Q as H1.
  { apply Qmult_le_compat_r; [|lra]. apply Qmult_le_compat_r; lra. }
  assert (x * m * tr <= hi * m * tr)%Q as H2.
  { apply Qmult_le_compat_r; [|lra]. apply Qmult_le_compat_r; lra. }
  apply round2_mono in H1, H2.
  split; apply Qmult_le_compat_r; assumption.
Qed.

(** A Small individual answering a Direct Mail appeal gives between 4 and
    80. *)
Lemma transaction_amount_range_witness :
  let amount :=
    fst (generate_transaction_amount default_config (individuals_1_to 2) ∅ 1
           "Direct Mail" single_gift_entropy) in
  (round2 (5 * 0.8 * 1.0) * 1 <= amount
   /\ amount <= round2 (100 * 0.8 * 1.0) * 1)%Q.
Proof.
  pose proof (transaction_amount_range default_config (individuals_1_to 2) ∅ 1
                "Direct Mail" single_gift_entropy
                (an_individual 1 (mkdate 2021 1 1)) eq_refl) as H.
  assert (0 <= transaction_volume_multiplier default_config)%Q as Hvol.
  { vm_compute. discriminate. }
  specialize (H Hvol). vm_compute in H. vm_compute. exact H.
Defined.

Lemma round2_cents k : (round2 (inject_Z k / 100) == inject_Z k / 100)%Q.
Proof.
  unfold round2.
  assert (inject_Z k / 100 * 100 == inject_Z k)%Q as H by field.
  rewrite (round_half_even_proper _ _ H).
  assert (round_half_even (inject_Z k) = k) as ->.
  { unfold round_half_even. cbv zeta. rewrite Qfloor_Z.
    assert (inject_Z k - inject_Z k == 0)%Q as Hz by lra.
    rewrite (Qcompare_comp _ _ Hz (1 # 2) (1 # 2) (Qeq_refl _)).
    reflexivity. }
  unfold Qeq, Qdiv, Qmult, Qinv, inject_Z. simpl. lia.
Qed.

(** Every amount [generate_transaction_amount] returns lies between 2.80
    and 360000 times the volume multiplier. *)
Lemma transaction_amount_bounds cfg constituents segs id appeal_type e :
  (0 <= transaction_volume_multiplier cfg)%Q ->
  let amount :=
    fst (generate_transaction_amount cfg constituents segs id appeal_type e) in
  (2.8 * transaction_volume_multiplier cfg <= amount
   /\ amount <= 360000 * transaction_volume_multiplier cfg)%Q.
Proof.
  intros Hvol. cbv zeta.
  pose proof (transaction_amount_spec cfg constituents segs id appeal_type e)
    as H. cbv zeta in H.
  set (ty := from_option type "Individual" _) in *.
  pose proof (base_range_bounds ty (level (segment_of segs id)))
    as (Hlo & Hmid & Hhi).
  destruct (H Hmid) as (x & [Hx1 Hx2] & ->). clear H.
  pose proof (amount_multiplier_bounds appeal_type) as [Hm1 Hm2].
  pose proof (trend_multiplier_bounds (giving_trend (segment_of segs id)))
    as [Ht1 Ht2].
  set (m := dict_get amount_multipliers appeal_type 1.0%Q) in *.
  set (tr := dict_get trend_multipliers _ _) in *.
  set (lo := fst _) in *. set (hi := snd _) in *.
  destruct (Qmult_between 5 100000 0.7 3 x m) as [Ha Hb]; try lra.
  destruct (Qmult_between (5 * 0.7) (100000 * 3) 0.8 1.2 (x * m) tr)
    as [Ha' Hb']; try lra.
  assert (2.8 <= x * m * tr)%Q as H1 by lra.
  assert (x * m * tr <= 360000)%Q as H2 by lra.
  apply round2_mono in H1, H2.
  assert (round2 2.8 == 2.8)%Q as E1 by (vm_compute; reflexivity).
  assert (round2 360000 == 360000)%Q as E2 by (vm_compute; reflexivity).
  rewrite E1 in H1. rewrite E2 in H2.
  split; apply Qmult_le_compat_r; assumption.
Qed.

(** X13: With a non-negative volume multiplier, the amount of every
    transaction is an amount between 2.80 and 360000 times the volume
    multiplier (the two ends of [round(uniform * channel * trend, 2) *
    multiplier]), or, for a repeat gift to the same appeal, such an amount
    times 0.7. *)
Theorem transaction_amounts_bounded cfg segs cfs constituents appeals e :
  (0 <= transaction_volume_multiplier cfg)%Q ->
  Forall (fun t =>
            exists a,
              (2.8 * transaction_volume_multiplier cfg <= a
               /\ a <= 360000 * transaction_volume_multiplier cfg)%Q
              /\ (t_amount t = a \/ t_amount t = (a * 0.7)%Q))
    (e_transactions
       (fst (generate_transactions cfg segs cfs constituents appeals e))).
Proof.
  intros Hvol. apply Forall_forall. intros t Ht.
  destruct (transactions_are_gifts _ _ _ _ _ _ _ Ht)
    as (appeal & _ & donor & gift_num & st & e0 & _ & _ & _ & Htx).
  destruct (make_gift_transaction _ _ _ _ _ _ _ _ _ Htx)
    as (_ & _ & _ & _ & _ & _ & _ & _ & [e2 Ha] & _).
  cbv zeta in Ha. rewrite Ha.
  eexists. split.
  - exact (transaction_amount_bounds cfg (e_constituents st) segs
             (constituent_id donor) (a_type appeal) e2 Hvol).
  - destruct (0 <? gift_num); [right|left]; reflexivity.
Qed.

(** Two Board Giving appeals and two individuals under the default
    configuration. *)
Lemma transaction_amounts_bounded_witness :
  Forall (fun t =>
            exists a,
              (2.8 * transaction_volume_multiplier default_config <= a
               /\ a <= 360000 * transaction_volume_multiplier default_config)%Q
              /\ (t_amount t = a \/ t_amount t = (a * 0.7)%Q))
    (e_transactions
       (fst (generate_transactions default_config ∅ capital_fund_rows
               (individuals_1_to 2) [board_appeal_2023; board_appeal_2022]
               single_gift_entropy))).
Proof.
  apply transaction_amounts_bounded. vm_compute. discriminate.
Defined.

(** ** The calendar *)

Lemma ordinal_days_ok_spec depth : forall n,
  ordinal_days_ok depth n = true ->
  forall i, 0 <= i < 2 ^ Z.of_nat depth -> ordinal_day_ok (n + i) = true.
Proof.
  induction depth as [|d IH]; intros n H i Hi.
  - cbn in Hi. replace (n + i) with n by lia. exact H.
  - cbn [ordinal_days_ok] in H. apply andb_true_iff in H as [H1 H2].
    rewrite Nat2Z.inj_succ, Z.pow_succ_r in Hi by lia.
    destruct (Z.lt_ge_cases i (2 ^ Z.of_nat d)) as [Hlt|Hge].
    + apply IH; [done|lia].
    + replace (n + i) with (n + 2 ^ Z.of_nat d + (i - 2 ^ Z.of_nat d)) by lia.
      apply IH; [done|lia].
Qed.

Lemma calendar_days_ok : ordinal_days_ok 15 first_ordinal = true.
Proof. vm_compute. reflexivity. Qed.

Lemma ordinal_day_ok_range n :
  first_ordinal <= n <= last_ordinal -> ordinal_day_ok n = true.
Proof.
  intros Hn. replace n with (first_ordinal + (n - first_ordinal)) by lia.
  apply (ordinal_days_ok_spec 15); [apply calendar_days_ok|].
  unfold first_ordinal, last_ordinal in *. change (2 ^ Z.of_nat 15) with 32768.
  lia.
Qed.

(** [toordinal] inverts [fromordinal]. *)
Lemma toordinal_fromordinal n :
  first_ordinal <= n <= last_ordinal -> toordinal (fromordinal n) = n.
Proof.
  intros Hn. pose proof (ordinal_day_ok_range n Hn) as H.
  unfold ordinal_day_ok in H. cbv zeta in H.
  apply andb_true_iff in H as [H _].
  by apply Z.eqb_eq.
Qed.

Lemma date_ltb_trans a b c :
  Date.ltb a b = true -> Date.ltb b c = true -> Date.ltb a c = true.
Proof. intros H1 H2. date_cmp. lia. Qed.

Lemma date_ltb_leb a b : Date.ltb a b = true -> Date.leb a b = true.
Proof. intros H. unfold Date.leb. by rewrite H. Qed.

Lemma date_eqb_eq a b : Date.eqb a b = true -> a = b.
Proof.
  destruct a, b. intros H. date_cmp. f_equal; lia.
Qed.

(** Later ordinals are later dates. *)
Lemma fromordinal_lt n k :
  first_ordinal <= n -> 0 < k -> n + k <= last_ordinal + 1 ->
  Date.ltb (fromordinal n) (fromordinal (n + k)) = true.
Proof.
  intros Hn Hk Hhi.
  assert (forall j, 0 <= j -> n + j + 1 <= last_ordinal + 1 ->
            Date.ltb (fromordinal n) (fromordinal (n + j + 1)) = true) as H.
  { apply (natlike_ind (fun j => n + j + 1 <= last_ordinal + 1 ->
             Date.ltb (fromordinal n) (fromordinal (n + j + 1)) = true)).
    - intros Hj. pose proof (ordinal_day_ok_range n ltac:(lia)) as H.
      unfold ordinal_day_ok in H. cbv zeta in H.
      apply andb_true_iff in H as [_ H]. by rewrite Z.add_0_r.
    - intros j Hj IH Hj'.
      apply (date_ltb_trans _ (fromordinal (n + j + 1))); [apply IH; lia|].
      pose proof (ordinal_day_ok_range (n + j + 1) ltac:(lia)) as H.
      unfold ordinal_day_ok in H. cbv zeta in H.
      apply andb_true_iff in H as [_ H].
      by replace (n + Z.succ j + 1) with (n + j + 1 + 1) by lia. }
  replace (n + k) with (n + (k - 1) + 1) by lia. apply H; lia.
Qed.

Lemma fromordinal_le n m :
  first_ordinal <= n <= m -> m <= last_ordinal + 1 ->
  Date.leb (fromordinal n) (fromordinal m) = true.
Proof.
  intros Hn Hm. destruct (Z.eq_dec n m) as [->|Hne].
  - apply date_leb_refl.
  - apply date_ltb_leb. replace m with (n + (m - n)) by lia.
    apply fromordinal_lt; lia.
Qed.

Lemma calendar_date_spec d :
  calendar_date d = true ->
  first_ordinal <= toordinal d <= last_ordinal
  /\ fromordinal (toordinal d) = d.
Proof.
  unfold calendar_date. rewrite !andb_true_iff, !Z.leb_le.
  intros [[H1 H2] H3]. split; [lia|]. by apply date_eqb_eq.
Qed.

Lemma date_eqb_refl d : Date.eqb d d = true.
Proof. unfold Date.eqb. by rewrite !Z.eqb_refl. Qed.

Lemma calendar_date_fromordinal n :
  first_ordinal <= n <= last_ordinal -> calendar_date (fromordinal n) = true.
Proof.
  intros Hn. unfold calendar_date. rewrite toordinal_fromordinal by done.
  rewrite date_eqb_refl. rewrite !andb_true_iff, !Z.leb_le. lia.
Qed.

(** The order of two calendar dates is the order of their ordinals. *)
Lemma calendar_leb_ordinal a b :
  calendar_date a = true -> calendar_date b = true ->
  Date.leb a b = true <-> toordinal a <= toordinal b.
Proof.
  intros Ha Hb.
  destruct (calendar_date_spec a Ha) as [Ra Ea].
  destruct (calendar_date_spec b Hb) as [Rb Eb].
  split.
  - intros Hle. destruct (Z.le_gt_cases (toordinal a) (toordinal b)) as [|Hgt];
      [done|].
    exfalso.
    pose proof (fromordinal_lt (toordinal b) (toordinal a - toordinal b)
                  ltac:(lia) ltac:(lia) ltac:(lia)) as Hlt.
    replace (toordinal b + (toordinal a - toordinal b)) with (toordinal a)
      in Hlt by lia.
    rewrite Ea, Eb in Hlt. revert Hle Hlt. clear. date_cmp. lia.
  - intros Hle. rewrite <- Ea, <- Eb. apply fromordinal_le; lia.
Qed.

(** A day at most the length of the window after its start lies in the
    window. *)
Lemma add_days_window a b k :
  calendar_date a = true -> calendar_date b = true ->
  0 <= k <= days_between b a ->
  calendar_date (add_days a k) = true
  /\ Date.leb a (add_days a k) = true
  /\ Date.leb (add_days a k) b = true.
Proof.
  intros Ha Hb Hk. unfold days_between in Hk.
  destruct (calendar_date_spec a Ha) as [Ra Ea].
  destruct (calendar_date_spec b Hb) as [Rb Eb].
  unfold add_days. split; [apply calendar_date_fromordinal; lia|]. split.
  - rewrite <- Ea at 1. apply fromordinal_le; lia.
  - rewrite <- Eb. apply fromordinal_le; lia.
Qed.

(** ** Gift dates *)

Lemma ceil_sqrt_range x d :
  (0 < x)%Q -> (x < inject_Z (d * d) * (1 # 25))%Q -> 0 < d ->
  1 <= ceil_sqrt x <= d.
Proof.
  intros Hx Hlt Hd. unfold ceil_sqrt. cbv zeta.
  pose proof (Qfloor_le x) as Hfl.
  assert (0 <= Qfloor x) as Hf0.
  { change 0 with (Qfloor 0). apply Qfloor_resp_le. lra. }
  pose proof (Z.sqrt_spec (Qfloor x) Hf0) as [Hs1 _].
  pose proof (Z.sqrt_nonneg (Qfloor x)) as Hs0.
  set (r := Z.sqrt (Qfloor x)) in *.
  assert (25 * (r * r) < d * d) as Hr.
  { rewrite Zlt_Qlt, inject_Z_mult.
    assert (inject_Z (r * r) <= inject_Z (Qfloor x))%Q as H
      by (rewrite <- Zle_Qle; lia).
    change (inject_Z 25) with 25%Q. lra. }
  assert (5 * r < d) as Hr5 by nia.
  destruct (Qeq_bool (inject_Z (r * r)) x) eqn:E.
  - apply Qeq_bool_iff in E.
    assert (0 < inject_Z (r * r))%Q as Hpos by (rewrite E; exact Hx).
    change 0%Q with (inject_Z 0) in Hpos. rewrite <- Zlt_Qlt in Hpos. nia.
  - lia.
Qed.

(** The day offset of a gift lies between 0 and the length of the appeal
    window. *)
Lemma triangular_day_offset_range days_range e :
  0 < days_range ->
  0 <= fst (triangular_day_offset days_range e) <= days_range.
Proof.
  intros Hd. unfold triangular_day_offset, Random.random, py_word. gen_unfold.
  destruct (next_word (py e)) as [w g].
  pose proof (unit_of_word_range w) as [H0 H1].
  set (u := unit_of_word w) in *. cbv zeta.
  assert (0 <= inject_Z (days_range * days_range))%Q as Hd2.
  { change 0%Q with (inject_Z 0). rewrite <- Zle_Qle. nia. }
  assert (0 < inject_Z (days_range * days_range))%Q as Hd2'.
  { change 0%Q with (inject_Z 0). rewrite <- Zlt_Qlt. nia. }
  set (d2 := inject_Z (days_range * days_range)) in *.
  destruct (Qle_bool u 0.8) eqn:Hu; cbn [fst].
  - apply Qle_bool_iff in Hu.
    assert (0 <= Qfloor (d2 * (u * 0.8))) as Hf0.
    { change 0 with (Qfloor 0). apply Qfloor_resp_le. nra. }
    split; [apply Z.sqrt_nonneg|].
    assert (Qfloor (d2 * (u * 0.8)) <= days_range * days_range) as Hf1.
    { rewrite Zle_Qle. fold d2.
      pose proof (Qfloor_le (d2 * (u * 0.8))). nra. }
    pose proof (Z.sqrt_le_mono _ _ Hf1) as Hs.
    rewrite Z.sqrt_square in Hs by lia. exact Hs.
  - assert (0.8 < u)%Q as Hu'.
    { apply Qnot_le_lt. intros Hle. apply Qle_bool_iff in Hle. congruence. }
    destruct (ceil_sqrt_range (d2 * ((1 - u) * (1 - 0.8))) days_range)
      as [Hc1 Hc2]; [nra| fold d2; nra |lia|]. lia.
Qed.

Lemma transaction_date_within appeal e :
  calendar_date (a_start_date appeal) = true ->
  calendar_date (a_end_date appeal) = true ->
  Date.leb (a_start_date appeal) (a_end_date appeal) = true ->
  let d := fst (transaction_date appeal e) in
  calendar_date d = true
  /\ Date.leb (a_start_date appeal) d = true
  /\ Date.leb d (a_end_date appeal) = true.
Proof.
  intros Hs He Hle. cbv zeta. unfold transaction_date.
  destruct (String.eqb (a_type appeal) "Event").
  { cbn [fst]. split; [done|]. split; [done|apply date_leb_refl]. }
  destruct (Z.leb_spec (days_between (a_end_date appeal) (a_start_date appeal))
              0) as [Hr|Hr].
  { cbn [fst]. split; [done|]. split; [apply date_leb_refl|done]. }
  gen_unfold.
  pose proof (triangular_day_offset_range _ e Hr) as Ho.
  destruct (triangular_day_offset _ e) as [k e1]. cbn [fst] in *.
  by apply add_days_window.
Qed.

(** X18: When the window of every appeal is a pair of calendar dates with the
    start on or before the end, every transaction is dated within the window
    of the appeal it answers. *)
Theorem gift_dates_within_appeal cfg segs cfs constituents appeals e :
  (forall appeal, appeal ∈ appeals ->
     calendar_date (a_start_date appeal) = true
     /\ calendar_date (a_end_date appeal) = true
     /\ Date.leb (a_start_date appeal) (a_end_date appeal) = true) ->
  Forall (fun t =>
            exists appeal,
              appeal ∈ appeals /\ t_appeal_id t = a_appeal_id appeal
              /\ Date.leb (a_start_date appeal) (t_date t) = true
              /\ Date.leb (t_date t) (a_end_date appeal) = true)
    (e_transactions
       (fst (generate_transactions cfg segs cfs constituents appeals e))).
Proof.
  intros Hwin. apply Forall_forall. intros t Ht.
  destruct (transactions_are_gifts _ _ _ _ _ _ _ Ht)
    as (appeal & Happeal & donor & gift_num & st & e0 & _ & _ & _ & Htx).
  destruct (make_gift_transaction _ _ _ _ _ _ _ _ _ Htx)
    as (_ & _ & Ha & _ & _ & _ & Hd & _).
  destruct (Hwin appeal Happeal) as (Hs & He & Hle).
  destruct (transaction_date_within appeal e0 Hs He Hle) as (_ & H1 & H2).
  cbv zeta in *. rewrite <- Hd in *. by exists appeal.
Qed.

Lemma gift_dates_within_appeal_witness :
  Forall (fun t =>
            exists appeal,
              appeal ∈ [board_appeal_2023; board_appeal_2022]
              /\ t_appeal_id t = a_appeal_id appeal
              /\ Date.leb (a_start_date appeal) (t_date t) = true
              /\ Date.leb (t_date t) (a_end_date appeal) = true)
    (e_transactions
       (fst (generate_transactions default_config ∅ capital_fund_rows
               (individuals_1_to 2) [board_appeal_2023; board_appeal_2022]
               single_gift_entropy))).
Proof.
  apply gift_dates_within_appeal.
  intros appeal Ha.
  apply elem_of_cons in Ha as [->|Ha];
    [vm_compute; repeat split; reflexivity|].
  apply list_elem_of_singleton in Ha as ->.
  vm_compute; repeat split; reflexivity.
Defined.

(** ** Campaigns *)

Lemma insert_last_Permutation {A} (l : list A) j x y :
  l !! j = Some x -> l ++ [y] ≡ₚ x :: <[j:=y]> l.
Proof.
  intros Hx. pose proof (lookup_lt_Some _ _ _ Hx) as Hlen.
  rewrite insert_take_drop by done.
  rewrite <- (take_drop_middle l j x Hx) at 1.
  generalize (take j l) (drop (S j) l). intros a b.
  rewrite <- app_assoc. cbn [app]. rewrite <- Permutation_middle.
  do 2 f_equiv. by rewrite Permutation_app_comm.
Qed.

(** [random.sample] returns distinct positions of the pool. *)
Lemma sample_pool_submseteq {A} (d : A) k : forall pool n e,
  (k <= n <= length pool)%nat ->
  fst (Random.sample_pool d pool n k e) ⊆+ take n pool.
Proof.
  induction k as [|k IH]; intros pool n e Hn.
  { cbn. apply submseteq_nil_l. }
  cbn [Random.sample_pool]. gen_unfold.
  unfold Random.randbelow at 1. gen_unfold.
  destruct (py_word e) as [w e1].
  pose proof (Z.mod_pos_bound (Z.of_N w) (Z.of_nat n) ltac:(lia)) as Hj.
  set (j := Z.to_nat (Z.of_N w mod Z.of_nat n)).
  assert (j < n)%nat as Hjn by lia.
  set (y := nth (n - 1) pool d).
  specialize (IH (<[j:=y]> pool) (n - 1)%nat e1).
  rewrite length_insert in IH. specialize (IH ltac:(lia)).
  destruct (Random.sample_pool d (<[j:=y]> pool) (n - 1) k e1) as [rest e2].
  cbn [fst] in *.
  assert (take n pool ≡ₚ nth j pool d :: take (n - 1) (<[j:=y]> pool)) as ->.
  { subst y. destruct n as [|m]; [lia|].
    replace (S m - 1)%nat with m in * by lia. set (y := nth m pool d).
    assert (pool !! m = Some y) as Hy.
    { subst y. destruct (nth_lookup_or_length pool m d) as [H|H]; [done|lia]. }
    rewrite (take_S_r _ _ _ Hy).
    destruct (decide (j = m)) as [->|Hne].
    - rewrite take_insert_ge by lia. fold y.
      by rewrite Permutation_app_comm.
    - rewrite take_insert_lt by lia.
      assert (take m pool !! j = Some (nth j pool d)) as Hx.
      { rewrite lookup_take_lt by lia.
        destruct (nth_lookup_or_length pool j d) as [H|H]; [done|lia]. }
      by apply insert_last_Permutation. }
  by apply submseteq_skip.
Qed.

Lemma relevant_funds_NoDup campaign_type :
  NoDup (dict_get campaign_fund_affinities campaign_type [1]).
Proof.
  unfold campaign_fund_affinities; cbn [dict_get].
  repeat match goal with |- context [String.eqb ?a ?b] =>
    destruct (String.eqb a b) end;
    apply (bool_decide_unpack _); vm_compute; exact I.
Qed.

Lemma submseteq_keeps_NoDup {A} (l k : list A) :
  l ⊆+ k -> NoDup k -> NoDup l.
Proof.
  intros Hsub Hnd. apply submseteq_Permutation in Hsub as [k' Hk].
  rewrite Hk in Hnd. by apply NoDup_app in Hnd as [? _].
Qed.

Lemma mapping_rows_funds id sel ws :
  map cf_fund_id (mapping_rows id sel ws) = sel.
Proof.
  unfold mapping_rows. apply list_eq. intros i.
  rewrite list_lookup_fmap, list_lookup_imap.
  by destruct (sel !! i).
Qed.

(** The funds a campaign is mapped to are distinct funds of the affinity
    list of its type. *)
Lemma select_campaign_funds_funds campaign_type id e :
  let funds :=
    map cf_fund_id (fst (select_campaign_funds campaign_type id e)) in
  NoDup funds
  /\ forall f, f ∈ funds ->
       f ∈ dict_get campaign_fund_affinities campaign_type [1].
Proof.
  cbv zeta. unfold select_campaign_funds. gen_unfold.
  pose proof (randint_range 1 3 e ltac:(lia)) as Hr.
  destruct (Random.randint 1 3 e) as [r e3]. cbn [fst] in Hr.
  pose proof (relevant_funds_nonempty campaign_type) as Hne.
  pose proof (relevant_funds_NoDup campaign_type) as Hnd.
  generalize dependent (dict_get campaign_fund_affinities campaign_type [1]).
  intros relevant Hne Hnd.
  set (n := Z.to_nat (Z.min (Z.of_nat (length relevant)) r)).
  assert (1 <= n <= length relevant)%nat as Hn.
  { subst n. destruct relevant; [done|]. cbn [length]. lia. }
  unfold Random.sample.
  pose proof (sample_pool_length 0 n relevant (length relevant) e3) as Hlen.
  pose proof (sample_pool_submseteq 0 n relevant (length relevant) e3
                ltac:(lia)) as Hsub.
  rewrite firstn_all in Hsub.
  destruct (Random.sample_pool 0 relevant (length relevant) n e3)
    as [selected e4]. cbn [fst] in *.
  assert (match selected with [] => [1] | _ => selected end = selected) as ->.
  { destruct selected; [simpl in Hlen; lia|done]. }
  rewrite mapping_rows_funds. split.
  - by eapply submseteq_keeps_NoDup.
  - intros f Hf. by eapply elem_of_submseteq.
Qed.

Lemma campaigns_loop_made cfg templates : forall id camps maps e out,
  fst (campaigns_loop cfg templates id camps maps e) = Some out ->
  exists made,
    campaigns_made cfg templates id made
    /\ out.1 = camps ++ map fst made
    /\ out.2 = maps ++ concat (map snd made).
Proof.
  induction templates as [|[campaign_type name] rest IH];
    intros id camps maps e out Hrun.
  - injection Hrun as <-. exists []. cbn. by rewrite !app_nil_r.
  - rewrite campaigns_loop_cons in Hrun. cbv zeta in Hrun.
    destruct (Faker.date_between _ _ e) as [[c_start|] e1] eqn:Hd;
      [|discriminate Hrun].
    pose proof (choice_elem 0 [50000; 100000; 250000; 500000; 1000000] e1
                  ltac:(done)) as Hg.
    destruct (Random.choice 0 _ e1) as [goal e2]. cbn [fst] in Hg.
    destruct (select_campaign_funds campaign_type id e2) as [rows e3] eqn:Hs.
    destruct (IH _ _ _ _ _ Hrun) as (made & Hmade & Hc & Hm).
    exists ((mkCampaign id name campaign_type c_start
               (add_days c_start (campaign_length campaign_type)) goal
               ("Campaign for " +:+ name), rows) :: made).
    split; [|split].
    + cbn [campaigns_made]. split; [|exact Hmade].
      exists e, e2, c_start, goal. cbn [fst snd]. rewrite Hd, Hs.
      by repeat split.
    + rewrite Hc. cbn [map fst]. by rewrite <- app_assoc.
    + rewrite Hm. cbn [map snd concat]. by rewrite <- !app_assoc.
Qed.

Lemma campaigns_made_length cfg templates : forall id made,
  campaigns_made cfg templates id made -> length made = length templates.
Proof.
  induction templates as [|t ts IH]; intros id [|[c rows] made] H;
    try done. cbn [campaigns_made] in H. destruct H as [_ H].
  cbn [length]. f_equal. by eapply IH.
Qed.

Lemma campaigns_made_table cfg templates : forall id made,
  campaigns_made cfg templates id made ->
  map c_campaign_id (map fst made) = seqZ id (Z.of_nat (length made))
  /\ map (fun c => (c_type c, c_name c)) (map fst made) = templates
  /\ Forall (fun c =>
               c_end_date c
               = add_days (c_start_date c) (campaign_length (c_type c))
               /\ c_goal_amount c ∈ campaign_goals
               /\ c_description c = "Campaign for " +:+ c_name c)
       (map fst made).
Proof.
  induction templates as [|[ty name] ts IH]; intros id [|[c rows] made] H;
    try done.
  cbn [campaigns_made] in H. destruct H as [Hc H].
  destruct (IH _ _ H) as (Hids & Htpl & Hall).
  destruct Hc as (e0 & e2 & c_start & goal & _ & Hg & -> & _).
  cbn [fst snd] in *. cbn [map fst length]. split; [|split].
  - rewrite Nat2Z.inj_succ, seqZ_cons by lia. cbn [c_campaign_id].
    f_equal. rewrite Hids. f_equal. lia.
  - cbn [c_type c_name]. by rewrite Htpl.
  - constructor; [|exact Hall]. by cbn.
Qed.

(** X5: When the configured range leaves room for the campaigns,
    [generate_campaigns] makes one campaign per template, in the order of
    the templates and numbered from 1; each runs for the length of its
    type, has one of the five goal amounts and a description made of its
    name. *)
Theorem campaigns_follow_templates cfg e :
  campaign_ranges_ok cfg ->
  exists campaigns mappings,
    fst (generate_campaigns cfg e) = Some (campaigns, mappings)
    /\ map c_campaign_id campaigns = seqZ 1 24
    /\ map (fun c => (c_type c, c_name c)) campaigns = campaign_types
    /\ Forall (fun c =>
                 c_end_date c
                 = add_days (c_start_date c) (campaign_length (c_type c))
                 /\ c_goal_amount c ∈ campaign_goals
                 /\ c_description c = "Campaign for " +:+ c_name c)
         campaigns.
Proof.
  intros Hok. unfold generate_campaigns.
  destruct (campaigns_loop_returns cfg campaign_types Hok 1 [] [] e)
    as [[camps maps] Hrun].
  exists camps, maps. split; [exact Hrun|].
  destruct (campaigns_loop_made _ _ _ _ _ _ _ Hrun) as (made & Hmade & Hc & _).
  cbn [fst app] in Hc. subst camps.
  destruct (campaigns_made_table _ _ _ _ Hmade) as (Hids & Htpl & Hall).
  rewrite (campaigns_made_length _ _ _ _ Hmade) in Hids.
  by repeat split.
Qed.

Lemma campaigns_follow_templates_witness :
  exists campaigns mappings,
    fst (generate_campaigns default_config zero_entropy)
    = Some (campaigns, mappings)
    /\ map c_campaign_id campaigns = seqZ 1 24
    /\ map (fun c => (c_type c, c_name c)) campaigns = campaign_types
    /\ Forall (fun c =>
                 c_end_date c
                 = add_days (c_start_date c) (campaign_length (c_type c))
                 /\ c_goal_amount c ∈ campaign_goals
                 /\ c_description c = "Campaign for " +:+ c_name c)
         campaigns.
Proof.
  apply (campaigns_follow_templates default_config zero_entropy).
  unfold campaign_ranges_ok. vm_compute. repeat split; discriminate.
Defined.

Lemma campaigns_made_in cfg templates : forall id made,
  campaigns_made cfg templates id made ->
  forall template, template ∈ templates ->
  exists id' c rows, campaign_made cfg template id' c rows.
Proof.
  induction templates as [|t ts IH]; intros id [|[c rows] made] H tpl Hin;
    try done; try by inversion Hin.
  cbn [campaigns_made] in H. destruct H as [Hc H].
  apply elem_of_cons in Hin as [->|Hin]; [by eexists _, _, _|].
  by eapply IH.
Qed.

(** What [date_between] returns when it returns. *)
Lemma date_between_Some s t e d :
  fst (Faker.date_between s t e) = Some d ->
  0 <= days_between t s
  /\ exists k, 0 <= k <= days_between t s /\ d = add_days s k.
Proof.
  unfold Faker.date_between.
  destruct (Z.ltb_spec (days_between t s) 0) as [Hlt|Hge].
  { intros H. discriminate H. }
  gen_unfold. destruct (fk_word e) as [w e1]. cbn [fst]. intros [= <-].
  split; [exact Hge|].
  exists (Z.of_N w mod (days_between t s + 1)). split; [|reflexivity].
  pose proof (Z.mod_pos_bound (Z.of_N w) (days_between t s + 1)). lia.
Qed.

Lemma campaign_made_range cfg ty name id c rows :
  campaign_made cfg (ty, name) id c rows ->
  0 <= days_between (add_days (end_date cfg) (- campaign_length ty))
         (start_date cfg).
Proof.
  intros (e0 & _ & c_start & _ & Hd & _).
  apply date_between_Some in Hd as [H _]. exact H.
Qed.

(** X6: [generate_campaigns] fails whenever the configured end date less 365,
    730 or 180 days falls before the configured start date: Faker is handed
    an empty date range. *)
Theorem campaigns_need_two_years cfg e :
  ~ campaign_ranges_ok cfg -> fst (generate_campaigns cfg e) = None.
Proof.
  intros Hbad. unfold generate_campaigns.
  destruct (fst (campaigns_loop cfg campaign_types 1 [] [] e))
    as [[camps maps]|] eqn:Hrun; [|reflexivity].
  exfalso. apply Hbad.
  destruct (campaigns_loop_made _ _ _ _ _ _ _ Hrun) as (made & Hmade & _).
  pose proof (campaigns_made_in _ _ _ _ Hmade) as Hin.
  destruct (Hin ("Annual", "Earth Protectors Annual Fund"))
    as (i1 & c1 & r1 & H1); [left|].
  destruct (Hin ("Capital", "Wildlands Corridor Acquisition"))
    as (i2 & c2 & r2 & H2); [right; left|].
  destruct (Hin ("Special", "Forest Fire Recovery"))
    as (i3 & c3 & r3 & H3); [do 2 right; left|].
  apply campaign_made_range in H1, H2, H3.
  assert (campaign_length "Annual" = 365) as E1 by reflexivity.
  assert (campaign_length "Capital" = 730) as E2 by reflexivity.
  assert (campaign_length "Special" = 180) as E3 by reflexivity.
  rewrite E1 in H1. rewrite E2 in H2. rewrite E3 in H3.
  split; [exact H1|]. split; [exact H2|exact H3].
Qed.

(** A range of one year leaves no room for a Capital campaign. *)
Lemma campaigns_need_two_years_witness :
  fst (generate_campaigns one_year_config zero_entropy) = None.
Proof.
  apply campaigns_need_two_years.
  intros (_ & H & _). vm_compute in H. by apply H.
Defined.

Lemma campaigns_made_funds cfg templates : forall id made,
  campaigns_made cfg templates id made ->
  NoDup (map mapping_key (concat (map snd made)))
  /\ Forall (fun cf =>
               id <= cf_campaign_id cf
               /\ exists c, c ∈ map fst made
                    /\ c_campaign_id c = cf_campaign_id cf
                    /\ cf_fund_id cf
                       ∈ dict_get campaign_fund_affinities (c_type c) [1])
       (concat (map snd made)).
Proof.
  induction templates as [|[ty name] ts IH]; intros id [|[c rows] made] H;
    try done.
  { cbn. split; constructor. }
  cbn [campaigns_made] in H. destruct H as [Hc H].
  destruct (IH _ _ H) as [Hnd Hall]. clear IH.
  destruct Hc as (e0 & e2 & c_start & goal & _ & _ & -> & ->).
  cbn [fst snd map concat] in *.
  destruct (select_campaign_funds_spec ty id e2) as [_ Hid].
  destruct (select_campaign_funds_funds ty id e2) as [Hfnd Hfin].
  cbv zeta in Hid, Hfnd, Hfin.
  set (rows := fst (select_campaign_funds ty id e2)) in *.
  assert (map mapping_key rows = map (pair id) (map cf_fund_id rows)) as Hkeys.
  { rewrite map_map. apply map_ext_in. intros cf Hcf.
    apply list_elem_of_In in Hcf. unfold mapping_key. by rewrite (Hid cf Hcf). }
  split.
  - rewrite map_app. apply NoDup_app. split; [|split; [|exact Hnd]].
    + rewrite Hkeys. apply NoDup_fmap_2; [|exact Hfnd]. by intros ?? [=].
    + intros key Hk1 Hk2.
      apply list_elem_of_fmap in Hk1 as (cf1 & -> & Hcf1).
      apply list_elem_of_fmap in Hk2 as (cf2 & Heq & Hcf2).
      rewrite Forall_forall in Hall. destruct (Hall cf2 Hcf2) as [Hge _].
      unfold mapping_key in Heq. injection Heq as Heq _.
      rewrite (Hid cf1 Hcf1) in Heq. lia.
  - apply Forall_app. split.
    + apply Forall_forall. intros cf Hcf. rewrite (Hid cf Hcf).
      split; [lia|]. eexists. split; [left|]. cbn [c_campaign_id c_type].
      split; [reflexivity|]. apply Hfin. apply list_elem_of_fmap. by exists cf.
    + eapply Forall_impl; [exact Hall|]. cbv beta.
      intros cf (Hge & c & Hc & Hrest). split; [lia|].
      exists c. split; [by right|exact Hrest].
Qed.

(** X7: Every mapping row belongs to a campaign of the table and names a fund
    of the affinity list of that campaign's type; no campaign is mapped to
    the same fund twice. *)
Theorem campaign_funds_fit_the_type cfg e :
  campaign_ranges_ok cfg ->
  exists campaigns mappings,
    fst (generate_campaigns cfg e) = Some (campaigns, mappings)
    /\ NoDup (map mapping_key mappings)
    /\ Forall (fun cf =>
                 exists c, c ∈ campaigns
                   /\ c_campaign_id c = cf_campaign_id cf
                   /\ cf_fund_id cf
                      ∈ dict_get campaign_fund_affinities (c_type c) [1])
         mappings.
Proof.
  intros Hok. unfold generate_campaigns.
  destruct (campaigns_loop_returns cfg campaign_types Hok 1 [] [] e)
    as [[camps maps] Hrun].
  exists camps, maps. split; [exact Hrun|].
  destruct (campaigns_loop_made _ _ _ _ _ _ _ Hrun) as (made & Hmade & Hc & Hm).
  cbn [fst snd app] in Hc, Hm. subst camps maps.
  destruct (campaigns_made_funds _ _ _ _ Hmade) as [Hnd Hall].
  split; [exact Hnd|].
  eapply Forall_impl; [exact Hall|]. cbv beta. by intros cf [_ H].
Qed.

Lemma campaign_funds_fit_the_type_witness :
  exists campaigns mappings,
    fst (generate_campaigns default_config zero_entropy)
    = Some (campaigns, mappings)
    /\ NoDup (map mapping_key mappings)
    /\ Forall (fun cf =>
                 exists c, c ∈ campaigns
                   /\ c_campaign_id c = cf_campaign_id cf
                   /\ cf_fund_id cf
                      ∈ dict_get campaign_fund_affinities (c_type c) [1])
         mappings.
Proof.
  apply (campaign_funds_fit_the_type default_config zero_entropy).
  unfold campaign_ranges_ok. vm_compute. repeat split; discriminate.
Defined.

Lemma days_between_ordinals a b : days_between a b = toordinal a - toordinal b.
Proof. reflexivity. Qed.

Lemma add_days_ordinal d n : add_days d n = fromordinal (toordinal d + n).
Proof. reflexivity. Qed.

(** A window of [len] days that starts at most [len] days before the end of
    a range lies in the range. *)
Lemma window_within_range s t len k :
  calendar_date s = true -> calendar_date t = true ->
  0 < len -> len <= days_between t s ->
  0 <= k <= days_between (add_days t (- len)) s ->
  calendar_date (add_days s k) = true
  /\ calendar_date (add_days (add_days s k) len) = true
  /\ Date.leb s (add_days s k) = true
  /\ Date.leb (add_days (add_days s k) len) t = true
  /\ days_between (add_days (add_days s k) len) (add_days s k) = len.
Proof.
  intros Hs Ht Hpos Hspan Hk.
  destruct (calendar_date_spec _ Hs) as [Rs Es].
  destruct (calendar_date_spec _ Ht) as [Rt Et].
  rewrite days_between_ordinals in Hspan.
  rewrite days_between_ordinals, add_days_ordinal in Hk.
  rewrite toordinal_fromordinal in Hk by lia.
  rewrite days_between_ordinals, !add_days_ordinal.
  rewrite (toordinal_fromordinal (toordinal s + k)) by lia.
  rewrite (toordinal_fromordinal (toordinal s + k + len)) by lia.
  split; [apply calendar_date_fromordinal; lia|].
  split; [apply calendar_date_fromordinal; lia|].
  split; [|split; [|lia]].
  - rewrite <- Es at 1. apply fromordinal_le; lia.
  - rewrite <- Et. apply fromordinal_le; lia.
Qed.

Lemma campaign_made_window cfg template id c rows :
  calendar_date (start_date cfg) = true ->
  calendar_date (end_date cfg) = true ->
  campaign_length template.1
  <= days_between (end_date cfg) (start_date cfg) ->
  campaign_made cfg template id c rows ->
  calendar_date (c_start_date c) = true
  /\ calendar_date (c_end_date c) = true
  /\ Date.leb (start_date cfg) (c_start_date c) = true
  /\ Date.leb (c_end_date c) (end_date cfg) = true
  /\ days_between (c_end_date c) (c_start_date c) = campaign_length (c_type c).
Proof.
  intros Hs He Hspan (e0 & e2 & c_start & goal & Hd & _ & -> & _).
  cbn [c_start_date c_end_date c_type].
  apply date_between_Some in Hd as (_ & k & Hk & ->).
  apply window_within_range; try done.
  destruct (campaign_length_cases template.1) as [->|[->| ->]]; lia.
Qed.

Lemma campaigns_made_windows cfg templates : forall id made,
  calendar_date (start_date cfg) = true ->
  calendar_date (end_date cfg) = true ->
  730 <= days_between (end_date cfg) (start_date cfg) ->
  campaigns_made cfg templates id made ->
  Forall (fun c =>
            calendar_date (c_start_date c) = true
            /\ calendar_date (c_end_date c) = true
            /\ Date.leb (start_date cfg) (c_start_date c) = true
            /\ Date.leb (c_end_date c) (end_date cfg) = true
            /\ days_between (c_end_date c) (c_start_date c)
               = campaign_length (c_type c))
    (map fst made).
Proof.
  induction templates as [|t ts IH]; intros id [|[c rows] made] Hs He Hspan H;
    try done.
  cbn [campaigns_made] in H. destruct H as [Hc H].
  cbn [map fst]. constructor; [|by eapply IH].
  eapply campaign_made_window; [done|done| |exact Hc].
  destruct (campaign_length_cases t.1) as [->|[->| ->]]; lia.
Qed.

(** X8: When the configured range is a pair of calendar dates at least 730 days
    apart, every campaign starts on or after the configured start, ends on or
    before the configured end, and lasts exactly the length of its type. *)
Theorem campaigns_within_configured_range cfg e :
  calendar_date (start_date cfg) = true ->
  calendar_date (end_date cfg) = true ->
  730 <= days_between (end_date cfg) (start_date cfg) ->
  exists campaigns mappings,
    fst (generate_campaigns cfg e) = Some (campaigns, mappings)
    /\ Forall (fun c =>
                 calendar_date (c_start_date c) = true
                 /\ calendar_date (c_end_date c) = true
                 /\ Date.leb (start_date cfg) (c_start_date c) = true
                 /\ Date.leb (c_end_date c) (end_date cfg) = true
                 /\ days_between (c_end_date c) (c_start_date c)
                    = campaign_length (c_type c))
         campaigns.
Proof.
  intros Hs He Hspan.
  assert (campaign_ranges_ok cfg) as Hok.
  { destruct (calendar_date_spec _ Hs) as [Rs Es].
    destruct (calendar_date_spec _ He) as [Re Ee].
    rewrite days_between_ordinals in Hspan.
    unfold campaign_ranges_ok.
    rewrite !days_between_ordinals, !add_days_ordinal.
    rewrite !toordinal_fromordinal by lia. lia. }
  unfold generate_campaigns.
  destruct (campaigns_loop_returns cfg campaign_types Hok 1 [] [] e)
    as [[camps maps] Hrun].
  exists camps, maps. split; [exact Hrun|].
  destruct (campaigns_loop_made _ _ _ _ _ _ _ Hrun) as (made & Hmade & Hc & _).
  cbn [fst app] in Hc. subst camps.
  by eapply campaigns_made_windows.
Qed.

Lemma campaigns_within_configured_range_witness :
  exists campaigns mappings,
    fst (generate_campaigns default_config zero_entropy)
    = Some (campaigns, mappings)
    /\ Forall (fun c =>
                 calendar_date (c_start_date c) = true
                 /\ calendar_date (c_end_date c) = true
                 /\ Date.leb (start_date default_config) (c_start_date c)
                    = true
                 /\ Date.leb (c_end_date c) (end_date default_config) = true
                 /\ days_between (c_end_date c) (c_start_date c)
                    = campaign_length (c_type c))
         campaigns.
Proof.
  apply (campaigns_within_configured_range default_config zero_entropy).
  - reflexivity.
  - reflexivity.
  - vm_compute. discriminate.
Defined.

(** ** Appeals *)

Lemma relevant_appeal_types_nonempty c : relevant_appeal_types c <> [].
Proof.
  unfold relevant_appeal_types, appeal_type_mapping. cbn [dict_get].
  repeat match goal with |- context [String.eqb ?a ?b] =>
    destruct (String.eqb a b) end; done.
Qed.

Lemma py_int_between q d :
  (0 <= q)%Q -> (q <= inject_Z d)%Q -> 0 <= py_int q <= d.
Proof.
  intros H0 Hd. unfold py_int.
  assert (Qle_bool 0 q = true) as -> by by apply Qle_bool_iff.
  split.
  - change 0 with (Qfloor 0). by apply Qfloor_resp_le.
  - rewrite <- (Qfloor_Z d). by apply Qfloor_resp_le.
Qed.

Lemma appeal_offset_range d n i :
  0 <= d -> 0 <= i -> i + 1 <= n ->
  0 <= py_int ((inject_Z d / inject_Z (n + 1)) * inject_Z (i + 1))%Q <= d.
Proof.
  intros Hd Hi Hn. apply py_int_between.
  - assert (0 <= inject_Z d)%Q by (change 0%Q with (inject_Z 0);
      rewrite <- Zle_Qle; lia).
    assert (0 < inject_Z (n + 1))%Q by (change 0%Q with (inject_Z 0);
      rewrite <- Zlt_Qlt; lia).
    assert (0 <= inject_Z (i + 1))%Q by (change 0%Q with (inject_Z 0);
      rewrite <- Zle_Qle; lia).
    apply Qmult_le_0_compat; [|done].
    apply Qle_shift_div_l; [done|]. lra.
  - assert (0 <= inject_Z d)%Q as H1 by (change 0%Q with (inject_Z 0);
      rewrite <- Zle_Qle; lia).
    assert (0 < inject_Z (n + 1))%Q as H2 by (change 0%Q with (inject_Z 0);
      rewrite <- Zlt_Qlt; lia).
    assert (inject_Z (i + 1) <= inject_Z (n + 1))%Q as H3
      by (rewrite <- Zle_Qle; lia).
    assert (0 <= inject_Z (i + 1))%Q as H4 by (change 0%Q with (inject_Z 0);
      rewrite <- Zle_Qle; lia).
    set (D := inject_Z d) in *. set (N := inject_Z (n + 1)) in *.
    set (I := inject_Z (i + 1)) in *.
    assert (D / N * I == D * (I / N))%Q as -> by (field; lra).
    assert (I / N <= 1)%Q as H5.
    { apply Qle_shift_div_r; [done|]. lra. }
    assert (0 <= I / N)%Q as H6.
    { apply Qle_shift_div_l; [done|]. lra. }
    nra.
Qed.

Lemma appeal_duration_fits appeal_type e :
  duration_fits appeal_type
    (fst ((if String.eqb appeal_type "Event" then mret 1
           else if str_in appeal_type
                     ["Email Campaign"; "Giving Tuesday";
                      "Social Media Challenge"]
                then Random.randint 1 14
                else Random.randint 14 45) e)).
Proof.
  unfold duration_fits, short_appeal_types.
  destruct (String.eqb appeal_type "Event"); [reflexivity|].
  destruct (str_in appeal_type _); apply randint_range; lia.
Qed.

(** The regular appeals of one campaign. *)
Lemma regular_appeals_spec c n todo : forall i id e,
  0 <= i -> i + Z.of_nat todo <= n ->
  let out :=
    fst (regular_appeals c (relevant_appeal_types c) n
           (days_between (c_end_date c) (c_start_date c)) todo i id e) in
  map a_appeal_id out = seqZ id (Z.of_nat todo)
  /\ Forall (fun a => a_campaign_id a = c_campaign_id c
                      /\ regular_appeal_of c a) out.
Proof.
  induction todo as [|todo IH]; intros i id e Hi Hn; cbv zeta.
  { split; [reflexivity|constructor]. }
  cbn [regular_appeals]. gen_unfold.
  pose proof (choice_elem "" (relevant_appeal_types c) e
                (relevant_appeal_types_nonempty c)) as Hty.
  destruct (Random.choice "" (relevant_appeal_types c) e) as [ty e1].
  cbn [fst] in Hty.
  match goal with |- context [let (_, _) := ?m e1 in _] =>
    assert (duration_fits ty (fst (m e1))) as Hdur
      by apply appeal_duration_fits;
    destruct (m e1) as [days e2] end.
  cbn [fst] in Hdur.
  destruct (Random.choice 0 _ e2) as [goal e3].
  specialize (IH (i + 1) (id + 1) e3 ltac:(lia) ltac:(lia)). cbv zeta in IH.
  destruct (regular_appeals c _ n _ todo (i + 1) (id + 1) e3) as [rest e4].
  cbn [fst] in *. destruct IH as [Hids Hall]. split.
  - cbn [map a_appeal_id]. rewrite Nat2Z.inj_succ, seqZ_cons by lia.
    f_equal. rewrite Hids. f_equal. lia.
  - constructor; [|exact Hall]. split; [reflexivity|].
    split; [reflexivity|]. split; [exact Hty|].
    eexists _, days. cbn [a_start_date a_end_date a_type].
    split; [reflexivity|]. split; [reflexivity|]. split; [exact Hdur|].
    intros Hd. apply appeal_offset_range; lia.
Qed.

Lemma december_appeal_spec c id e :
  let out := fst (december_appeal c (relevant_appeal_types c) id e) in
  (length out <= 1)%nat
  /\ map a_appeal_id out = seqZ id (Z.of_nat (length out))
  /\ Forall (fun a => a_campaign_id a = c_campaign_id c
                      /\ december_appeal_of c a) out.
Proof.
  cbv zeta. unfold december_appeal.
  destruct (_ && _); [|by repeat split; try constructor].
  destruct (_ && _); [|by repeat split; try constructor].
  gen_unfold. destruct (Random.choice 0 _ e) as [goal e1]. cbn [fst].
  split; [cbn; lia|]. split; [reflexivity|].
  constructor; [|constructor]. by repeat split.
Qed.

Lemma giving_tuesday_appeal_spec c id e :
  let out := fst (giving_tuesday_appeal c id e) in
  (length out <= 1)%nat
  /\ map a_appeal_id out = seqZ id (Z.of_nat (length out))
  /\ Forall (fun a => a_campaign_id a = c_campaign_id c
                      /\ giving_tuesday_appeal_of' c a) out.
Proof.
  cbv zeta. rewrite giving_tuesday_appeal_run.
  destruct (_ && _); [|by repeat split; try constructor].
  split; [cbn; lia|]. split; [reflexivity|].
  constructor; [|constructor].
  destruct (anchor_november_window c) as [H1 H2].
  split; [reflexivity|]. split; [reflexivity|]. split; [reflexivity|].
  cbn [a_start_date a_end_date]. by split.
Qed.

Lemma seqZ_app_lengths id n m :
  seqZ id (Z.of_nat (n + m))
  = seqZ id (Z.of_nat n) ++ seqZ (id + Z.of_nat n) (Z.of_nat m).
Proof. rewrite Nat2Z.inj_add, seqZ_app by lia. reflexivity. Qed.

(** One campaign's appeals: at most one December appeal, at most one Giving
    Tuesday appeal, then two to four regular appeals, numbered on from
    [id]. *)
Lemma campaign_appeals_spec c id e :
  exists dec gt reg,
    fst (campaign_appeals c id e) = dec ++ gt ++ reg
    /\ (length dec <= 1)%nat /\ (length gt <= 1)%nat
    /\ (2 <= length reg <= 4)%nat
    /\ map a_appeal_id (dec ++ gt ++ reg)
       = seqZ id (Z.of_nat (length (dec ++ gt ++ reg)))
    /\ Forall (fun a => a_campaign_id a = c_campaign_id c
                        /\ december_appeal_of c a) dec
    /\ Forall (fun a => a_campaign_id a = c_campaign_id c
                        /\ giving_tuesday_appeal_of' c a) gt
    /\ Forall (fun a => a_campaign_id a = c_campaign_id c
                        /\ regular_appeal_of c a) reg.
Proof.
  unfold campaign_appeals. fold (relevant_appeal_types c). gen_unfold.
  pose proof (randint_range 2 4 e ltac:(lia)) as Hn.
  destruct (Random.randint 2 4 e) as [n e0]. cbn [fst] in Hn.
  pose proof (december_appeal_spec c id e0) as (Hd1 & Hd2 & Hd3).
  cbv zeta in Hd1, Hd2, Hd3.
  destruct (december_appeal c _ id e0) as [dec e1]. cbn [fst] in *.
  pose proof (giving_tuesday_appeal_spec c (id + Z.of_nat (length dec)) e1)
    as (Hg1 & Hg2 & Hg3). cbv zeta in Hg1, Hg2, Hg3.
  destruct (giving_tuesday_appeal c _ e1) as [gt e2]. cbn [fst] in *.
  pose proof (regular_appeals_spec c n (Z.to_nat n) 0
                (id + Z.of_nat (length dec) + Z.of_nat (length gt)) e2
                ltac:(lia) ltac:(lia)) as [Hr1 Hr2]. cbv zeta in Hr1, Hr2.
  pose proof (f_equal (@length Z) Hr1) as Hlen.
  rewrite length_map, length_seqZ in Hlen.
  destruct (regular_appeals c _ n _ (Z.to_nat n) 0 _ e2) as [reg e3].
  cbn [fst] in *.
  exists dec, gt, reg. split; [reflexivity|].
  split; [exact Hd1|]. split; [exact Hg1|]. split; [lia|].
  split; [|by repeat split].
  rewrite !map_app, !length_app, !seqZ_app_lengths, Hd2, Hg2, Hr1.
  do 3 f_equal; lia.
Qed.

Lemma campaign_appeals_of c id e :
  Forall (appeal_of c) (fst (campaign_appeals c id e)).
Proof.
  destruct (campaign_appeals_spec c id e)
    as (dec & gt & reg & -> & _ & _ & _ & _ & Hd & Hg & Hr).
  rewrite !Forall_app. repeat split.
  - eapply Forall_impl; [exact Hd|]. intros a [H1 H2]. split; [done|by left].
  - eapply Forall_impl; [exact Hg|]. intros a [H1 H2].
    split; [done|right; by left].
  - eapply Forall_impl; [exact Hr|]. intros a [H1 H2].
    split; [done|right; by right].
Qed.

Lemma appeals_loop_spec cs : forall id acc e,
  exists new,
    fst (appeals_loop cs id acc e) = acc ++ new
    /\ map a_appeal_id new = seqZ id (Z.of_nat (length new))
    /\ Forall (fun a => exists c, c ∈ cs /\ appeal_of c a) new.
Proof.
  induction cs as [|c cs IH]; intros id acc e.
  { exists []. cbn. rewrite app_nil_r. by repeat split. }
  cbn [appeals_loop]. gen_unfold.
  destruct (campaign_appeals_spec c id e)
    as (dec & gt & reg & Heq & _ & _ & _ & Hids & _).
  pose proof (campaign_appeals_of c id e) as Hof.
  rewrite <- Heq in Hids.
  destruct (campaign_appeals c id e) as [part e1]. cbn [fst] in *.
  destruct (IH (id + Z.of_nat (length part)) (acc ++ part) e1)
    as (new & -> & Hnew & Hall).
  exists (part ++ new). split; [by rewrite app_assoc|]. split.
  - rewrite map_app, length_app, seqZ_app_lengths, Hids, Hnew. reflexivity.
  - apply Forall_app. split.
    + eapply Forall_impl; [exact Hof|]. intros a Ha. exists c.
      split; [left|done].
    + eapply Forall_impl; [exact Hall|]. intros a (c' & Hc' & Ha).
      exists c'. split; [by right|done].
Qed.

(** X9: Appeal ids are 1, 2, 3, ... in the order of the table. *)
Theorem appeal_ids_consecutive campaigns e :
  let appeals := fst (generate_appeals campaigns e) in
  map a_appeal_id appeals = seqZ 1 (Z.of_nat (length appeals)).
Proof.
  cbv zeta. unfold generate_appeals.
  destruct (appeals_loop_spec campaigns 1 [] e) as (new & -> & Hids & _).
  exact Hids.
Qed.

(** X10: Every appeal belongs to a campaign of the table.  It is that campaign's
    December appeal (Direct Mail, December 1 to 31 of the anchor year), its
    Giving Tuesday appeal (November 23 to December 1 of the anchor year), or
    a regular appeal: of a type of the campaign type's pool, starting a
    number of days into the campaign that does not exceed the campaign's
    length, and lasting one day for an Event, 1 to 14 days for the short
    types and 14 to 45 days otherwise. *)
Theorem appeals_belong_to_campaigns campaigns e :
  Forall (fun a => exists c, c ∈ campaigns /\ appeal_of c a)
    (fst (generate_appeals campaigns e)).
Proof.
  unfold generate_appeals.
  destruct (appeals_loop_spec campaigns 1 [] e) as (new & -> & _ & Hall).
  exact Hall.
Qed.

(** *** The appeals of one campaign *)

Lemma filter_all {A} (P : A -> Prop) `{!forall x, Decision (P x)} (l : list A) :
  Forall P l -> filter P l = l.
Proof.
  induction 1 as [|x l Hx _ IH]; [done|].
  rewrite filter_cons, decide_True by done. by rewrite IH.
Qed.

Lemma filter_none {A} (P : A -> Prop) `{!forall x, Decision (P x)}
    (l : list A) :
  Forall (fun x => ~ P x) l -> filter P l = [].
Proof.
  induction 1 as [|x l Hx _ IH]; [done|].
  rewrite filter_cons, decide_False by done. exact IH.
Qed.

Lemma appeals_loop_of_campaign cs : forall id acc e c,
  c ∈ cs -> NoDup (map c_campaign_id cs) ->
  exists new id' e',
    fst (appeals_loop cs id acc e) = acc ++ new
    /\ filter (fun a => a_campaign_id a = c_campaign_id c) new
       = fst (campaign_appeals c id' e').
Proof.
  induction cs as [|c0 cs IH]; intros id acc e c Hin Hnd; [by inversion Hin|].
  cbn [map] in Hnd. apply NoDup_cons in Hnd as [Hfresh Hnd].
  cbn [appeals_loop]. gen_unfold.
  pose proof (campaign_appeals_of c0 id e) as Hof.
  destruct (campaign_appeals c0 id e) as [part e1] eqn:Hpart. cbn [fst] in *.
  destruct (appeals_loop_spec cs (id + Z.of_nat (length part)) (acc ++ part) e1)
    as (new & Hrun & _ & Hall).
  apply elem_of_cons in Hin as [->|Hin].
  - exists (part ++ new), id, e. rewrite Hrun, Hpart. cbn [fst].
    split; [by rewrite app_assoc|].
    rewrite filter_app, filter_all, filter_none; [by rewrite app_nil_r| |].
    + eapply Forall_impl; [exact Hall|]. intros a (c' & Hc' & Ha & _) Heq.
      apply Hfresh. rewrite <- Heq, Ha. apply list_elem_of_fmap. by exists c'.
    + eapply Forall_impl; [exact Hof|]. by intros a [Ha _].
  - destruct (IH (id + Z.of_nat (length part)) (acc ++ part) e1 c Hin Hnd)
      as (new' & id' & e' & Hrun' & Hfilter).
    exists (part ++ new'), id', e'. rewrite Hrun'.
    split; [by rewrite app_assoc|].
    rewrite filter_app, filter_none; [exact Hfilter|].
    eapply Forall_impl; [exact Hof|]. intros a [Ha _] Heq.
    apply Hfresh. rewrite <- Ha, Heq. apply list_elem_of_fmap. by exists c.
Qed.

Lemma appeals_tagged_filter id tag appeals :
  appeals_tagged id tag appeals
  = filter (fun a => a_seasonal a = tag)
      (filter (fun a => a_campaign_id a = id) appeals).
Proof.
  unfold appeals_tagged. induction appeals as [|a l IH]; [done|].
  rewrite !filter_cons.
  destruct (decide (a_campaign_id a = id)) as [Hi|Hi].
  - rewrite filter_cons. destruct (decide (a_seasonal a = tag)) as [Ht|Ht].
    + rewrite decide_True by done. by rewrite IH.
    + rewrite decide_False by tauto. exact IH.
  - rewrite decide_False by tauto. exact IH.
Qed.

(** X11: With distinct campaign ids, every campaign of the table has two to four
    regular appeals, at most one December appeal and at most one Giving
    Tuesday appeal. *)
Theorem appeals_per_campaign campaigns e c :
  c ∈ campaigns -> NoDup (map c_campaign_id campaigns) ->
  let appeals := fst (generate_appeals campaigns e) in
  (2 <= length (appeals_tagged (c_campaign_id c) "Regular" appeals) <= 4)%nat
  /\ (length (appeals_tagged (c_campaign_id c) "December" appeals) <= 1)%nat
  /\ (length (appeals_tagged (c_campaign_id c) "Giving Tuesday" appeals)
      <= 1)%nat.
Proof.
  intros Hin Hnd. cbv zeta. unfold generate_appeals.
  destruct (appeals_loop_of_campaign campaigns 1 [] e c Hin Hnd)
    as (new & id' & e' & -> & Hfilter). cbn [app].
  rewrite !appeals_tagged_filter, Hfilter.
  destruct (campaign_appeals_spec c id' e')
    as (dec & gt & reg & -> & Hd & Hg & Hr & _ & Hdec & Hgt & Hreg).
  assert (Forall (fun a => a_seasonal a = "December") dec) as Hdec'.
  { eapply Forall_impl; [exact Hdec|]. by intros a (_ & ? & _). }
  assert (Forall (fun a => a_seasonal a = "Giving Tuesday") gt) as Hgt'.
  { eapply Forall_impl; [exact Hgt|]. by intros a (_ & ? & _). }
  assert (Forall (fun a => a_seasonal a = "Regular") reg) as Hreg'.
  { eapply Forall_impl; [exact Hreg|]. by intros a (_ & ? & _). }
  rewrite !filter_app.
  rewrite (filter_none (fun a => a_seasonal a = "Regular") dec),
    (filter_none (fun a => a_seasonal a = "Regular") gt),
    (filter_all (fun a => a_seasonal a = "Regular") reg),
    (filter_all (fun a => a_seasonal a = "December") dec),
    (filter_none (fun a => a_seasonal a = "December") gt),
    (filter_none (fun a => a_seasonal a = "December") reg),
    (filter_none (fun a => a_seasonal a = "Giving Tuesday") dec),
    (filter_all (fun a => a_seasonal a = "Giving Tuesday") gt),
    (filter_none (fun a => a_seasonal a = "Giving Tuesday") reg);
    try done;
    try (eapply Forall_impl; [eassumption|]; cbv beta;
         intros a -> ; discriminate).
  cbn [app]. rewrite !app_nil_r. done.
Qed.

Lemma appeals_per_campaign_witness :
  let appeals :=
    fst (generate_appeals [november_campaign; december_campaign]
           zero_entropy) in
  (2 <= length (appeals_tagged (c_campaign_id december_campaign) "Regular"
                  appeals) <= 4)%nat
  /\ (length (appeals_tagged (c_campaign_id december_campaign) "December"
                appeals) <= 1)%nat
  /\ (length (appeals_tagged (c_campaign_id december_campaign)
                "Giving Tuesday" appeals) <= 1)%nat.
Proof.
  apply (appeals_per_campaign [november_campaign; december_campaign]
           zero_entropy december_campaign).
  - right. left.
  - apply (bool_decide_unpack _). vm_compute. exact I.
Defined.

(** *** Appeal windows *)

Lemma anchor_dates_on_calendar y :
  2021 <= y <= 2024 ->
  calendar_date (mkdate y 12 1) = true
  /\ calendar_date (mkdate y 12 31) = true
  /\ calendar_date (mkdate y 11 23) = true.
Proof.
  intros Hy.
  assert (y = 2021 \/ y = 2022 \/ y = 2023 \/ y = 2024) as H by lia.
  destruct H as [->|[->|[->| ->]]]; repeat split; reflexivity.
Qed.

Lemma appeal_of_on_calendar c a :
  campaign_on_calendar c -> appeal_of c a -> appeal_on_calendar a.
Proof.
  intros (Hs & He & Hle & Hroom) [_ Ha].
  pose proof (anchor_year_range c) as Hy.
  destruct (anchor_dates_on_calendar _ Hy) as (Hd1 & Hd31 & Hn23).
  destruct Ha as [(_ & _ & Hst & Hen)|[(_ & _ & Hst & Hen)|Hreg]].
  - unfold appeal_on_calendar. rewrite Hst, Hen.
    split; [done|]. split; [done|]. date_cmp. lia.
  - unfold appeal_on_calendar. rewrite Hst, Hen.
    split; [done|]. split; [done|]. date_cmp. lia.
  - destruct Hreg as (_ & _ & offset & days & Hst & Hen & Hfit & Hoff).
    destruct (calendar_date_spec _ Hs) as [Rs Es].
    destruct (calendar_date_spec _ He) as [Re Ee].
    pose proof (proj1 (calendar_leb_ordinal _ _ Hs He) Hle) as Hord.
    rewrite days_between_ordinals in Hoff. specialize (Hoff ltac:(lia)).
    assert (1 <= days <= 45) as Hdays.
    { unfold duration_fits in Hfit.
      destruct (String.eqb (a_type a) "Event"); [lia|].
      destruct (str_in (a_type a) short_appeal_types); lia. }
    unfold appeal_on_calendar. rewrite Hen, Hst, !add_days_ordinal.
    rewrite (toordinal_fromordinal (toordinal (c_start_date c) + offset))
      by lia.
    split; [apply calendar_date_fromordinal; lia|].
    split; [apply calendar_date_fromordinal; lia|].
    apply fromordinal_le; lia.
Qed.

(** When every campaign window is a pair of calendar dates in order, with 45
    days of calendar left after its end, every appeal window is a pair of
    calendar dates with the start on or before the end. *)
Theorem appeal_windows_in_order campaigns e :
  (forall c, c ∈ campaigns -> campaign_on_calendar c) ->
  Forall appeal_on_calendar (fst (generate_appeals campaigns e)).
Proof.
  intros Hcal. unfold generate_appeals.
  destruct (appeals_loop_spec campaigns 1 [] e) as (new & -> & _ & Hall).
  cbn [app]. eapply Forall_impl; [exact Hall|]. cbv beta.
  intros a (c & Hc & Ha). eapply appeal_of_on_calendar; [|exact Ha]. auto.
Qed.

Lemma appeal_windows_in_order_witness :
  Forall appeal_on_calendar
    (fst (generate_appeals [november_campaign; december_campaign]
            zero_entropy)).
Proof.
  apply appeal_windows_in_order.
  intros c Hc.
  apply elem_of_cons in Hc as [->|Hc];
    [vm_compute; repeat split; try reflexivity; discriminate|].
  apply list_elem_of_singleton in Hc as ->.
  vm_compute; repeat split; try reflexivity; discriminate.
Defined.

(** ** From the campaigns to the transactions *)




(** ** Pledges *)

Lemma installment_choice_made pledge_type e :
  let '(n, freq) :=
    fst ((if String.eqb pledge_type "Monthly" then
            n ← Random.choice 0 [12; 24; 36]; mret (n, "Monthly")
          else if String.eqb pledge_type "Quarterly" then
            n ← Random.choice 0 [4; 8]; mret (n, "Quarterly")
          else
            n ← Random.choice 0 [1; 2; 3]; mret (n, "Annual")) e) in
  n ∈ installment_choices freq
  /\ (pledge_type ∈ ["Monthly"; "Quarterly"; "Annual"] -> freq = pledge_type).
Proof.
  destruct (String.eqb_spec pledge_type "Monthly") as [->|H1].
  { gen_unfold.
    pose proof (choice_elem 0 [12; 24; 36] e ltac:(done)) as H.
    destruct (Random.choice 0 [12; 24; 36] e) as [n e1]. cbn [fst] in *.
    by split. }
  destruct (String.eqb_spec pledge_type "Quarterly") as [->|H2].
  { gen_unfold.
    pose proof (choice_elem 0 [4; 8] e ltac:(done)) as H.
    destruct (Random.choice 0 [4; 8] e) as [n e1]. cbn [fst] in *.
    by split. }
  gen_unfold.
  pose proof (choice_elem 0 [1; 2; 3] e ltac:(done)) as H.
  destruct (Random.choice 0 [1; 2; 3] e) as [n e1]. cbn [fst] in *.
  split; [exact H|]. intros Hin.
  repeat (apply elem_of_cons in Hin as [Hin|Hin]); try done.
  by inversion Hin.
Qed.

Lemma pledge_frequencies_known freq ty :
  ty ∈ dict_get frequency_mapping freq ["Annual"] ->
  ty ∈ ["Monthly"; "Quarterly"; "Annual"].
Proof.
  unfold frequency_mapping. cbn [dict_get].
  repeat match goal with |- context [String.eqb ?a ?b] =>
    destruct (String.eqb a b) end;
    intros H; repeat (apply elem_of_cons in H as [->|H]);
    try (by inversion H); repeat constructor.
Qed.

Lemma pledge_frequencies_nonempty freq :
  dict_get frequency_mapping freq ["Annual"] <> [].
Proof.
  unfold frequency_mapping. cbn [dict_get].
  repeat match goal with |- context [String.eqb ?a ?b] =>
    destruct (String.eqb a b) end; done.
Qed.

(** The pledge of one donor. *)
Lemma make_pledge_spec cfg today txs segs camps pid donor e p :
  p = fst (make_pledge cfg today txs segs camps pid donor e) ->
  p_pledge_id p = pid
  /\ p_constituent_id p = constituent_id donor
  /\ pledge_terms today segs p.
Proof.
  intros ->. unfold make_pledge. gen_unfold.
  set (seg := default _ (segs !! constituent_id donor)).
  pose proof (choice_elem "" (dict_get frequency_mapping (frequency seg)
                                ["Annual"]) e
                (pledge_frequencies_nonempty _)) as Hty.
  destruct (Random.choice "" _ e) as [ty e1]. cbn [fst] in Hty.
  destruct (Faker.date_between _ _ e1) as [o e2].
  pose proof (installment_choice_made ty e2) as Hn.
  match goal with |- context [let (_, _) := ?m e2 in _] =>
    change (let '(n, freq) := fst (m e2) in
            n ∈ installment_choices freq
            /\ (ty ∈ ["Monthly"; "Quarterly"; "Annual"] -> freq = ty)) in Hn;
    destruct (m e2) as [[n freq] e3] end.
  cbn [fst] in Hn. destruct Hn as [Hn Hfreq].
  specialize (Hfreq (pledge_frequencies_known _ _ Hty)). subst freq.
  match goal with |- context [let (_, _) := ?m e3 in _] =>
    destruct (m e3) as [campaign_id e4] end.
  match goal with |- context [let (_, _) := ?m e4 in _] =>
    assert (if Date.ltb today
                 (add_days (default (Date.max (creation_date donor)
                                       (default (creation_date donor)
                                          (first_gift_date donor))) o)
                    (period_days ty * n))
            then fst (m e4) ∈ ["Active"; "Cancelled"]
            else fst (m e4) ∈ ["Completed"; "Cancelled"]) as Hst
      by (destruct (Date.ltb today _); by apply choices1_elem);
    destruct (m e4) as [status e5] end.
  cbn [fst] in *. split; [reflexivity|]. split; [reflexivity|].
  unfold pledge_terms, pledge_end.
  cbn [p_frequency p_constituent_id installments p_status p_start_date].
  split; [exact Hty|]. split; [by eapply pledge_frequencies_known|].
  split; [exact Hn|exact Hst].
Qed.

Lemma payments_loop_spec pid status freq start amt n todo : forall i payid e,
  0 <= i -> i + Z.of_nat todo <= n ->
  let pays :=
    fst (payments_loop pid status freq start amt n todo i payid e) in
  length pays = todo
  /\ map pp_payment_id pays = seqZ payid (Z.of_nat todo)
  /\ Forall (fun pp => pp_pledge_id pp = pid /\ pp_amount pp = amt
                       /\ pp_status pp ∈ ["Completed"; "Pending"]) pays
  /\ map pp_date pays
     = map (fun k => add_days start (period_days freq * k))
         (seqZ i (Z.of_nat todo))
  /\ Forall (fun pp => pp_status pp = "Completed") (removelast pays)
  /\ (status <> "Active" ->
      Forall (fun pp => pp_status pp = "Completed") pays).
Proof.
  induction todo as [|todo IH]; intros i payid e Hi Hn; cbv zeta.
  { cbn. repeat split; constructor. }
  cbn [payments_loop]. gen_unfold.
  match goal with |- context [let (_, _) := ?m e in _] =>
    assert (fst (m e) ∈ ["Completed"; "Pending"]
            /\ (status <> "Active" \/ i <> n - 1 -> fst (m e) = "Completed"))
      as Hst;
    [|destruct (m e) as [st e1]] end.
  { destruct (String.eqb_spec status "Active") as [->|Hne];
      cbn [andb].
    - destruct (Z.eqb_spec i (n - 1)) as [->|Hne].
      + gen_unfold. destruct (Random.random e) as [u e1]. cbn [fst].
        split; [destruct (Qlt_bool u 0.2); repeat constructor|].
        intros [H|H]; by destruct H.
      + cbn [fst]. split; [repeat constructor|done].
    - cbn [fst]. split; [repeat constructor|done]. }
  cbn [fst] in Hst. destruct Hst as [Hst1 Hst2].
  specialize (IH (i + 1) (payid + 1) e1 ltac:(lia) ltac:(lia)).
  cbv zeta in IH.
  destruct (payments_loop pid status freq start amt n todo (i + 1)
              (payid + 1) e1) as [rest e2].
  cbn [fst] in *. destruct IH as (Hlen & Hids & Hall & Hdates & Hlast & Hna).
  split; [cbn [length]; lia|]. split.
  { cbn [map pp_payment_id]. rewrite Nat2Z.inj_succ, seqZ_cons by lia.
    f_equal. rewrite Hids. f_equal. lia. }
  split; [constructor; [by repeat split|exact Hall]|]. split.
  { cbn [map pp_date]. rewrite Nat2Z.inj_succ, seqZ_cons by lia.
    cbn [map]. f_equal. rewrite Hdates. do 2 f_equal; lia. }
  split.
  - destruct rest as [|r rest]; [constructor|].
    change (removelast (?x :: r :: rest)) with (x :: removelast (r :: rest)).
    constructor; [|exact Hlast]. cbn [pp_status]. apply Hst2. right.
    cbn [length] in Hlen. lia.
  - intros Hne. constructor; [|by apply Hna]. cbn [pp_status]. apply Hst2.
    by left.
Qed.

(** The payments of one pledge. *)
Lemma generate_pledge_payments_spec today p payid e pays :
  pays = fst (generate_pledge_payments today p payid e) ->
  map pp_payment_id pays = seqZ payid (Z.of_nat (length pays))
  /\ (0 <= installments p -> payments_fit today p pays).
Proof.
  intros ->. unfold generate_pledge_payments. gen_unfold.
  match goal with |- context [let (_, _) := ?m e in _] =>
    assert (p_status p <> "Cancelled" -> fst (m e) = true) as Hgen;
    [|destruct (m e) as [generate e1]] end.
  { intros Hne. destruct (String.eqb_spec (p_status p) "Cancelled"); done. }
  cbn [fst] in Hgen.
  destruct generate; cycle 1.
  { cbn [fst length map]. split; [reflexivity|]. intros _.
    unfold payments_fit. cbn [length map removelast].
    repeat split; try constructor.
    - intros Hc. rewrite Hc in Hgen. by specialize (Hgen ltac:(done)).
    - intros Ha. rewrite Ha in Hgen. by specialize (Hgen ltac:(done)).
    - intros _. lia. }
  assert (exists n e2,
            payments_to_generate today (p_status p) (p_frequency p)
              (p_start_date p) (installments p) e1 = (n, e2)
            /\ (p_status p = "Completed" -> n = installments p)
            /\ (p_status p = "Active" ->
                n = Z.min (days_between today (p_start_date p)
                           / period_days (p_frequency p) + 1)
                      (installments p))
            /\ (p_status p = "Cancelled" ->
                0 <= n <= Z.max 1 (installments p - 1)))
    as (n & e2 & -> & Hc & Ha & Hx).
  { unfold payments_to_generate.
    destruct (String.eqb_spec (p_status p) "Active") as [E|E].
    { eexists _, _. split; [reflexivity|]. rewrite E.
      repeat split; intros; done. }
    destruct (String.eqb_spec (p_status p) "Cancelled") as [E'|E'].
    { pose proof (randint_range 0 (Z.max 1 (installments p - 1)) e1
                    ltac:(lia)) as Hr.
      destruct (Random.randint 0 _ e1) as [k e2]. cbn [fst] in Hr.
      exists k, e2. split; [reflexivity|]. rewrite E'.
      repeat split; intros; try done; lia. }
    eexists _, _. split; [reflexivity|]. repeat split; intros; done. }
  pose proof (payments_loop_spec (p_pledge_id p) (p_status p) (p_frequency p)
                (p_start_date p) (installment_amount p) (Z.max 0 n)
                (Z.to_nat n) 0 payid e2 ltac:(lia) ltac:(lia)) as Hspec.
  assert (payments_loop (p_pledge_id p) (p_status p) (p_frequency p)
            (p_start_date p) (installment_amount p) (Z.max 0 n) (Z.to_nat n)
            0 payid e2
          = payments_loop (p_pledge_id p) (p_status p) (p_frequency p)
              (p_start_date p) (installment_amount p) n (Z.to_nat n)
              0 payid e2) as Hsame.
  { destruct (Z.le_gt_cases 0 n) as [Hn|Hn].
    - by rewrite Z.max_r by lia.
    - replace (Z.to_nat n) with 0%nat by lia. reflexivity. }
  rewrite Hsame in Hspec.
  destruct Hspec as (Hlen & Hids & Hall & Hdates & Hlast & Hna).
  cbv zeta in *.
  destruct (payments_loop _ _ _ _ _ n (Z.to_nat n) 0 payid e2) as [pays e3].
  cbn [fst] in *. rewrite Hlen. split; [exact Hids|]. intros Hinst.
  unfold payments_fit. rewrite Hlen.
  split; [exact Hall|]. split; [exact Hdates|]. split; [exact Hlast|].
  split; [exact Hna|]. split; [|split].
  - intros E. rewrite (Hc E). lia.
  - intros E. rewrite (Ha E). lia.
  - intros E. specialize (Hx E). lia.
Qed.

Lemma pledges_loop_made cfg today cs txs segs camps donors :
  forall pid payid pledges payments e out,
  fst (pledges_loop cfg today cs txs segs camps donors pid payid
         pledges payments e) = Some out ->
  exists made,
    pledges_made cfg today cs txs segs camps donors pid payid made
    /\ out.1 = pledges ++ map fst made
    /\ out.2 = payments ++ concat (map snd made).
Proof.
  induction donors as [|donor_id rest IH];
    intros pid payid pledges payments e out Hrun.
  - injection Hrun as <-. exists []. cbn. by rewrite !app_nil_r.
  - rewrite pledges_loop_cons in Hrun.
    destruct (List.find _ cs) as [donor|] eqn:Hfind; [|discriminate Hrun].
    destruct (make_pledge cfg today txs segs camps pid donor e)
      as [pledge e1] eqn:Hp.
    destruct (generate_pledge_payments today pledge payid e1)
      as [pays e2] eqn:Hpays.
    destruct (IH _ _ _ _ _ _ Hrun) as (made & Hmade & Hc & Hm).
    exists ((pledge, pays) :: made). split; [|split].
    + cbn [pledges_made]. split; [|exact Hmade].
      exists donor, e, e1. rewrite Hp, Hpays. by repeat split.
    + rewrite Hc. cbn [map fst]. by rewrite <- app_assoc.
    + rewrite Hm. cbn [map snd concat]. by rewrite <- !app_assoc.
Qed.

Lemma installment_choices_nonneg freq n :
  n ∈ installment_choices freq -> 1 <= n.
Proof.
  unfold installment_choices.
  repeat match goal with |- context [String.eqb ?a ?b] =>
    destruct (String.eqb a b) end;
    intros H; repeat (apply elem_of_cons in H as [->|H]);
    try (by inversion H); lia.
Qed.

(** What the made pledges and payments look like. *)
Lemma pledges_made_spec cfg today cs txs segs camps donors :
  forall pid payid made,
  pledges_made cfg today cs txs segs camps donors pid payid made ->
  map p_pledge_id (map fst made) = seqZ pid (Z.of_nat (length made))
  /\ map p_constituent_id (map fst made) = donors
  /\ map pp_payment_id (concat (map snd made))
     = seqZ payid (Z.of_nat (length (concat (map snd made))))
  /\ Forall (fun '(p, pays) =>
               pledge_terms today segs p /\ payments_fit today p pays) made
  /\ Forall (fun pp => pid <= pp_pledge_id pp) (concat (map snd made)).
Proof.
  induction donors as [|d ds IH]; intros pid payid [|[p pays] made] H;
    try done.
  cbn [pledges_made] in H. destruct H as [Hp H].
  destruct (IH _ _ _ H) as (Hids & Hdonors & Hpay & Hall & Hge). clear IH.
  destruct Hp as (donor & e0 & e1 & Hfind & Hp & Hpays).
  destruct (make_pledge_spec _ _ _ _ _ _ _ _ _ Hp) as (Hpid & Hcid & Hterms).
  destruct (generate_pledge_payments_spec _ _ _ _ _ Hpays) as [Hpids Hfit].
  clear Hp Hpays.
  assert (payments_fit today p pays) as Hfit'.
  { apply Hfit. destruct Hterms as (_ & _ & Hn & _).
    apply installment_choices_nonneg in Hn. lia. }
  cbn [map fst snd concat length].
  split; [|split; [|split; [|split]]].
  - rewrite Nat2Z.inj_succ, seqZ_cons by lia. rewrite Hpid. f_equal.
    rewrite Hids. f_equal. lia.
  - rewrite Hcid, Hdonors. f_equal.
    apply List.find_some in Hfind as [_ Hfind]. by apply Z.eqb_eq in Hfind.
  - rewrite map_app, length_app, seqZ_app_lengths, Hpids, Hpay. reflexivity.
  - constructor; [by split|exact Hall].
  - apply Forall_app. split.
    + destruct Hfit' as (Hf & _). eapply Forall_impl; [exact Hf|].
      intros pp (Hid & _). rewrite Hid, Hpid. lia.
    + eapply Forall_impl; [exact Hge|]. intros pp Hpp. cbv beta in *. lia.
Qed.

Lemma pledges_made_payments_of cfg today cs txs segs camps donors :
  forall pid payid made p pays,
  pledges_made cfg today cs txs segs camps donors pid payid made ->
  (p, pays) ∈ made ->
  payments_of p (concat (map snd made)) = pays.
Proof.
  induction donors as [|d ds IH]; intros pid payid [|[p0 pays0] made] p pays H
    Hin; try done; try by inversion Hin.
  pose proof (pledges_made_spec _ _ _ _ _ _ _ _ _ _ H)
    as (Hids & _ & _ & Hall & _).
  cbn [pledges_made] in H. destruct H as [Hp H].
  pose proof (pledges_made_spec _ _ _ _ _ _ _ _ _ _ H)
    as (Hids' & _ & _ & Hall' & Hge').
  apply Forall_cons in Hall as [[_ (Hf0 & _)] _].
  cbn [map fst length] in Hids. rewrite Nat2Z.inj_succ, seqZ_cons in Hids by lia.
  injection Hids as Hp0 _.
  cbn [map snd concat]. unfold payments_of. rewrite filter_app.
  apply elem_of_cons in Hin as [[= -> ->]|Hin].
  - rewrite filter_all, filter_none; [by rewrite app_nil_r| |].
    + eapply Forall_impl; [exact Hge'|]. intros pp Hpp. cbv beta in *. lia.
    + eapply Forall_impl; [exact Hf0|]. by intros pp (Hid & _).
  - rewrite filter_none.
    + cbn [app]. by eapply IH.
    + assert (pid + 1 <= p_pledge_id p) as Hlater.
      { assert (p_pledge_id p ∈ map p_pledge_id (map fst made)) as Hm.
        { apply list_elem_of_fmap. exists p. split; [done|].
          apply list_elem_of_fmap. by exists (p, pays). }
        rewrite Hids' in Hm. apply elem_of_seqZ in Hm. lia. }
      eapply Forall_impl; [exact Hf0|]. intros pp (Hid & _). cbv beta.
      rewrite Hid. lia.
Qed.

(** *** The tables of [generate_pledges] *)

Lemma first_occurrences_fresh ids : forall seen x,
  x ∈ first_occurrences seen ids -> x ∉ seen.
Proof.
  induction ids as [|i ids IH]; intros seen x Hx; [by inversion Hx|].
  cbn [first_occurrences] in Hx.
  destruct (bool_decide_reflect (i ∈ seen)) as [Hi|Hi].
  - by eapply IH.
  - apply elem_of_cons in Hx as [->|Hx]; [done|].
    apply IH in Hx. intros Hs. apply Hx. by right.
Qed.

Lemma first_occurrences_NoDup ids : forall seen,
  NoDup (first_occurrences seen ids).
Proof.
  induction ids as [|i ids IH]; intros seen; [constructor|].
  cbn [first_occurrences]. destruct (bool_decide (i ∈ seen)); [apply IH|].
  constructor; [|apply IH]. intros Hi.
  apply first_occurrences_fresh in Hi. apply Hi. left.
Qed.

Lemma eligible_donors_NoDup txs : NoDup (eligible_donors txs).
Proof.
  unfold eligible_donors. apply NoDup_filter, first_occurrences_NoDup.
Qed.

Lemma py_int_nonneg q : (0 <= q)%Q -> 0 <= py_int q.
Proof.
  intros H. unfold py_int.
  assert (Qle_bool 0 q = true) as -> by by apply Qle_bool_iff.
  change 0 with (Qfloor 0). by apply Qfloor_resp_le.
Qed.

(** *** Binary64 rounding and the counts taken from it *)

Lemma pow2_pos k : (0 < pow2 k)%Q.
Proof.
  destruct k as [|p|p]; cbn [pow2]; [reflexivity| |reflexivity].
  change 0%Q with (inject_Z 0). rewrite <- Zlt_Qlt.
  apply Z.pow_pos_nonneg; lia.
Qed.

Lemma pow2_Qpower k : (pow2 k == 2 ^ k)%Q.
Proof.
  destruct k as [|p|p]; cbn [pow2].
  - reflexivity.
  - rewrite Zpower_Qpower by lia. reflexivity.
  - change (Z.neg p) with (- Z.pos p). rewrite Qpower_opp.
    rewrite <- (Zpower_Qpower 2 (Z.pos p)) by lia.
    rewrite <- Pos2Z.inj_pow. reflexivity.
Qed.

Lemma pow2_plus a b : (pow2 (a + b) == pow2 a * pow2 b)%Q.
Proof. rewrite !pow2_Qpower. by apply Qpower_plus. Qed.

Lemma pow2_nat n : 0 <= n -> pow2 n = inject_Z (2 ^ n).
Proof. destruct n; [reflexivity|reflexivity|lia]. Qed.

(** [ilog2] is the exponent of the binade of a positive number. *)
Lemma ilog2_spec x :
  (0 < x)%Q -> (pow2 (ilog2 x) <= x /\ x < pow2 (ilog2 x + 1))%Q.
Proof.
  destruct x as [n d]. intros Hx.
  assert (0 < n) as Hn.
  { unfold Qlt in Hx. cbn in Hx. lia. }
  unfold ilog2. cbn [Qnum Qden].
  pose proof (Z.log2_spec n Hn) as [Ha1 Ha2].
  pose proof (Z.log2_spec (Z.pos d) ltac:(lia)) as [Hb1 Hb2].
  pose proof (Z.log2_nonneg n) as Ha0.
  pose proof (Z.log2_nonneg (Z.pos d)) as Hb0.
  set (a := Z.log2 n) in *. set (b := Z.log2 (Z.pos d)) in *.
  assert (n # d == inject_Z n / inject_Z (Z.pos d))%Q as Hnd
    by apply Qmake_Qdiv.
  assert (0 < inject_Z (Z.pos d))%Q as Hd0.
  { change 0%Q with (inject_Z 0). rewrite <- Zlt_Qlt. lia. }
  assert (inject_Z (2 ^ a) <= inject_Z n)%Q as Qa1 by by rewrite <- Zle_Qle.
  assert (inject_Z n < inject_Z (2 ^ Z.succ a))%Q as Qa2
    by by rewrite <- Zlt_Qlt.
  assert (inject_Z (2 ^ b) <= inject_Z (Z.pos d))%Q as Qb1
    by by rewrite <- Zle_Qle.
  assert (inject_Z (Z.pos d) < inject_Z (2 ^ Z.succ b))%Q as Qb2
    by by rewrite <- Zlt_Qlt.
  rewrite <- !pow2_nat in Qa1, Qa2, Qb1, Qb2 by lia.
  pose proof (pow2_pos a) as Pa. pose proof (pow2_pos b) as Pb.
  pose proof (pow2_pos (a - b)) as Pab.
  pose proof (pow2_pos (a - b - 1)) as Pab1.
  assert (pow2 a == pow2 (a - b) * pow2 b)%Q as E1.
  { rewrite <- pow2_plus. by replace (a - b + b) with a by lia. }
  assert (pow2 (Z.succ a) == pow2 (a - b + 1) * pow2 b)%Q as E2.
  { rewrite <- pow2_plus. by replace (a - b + 1 + b) with (Z.succ a) by lia. }
  assert (pow2 a == pow2 (a - b - 1) * pow2 (Z.succ b))%Q as E3.
  { rewrite <- pow2_plus.
    by replace (a - b - 1 + Z.succ b) with a by lia. }
  assert (pow2 (a - b) == pow2 (a - b - 1) * 2)%Q as E4.
  { replace (a - b) with (a - b - 1 + 1) at 1 by lia.
    rewrite pow2_plus. reflexivity. }
  rewrite E1 in Qa1. rewrite E2 in Qa2.
  set (x := (n # d)%Q) in *.
  assert (inject_Z n == x * inject_Z (Z.pos d))%Q as Hn'.
  { rewrite Hnd. field. intros H0. rewrite H0 in Hd0. by apply Qlt_irrefl in Hd0. }
  destruct (Qle_bool (pow2 (a - b)) x) eqn:Hc.
  - apply Qle_bool_iff in Hc. split; [exact Hc|].
    rewrite Hn' in Qa2. nra.
  - assert (x < pow2 (a - b))%Q as Hlt.
    { apply Qnot_le_lt. intros H. apply Qle_bool_iff in H. congruence. }
    replace (a - b - 1 + 1) with (a - b) by lia. split; [|exact Hlt].
    assert (pow2 (Z.succ b) == pow2 b * 2)%Q as E5.
    { unfold Z.succ. rewrite pow2_plus. reflexivity. }
    rewrite E5 in Qb2. rewrite Hn', E4 in Qa1.
    set (P1 := pow2 (a - b - 1)) in *. set (P0 := pow2 b) in *.
    set (D := inject_Z (Z.pos d)) in *.
    apply Qnot_lt_le. intros Hx1.
    assert (x * D < P1 * (P0 * 2))%Q; [|lra].
    apply Qle_lt_trans with (P1 * D)%Q; [|nra].
    apply Qmult_le_compat_r; lra.
Qed.

Lemma round64_unfold x :
  round64 x = if Qeq_bool x 0 then 0%Q
              else (inject_Z (round_half_even (x / pow2 (ulp_exponent x)))
                    * pow2 (ulp_exponent x))%Q.
Proof. reflexivity. Qed.

Lemma round_half_even_Z k : round_half_even (inject_Z k) = k.
Proof.
  unfold round_half_even. cbv zeta. rewrite Qfloor_Z.
  assert (inject_Z k - inject_Z k == 0)%Q as Hz by lra.
  by rewrite (Qcompare_comp _ _ Hz (1 # 2) (1 # 2) (Qeq_refl _)).
Qed.

(** The result is within half a unit in the last place of the argument. *)
Lemma round64_close x :
  (Qabs (round64 x - x) <= pow2 (ulp_exponent x) / 2)%Q.
Proof.
  rewrite round64_unfold. pose proof (pow2_pos (ulp_exponent x)) as Hq.
  set (u := pow2 (ulp_exponent x)) in *.
  destruct (Qeq_bool x 0) eqn:H0.
  { apply Qeq_bool_iff in H0. rewrite H0.
    assert (0 - 0 == 0)%Q as -> by lra. change (Qabs 0) with 0%Q.
    apply Qle_shift_div_l; [reflexivity|]. lra. }
  pose proof (round_half_even_close (x / u)) as Hc.
  set (m := inject_Z (round_half_even (x / u))) in *.
  assert (m * u - x == (m - x / u) * u)%Q as -> by (field; lra).
  rewrite Qabs_Qmult, (Qabs_pos u) by lra.
  assert (u / 2 == (1 # 2) * u)%Q as -> by (field; lra).
  apply Qmult_le_compat_r; lra.
Qed.

(** The result is a 53-bit integer (or [2 ^ 53] itself) times the unit in
    the last place. *)
Lemma round64_significand x :
  exists m, (round64 x == inject_Z m * pow2 (ulp_exponent x))%Q
            /\ Z.abs m <= 2 ^ 53.
Proof.
  rewrite round64_unfold. destruct (Qeq_bool x 0) eqn:H0.
  { exists 0. split; [|lia]. change (inject_Z 0) with 0%Q. lra. }
  eexists. split; [reflexivity|].
  assert (~ x == 0)%Q as Hx.
  { intros H. apply Qeq_bool_iff in H. congruence. }
  assert (0 < Qabs x)%Q as Hpos.
  { destruct (Q_dec 0 x) as [[H|H]|H].
    - rewrite Qabs_pos; lra.
    - rewrite Qabs_neg; lra.
    - exfalso. apply Hx. by symmetry. }
  destruct (ilog2_spec _ Hpos) as [_ Hhi].
  pose proof (pow2_pos (ulp_exponent x)) as Hq.
  set (e := ilog2 (Qabs x)) in *.
  assert (pow2 (e + 1) <= pow2 53 * pow2 (ulp_exponent x))%Q as Hle.
  { rewrite <- pow2_plus, !pow2_Qpower.
    apply Qpower_le_compat_l; [|lra]. unfold ulp_exponent. fold e. lia. }
  set (u := pow2 (ulp_exponent x)) in *.
  assert (Qabs (x / u) <= pow2 53)%Q as Hb.
  { unfold Qdiv. rewrite Qabs_Qmult, Qabs_Qinv, (Qabs_pos u) by lra.
    apply Qle_shift_div_r; [done|]. lra. }
  apply Qabs_Qle_condition in Hb as [Hb1 Hb2].
  apply round_half_even_mono in Hb1, Hb2.
  change (pow2 53) with (inject_Z (2 ^ 53)) in Hb1, Hb2.
  change (- inject_Z (2 ^ 53))%Q with (inject_Z (- 2 ^ 53)) in Hb1.
  rewrite round_half_even_Z in Hb1, Hb2. lia.
Qed.

(** Rounding to the nearest double keeps the sign. *)
Lemma round64_nonneg x : (0 <= x)%Q -> (0 <= round64 x)%Q.
Proof.
  intros Hx. unfold round64. destruct (Qeq_bool x 0); [apply Qle_refl|].
  cbv zeta. set (q := ulp_exponent x). pose proof (pow2_pos q) as Hq.
  apply Qmult_le_0_compat; [|by apply Qlt_le_weak].
  change 0%Q with (inject_Z 0). rewrite <- Zle_Qle.
  assert (0 <= x / pow2 q)%Q as Hdiv.
  { apply Qle_shift_div_l; [done|]. lra. }
  apply round_half_even_mono in Hdiv. exact Hdiv.
Qed.

Lemma b64_nonneg x y : (0 <= x)%Q -> b64 x = Some y -> (0 <= y)%Q.
Proof.
  intros Hx. unfold b64. cbv zeta. destruct (Qlt_bool _ _); [|done].
  intros [= <-]. by apply round64_nonneg.
Qed.

(** A truncated product of two non-negative factors is not negative. *)
Lemma float_count_nonneg a b k :
  (0 <= a)%Q -> (0 <= b)%Q ->
  float_int (fmul (b64 a) (b64 b)) = Some k -> 0 <= k.
Proof.
  intros Ha Hb. unfold float_int, fmul.
  destruct (b64 a) as [x|] eqn:Hx; [|done].
  destruct (b64 b) as [y|] eqn:Hy; [|done].
  cbn [mbind option_bind].
  destruct (b64 (x * y)) as [z|] eqn:Hz; [|done].
  cbn [fmap option_fmap option_map]. intros [= <-].
  apply py_int_nonneg. apply (b64_nonneg (x * y)); [|done].
  apply Qmult_le_0_compat;
    [exact (b64_nonneg a x Ha Hx)|exact (b64_nonneg b y Hb Hy)].
Qed.

(** The literals 0.1 and 0.15 as doubles, and the first number that is
    too large for one. *)
Example b64_of_literals :
  (round64 0.1 == 3602879701896397 # 36028797018963968)%Q
  /\ (round64 0.15 == 5404319552844595 # 36028797018963968)%Q
  /\ b64 (pow2 1024) = None.
Proof. vm_compute. repeat split. Qed.

(** A hundred constituents at an organization share of 0.29: over the
    reals the product is 29, in binary64 it is [28.999999999999996] and 28
    organizations are made. *)
Example organization_count_in_binary64 :
  organization_count
    (mkConfig (mkdate 2021 1 1) (mkdate 2024 12 31) 1 0.29 0.12
       default_giving_patterns default_state_weights) 100
  = Some 28
  /\ py_int (100 * 0.29)%Q = 29.
Proof. vm_compute. split; reflexivity. Qed.

(** X24: With a non-negative pledge percentage, the two tables
    [generate_pledges] returns are numbered from 1 in table order; the
    pledge donors are distinct constituents with at least two gifts each;
    and their number is [int(len(eligible_donors) * pledge_percentage)],
    the product taken in binary64, capped at the number of eligible
    donors. *)
Theorem pledge_tables cfg today cs txs segs camps e pledges payments :
  (0 <= pledge_percentage cfg)%Q ->
  fst (generate_pledges cfg today (Random.sample 0) cs txs segs camps e)
  = Some (pledges, payments) ->
  map p_pledge_id pledges = seqZ 1 (Z.of_nat (length pledges))
  /\ map pp_payment_id payments = seqZ 1 (Z.of_nat (length payments))
  /\ NoDup (map p_constituent_id pledges)
  /\ Forall (fun id => (2 <= length (transactions_of txs id))%nat)
       (map p_constituent_id pledges)
  /\ exists num_pledge_donors,
       float_int (fmul (b64 (inject_Z
                               (Z.of_nat (length (eligible_donors txs)))))
                    (b64 (pledge_percentage cfg)))
       = Some num_pledge_donors
       /\ Z.of_nat (length pledges)
          = Z.min num_pledge_donors
              (Z.of_nat (length (eligible_donors txs))).
Proof.
  intros Hpct. unfold generate_pledges.
  pose proof (eligible_donors_NoDup txs) as Hnd.
  assert (forall id, id ∈ eligible_donors txs ->
            (2 <= length (transactions_of txs id))%nat) as Hel.
  { intros id Hid. unfold eligible_donors in Hid.
    by apply list_elem_of_filter in Hid as [Hid _]. }
  destruct (pledge_donor_count cfg (eligible_donors txs)) as [num|] eqn:Hcount;
    [|discriminate].
  unfold pledge_donor_count in Hcount.
  assert (0 <= num) as Hnum.
  { refine (float_count_nonneg _ _ _ _ Hpct Hcount).
    change 0%Q with (inject_Z 0). rewrite <- Zle_Qle. lia. }
  destruct (eligible_donors txs) as [|d0 ds] eqn:Heq.
  { intros [= <- <-]. repeat split; try constructor.
    exists num. split; [exact Hcount|]. cbn [length Z.of_nat]. lia. }
  destruct (Z.eqb_spec num 0) as [Hz|Hz].
  { intros [= <- <-]. repeat split; try constructor.
    exists num. split; [exact Hcount|]. cbn [length Z.of_nat]. lia. }
  gen_unfold. unfold Random.sample.
  set (k := Z.to_nat (Z.min num (Z.of_nat (length (d0 :: ds))))).
  pose proof (sample_pool_length 0 k (d0 :: ds) (length (d0 :: ds)) e) as Hlen.
  pose proof (sample_pool_submseteq 0 k (d0 :: ds) (length (d0 :: ds)) e
                ltac:(lia)) as Hsub.
  rewrite firstn_all in Hsub.
  destruct (Random.sample_pool 0 (d0 :: ds) (length (d0 :: ds)) k e)
    as [donors e1]. cbn [fst] in Hlen, Hsub.
  intros Hrun.
  destruct (pledges_loop_made _ _ _ _ _ _ _ _ _ _ _ _ _ Hrun)
    as (made & Hmade & Hp & Hpay).
  cbn [fst snd app] in Hp, Hpay. subst pledges payments.
  destruct (pledges_made_spec _ _ _ _ _ _ _ _ _ _ Hmade)
    as (Hids & Hdonors & Hpids & _ & _).
  rewrite !length_map. split; [exact Hids|]. split; [exact Hpids|].
  rewrite Hdonors. split; [by eapply submseteq_keeps_NoDup|]. split.
  - apply Forall_forall. intros id Hid. apply Hel.
    by eapply elem_of_submseteq.
  - exists num. split; [exact Hcount|].
    apply (f_equal (@length Z)) in Hdonors. rewrite !length_map in Hdonors.
    rewrite Hdonors, Hlen. subst k. lia.
Qed.

(** Nine donors with two gifts each under the default configuration: one
    pledge. *)
Lemma pledge_tables_witness :
  map p_pledge_id [cancelled_pledge] = seqZ 1 1
  /\ map pp_payment_id [cancelled_pledge_payment] = seqZ 1 1
  /\ NoDup (map p_constituent_id [cancelled_pledge])
  /\ Forall (fun id =>
               (2 <= length (transactions_of (two_gifts_each 9) id))%nat)
       (map p_constituent_id [cancelled_pledge])
  /\ exists num_pledge_donors,
       float_int (fmul (b64 (inject_Z
                               (Z.of_nat
                                  (length (eligible_donors
                                             (two_gifts_each 9))))))
                    (b64 (pledge_percentage default_config)))
       = Some num_pledge_donors
       /\ Z.of_nat (length [cancelled_pledge])
          = Z.min num_pledge_donors
              (Z.of_nat (length (eligible_donors (two_gifts_each 9)))).
Proof.
  apply (pledge_tables default_config generation_day (repeat_donors 9)
           (two_gifts_each 9) ∅ [november_campaign] cancelled_pledge_entropy
           [cancelled_pledge] [cancelled_pledge_payment]).
  - vm_compute. discriminate.
  - vm_compute. reflexivity.
Defined.

(** X25: Every pledge has a frequency its donor's segment allows, a number of
    installments that frequency allows (12, 24 or 36 monthly, 4 or 8
    quarterly, 1 to 3 annual), and a status that fits the clock: Active or
    Cancelled while its last period ends after the day of the run,
    Completed or Cancelled otherwise. *)
Theorem pledges_keep_their_terms cfg today sample cs txs segs camps e
    pledges payments :
  fst (generate_pledges cfg today sample cs txs segs camps e)
  = Some (pledges, payments) ->
  Forall (pledge_terms today segs) pledges.
Proof.
  unfold generate_pledges. intros Hrun.
  destruct (pledge_donor_count cfg (eligible_donors txs)) as [num|];
    [|discriminate Hrun].
  destruct (eligible_donors txs) as [|d0 ds].
  { injection Hrun as <- <-. constructor. }
  destruct (_ =? 0).
  { injection Hrun as <- <-. constructor. }
  revert Hrun. gen_unfold.
  destruct (sample _ _ e) as [donors e1]. intros Hrun.
  destruct (pledges_loop_made _ _ _ _ _ _ _ _ _ _ _ _ _ Hrun)
    as (made & Hmade & Hp & _).
  cbn [fst app] in Hp. subst pledges.
  destruct (pledges_made_spec _ _ _ _ _ _ _ _ _ _ Hmade)
    as (_ & _ & _ & Hall & _).
  apply Forall_fmap. eapply Forall_impl; [exact Hall|].
  by intros [p pays] [H _].
Qed.

Lemma pledges_keep_their_terms_witness :
  fst (generate_pledges default_config generation_day (Random.sample 0)
         (repeat_donors 9) (two_gifts_each 9) ∅ [november_campaign]
         cancelled_pledge_entropy)
  = Some ([cancelled_pledge], [cancelled_pledge_payment])
  /\ Forall (pledge_terms generation_day ∅) [cancelled_pledge].
Proof.
  assert (fst (generate_pledges default_config generation_day
                 (Random.sample 0) (repeat_donors 9) (two_gifts_each 9) ∅
                 [november_campaign] cancelled_pledge_entropy)
          = Some ([cancelled_pledge], [cancelled_pledge_payment])) as Hrun.
  { vm_compute. reflexivity. }
  split; [exact Hrun|].
  exact (pledges_keep_their_terms _ _ _ _ _ _ _ _ _ _ Hrun).
Defined.

(** X26: The payments of every pledge carry its installment amount, fall one
    period apart from its start date on, and are completed, except that the
    last payment of an Active pledge may be pending.  A Completed pledge
    has one payment per installment; an Active pledge has one per period
    begun by the day of the run, at most its installments; a Cancelled
    pledge has at most [max(1, installments - 1)]. *)
Theorem pledge_payments_follow_schedule cfg today sample cs txs segs camps e
    pledges payments :
  fst (generate_pledges cfg today sample cs txs segs camps e)
  = Some (pledges, payments) ->
  Forall (fun p => payments_fit today p (payments_of p payments)) pledges.
Proof.
  unfold generate_pledges. intros Hrun.
  destruct (pledge_donor_count cfg (eligible_donors txs)) as [num|];
    [|discriminate Hrun].
  destruct (eligible_donors txs) as [|d0 ds].
  { injection Hrun as <- <-. constructor. }
  destruct (_ =? 0).
  { injection Hrun as <- <-. constructor. }
  revert Hrun. gen_unfold.
  destruct (sample _ _ e) as [donors e1]. intros Hrun.
  destruct (pledges_loop_made _ _ _ _ _ _ _ _ _ _ _ _ _ Hrun)
    as (made & Hmade & Hp & Hpay).
  cbn [fst snd app] in Hp, Hpay. subst pledges payments.
  destruct (pledges_made_spec _ _ _ _ _ _ _ _ _ _ Hmade)
    as (_ & _ & _ & Hall & _).
  apply Forall_fmap. apply Forall_forall. intros [p pays] Hin.
  rewrite Forall_forall in Hall. destruct (Hall _ Hin) as [_ Hfit].
  cbn [fst compose].
  by rewrite (pledges_made_payments_of _ _ _ _ _ _ _ _ _ _ _ _ Hmade Hin).
Qed.

(** A completed Annual pledge of three installments. *)
Lemma pledge_payments_follow_schedule_witness :
  fst (generate_pledges default_config generation_day (Random.sample 0)
         (repeat_donors 9) (two_gifts_each 9) ∅ [november_campaign]
         plain_pledge_entropy)
  = Some ([completed_pledge], completed_pledge_payments)
  /\ Forall (fun p =>
               payments_fit generation_day p
                 (payments_of p completed_pledge_payments))
       [completed_pledge].
Proof.
  assert (fst (generate_pledges default_config generation_day
                 (Random.sample 0) (repeat_donors 9) (two_gifts_each 9) ∅
                 [november_campaign] plain_pledge_entropy)
          = Some ([completed_pledge], completed_pledge_payments)) as Hrun.
  { vm_compute. reflexivity. }
  split; [exact Hrun|].
  exact (pledge_payments_follow_schedule _ _ _ _ _ _ _ _ _ _ Hrun).
Defined.

(** ** Households *)

Lemma blocks_numbered_snoc blocks block : forall hid,
  blocks_numbered hid blocks ->
  household_block (hid + Z.of_nat (length blocks)) block ->
  blocks_numbered hid (blocks ++ [block]).
Proof.
  induction blocks as [|b bs IH]; intros hid Hn Hb.
  - cbn in *. rewrite Z.add_0_r in Hb. by split.
  - cbn [app blocks_numbered] in *. destruct Hn as [Hb0 Hn].
    split; [done|]. apply IH; [done|].
    cbn [length] in Hb. by replace (hid + 1 + Z.of_nat (length bs))
      with (hid + Z.of_nat (S (length bs))) by lia.
Qed.

Lemma blocks_inv_add st rows block next assigned :
  blocks_inv st ->
  household_block (household_id st) block ->
  rows = households st ++ block ->
  next = household_id st + 1 ->
  blocks_inv (mkPairing rows assigned next).
Proof.
  intros (blocks & Hrows & Hnum & Hid) Hb -> ->.
  exists (blocks ++ [block]). cbn [households household_id]. split; [|split].
  - rewrite concat_app, Hrows. cbn [concat]. by rewrite app_nil_r.
  - apply blocks_numbered_snoc; [done|].
    by replace (1 + Z.of_nat (length blocks)) with (household_id st) by lia.
  - rewrite length_app, Hid. cbn [length]. lia.
Qed.

Section HouseholdBlocks.

Variable individuals : list Constituent.
Variable nobody : Constituent.

Lemma additional_members_loop_rows fuel hid name primary :
  forall more search_idx rows assigned,
  exists extra,
    (length extra <= more)%nat
    /\ fst (additional_members_loop individuals nobody fuel hid name primary
              more search_idx rows assigned)
       = rows ++ map (fun member => household_row hid name primary member false)
                   extra.
Proof.
  induction fuel as [|fuel IH]; intros more search_idx rows assigned.
  { exists []. cbn. split; [lia|by rewrite app_nil_r]. }
  destruct more as [|more].
  { exists []. cbn. split; [lia|by rewrite app_nil_r]. }
  cbn [additional_members_loop].
  destruct (bool_decide (search_idx ∉ assigned)).
  - destruct (IH more (S search_idx)
                (rows ++ [household_row hid name primary
                            (individual individuals nobody search_idx) false])
                ({[search_idx]} ∪ assigned)) as (extra & Hlen & ->).
    exists (individual individuals nobody search_idx :: extra).
    cbn [length map]. split; [lia|]. by rewrite <- app_assoc.
  - destruct (IH (S more) (S search_idx) rows assigned) as (extra & Hlen & ->).
    exists extra. split; [lia|done].
Qed.

Lemma single_household_blocks i st e :
  blocks_inv st ->
  blocks_inv (fst (single_household individuals nobody i st e)).
Proof.
  intros Hinv. unfold single_household. gen_unfold.
  destruct (get_formal_name _ e) as [name e1]. cbn [fst].
  eapply blocks_inv_add; [exact Hinv| |reflexivity|reflexivity].
  exists name, (individual individuals nobody i), []. split; [cbn; lia|done].
Qed.

Lemma couple_household_blocks i potential_partners st e :
  blocks_inv st ->
  blocks_inv
    (fst (couple_household individuals nobody i potential_partners st e)).
Proof.
  intros Hinv. unfold couple_household. gen_unfold.
  destruct (Random.choice O potential_partners e) as [p0 e1].
  destruct (Random.random e1) as [u e2].
  match goal with |- context [let (_, _) := ?m e2 in _] =>
    destruct (m e2) as [partner_idx e3] end.
  destruct (couple_name _ _ _ e3) as [name e4].
  pose proof (choices1_elem 0 [0; 1; 2; 3] [60; 25; 10; 5]%Q e4 eq_refl
                ltac:(done)) as Hmore.
  destruct (Random.choices1 0 [0; 1; 2; 3] _ e4) as [more e5].
  cbn [fst] in Hmore.
  assert (Z.to_nat more <= 3)%nat as Hmore'.
  { repeat (apply elem_of_cons in Hmore as [->|Hmore]); try lia.
    by inversion Hmore. }
  match goal with |- context [additional_members_loop ?a ?b ?f ?h ?n ?p ?m
                                ?s ?r ?g] =>
    destruct (additional_members_loop_rows f h n p m s r g)
      as (extra & Hlen & Hrows);
    destruct (additional_members_loop a b f h n p m s r g)
      as [rows assigned] end.
  cbn [fst] in *.
  eapply blocks_inv_add; [exact Hinv| |rewrite Hrows; symmetry; apply app_assoc
                         |reflexivity].
  exists name, (individual individuals nobody i),
    (individual individuals nobody partner_idx :: extra).
  cbn [length map]. split; [lia|reflexivity].
Qed.

Lemma pairing_step_blocks i st e :
  blocks_inv st ->
  blocks_inv (fst (pairing_step individuals nobody i st e)).
Proof.
  intros Hinv. unfold pairing_step.
  destruct (bool_decide (i ∈ assigned_constituents st)); [done|].
  gen_unfold. destruct (Random.random e) as [u e1].
  destruct (Qlt_bool u 0.75); [|by apply single_household_blocks].
  destruct (unassigned_in_window _ _ _ _);
    [by apply single_household_blocks|by apply couple_household_blocks].
Qed.

Lemma pairing_loop_blocks todo : forall i st e,
  blocks_inv st ->
  blocks_inv (fst (pairing_loop individuals nobody todo i st e)).
Proof.
  induction todo as [|todo IH]; intros i st e Hinv; [done|].
  cbn [pairing_loop]. gen_unfold.
  pose proof (pairing_step_blocks i st e Hinv) as H1.
  destruct (pairing_step individuals nobody i st e) as [st1 e1].
  by apply IH.
Qed.

(** The closing sweep finds every position assigned: it adds no row and
    draws no random number. *)
Lemma pair_households_first_loop e :
  pair_households individuals nobody e
  = pairing_loop individuals nobody (length individuals) 0
      (mkPairing [] ∅ 1) e.
Proof.
  unfold pair_households. gen_unfold.
  destruct (pairing_loop_spec individuals nobody (length individuals) 0
              (mkPairing [] ∅ 1) e) as [_ Hall].
  { split; [|split; [|done]].
    - exists []. split; [apply NoDup_nil_2|]. split; [|split; [|done]].
      + intros j. cbn. rewrite elem_of_nil. set_solver.
      + intros j Hj. inversion Hj.
    - split; [intros r H; inversion H|]. intros h Hh. cbn in Hh. lia. }
  { lia. }
  { intros j Hj. lia. }
  cbv zeta in Hall.
  destruct (pairing_loop individuals nobody (length individuals) 0
              (mkPairing [] ∅ 1) e) as [st e1]. cbn [fst] in Hall.
  apply sweep_loop_idle. intros j Hj. apply Hall. lia.
Qed.

End HouseholdBlocks.

(** X3: The membership rows come household by household, the households
    numbered 1, 2, 3, ... in the order of the table.  The rows of a
    household start with its primary row, followed by at most four further
    members, and all carry the household's name and the primary
    constituent's id, address and creation date. *)
Theorem households_come_in_blocks constituents e :
  exists blocks,
    fst (generate_households constituents e) = concat blocks
    /\ blocks_numbered 1 blocks.
Proof.
  unfold generate_households. gen_unfold.
  rewrite pair_households_first_loop.
  pose proof (pairing_loop_blocks (individual_constituents constituents)
                no_constituent
                (length (individual_constituents constituents)) 0
                (mkPairing [] ∅ 1) e) as Hinv.
  destruct (pairing_loop _ _ _ 0 (mkPairing [] ∅ 1) e) as [st e1].
  cbn [fst] in *.
  destruct Hinv as (blocks & Hrows & Hnum & _).
  { exists []. by repeat split. }
  by exists blocks.
Qed.

(** X4: The second loop of [generate_households], which gives a single-person
    household to every individual the first loop left out, never finds one:
    the table and the generators are those the first loop leaves. *)
Theorem closing_sweep_is_idle constituents e :
  let individuals := individual_constituents constituents in
  generate_households constituents e
  = (let (st, e') :=
       pairing_loop individuals no_constituent (length individuals) 0
         (mkPairing [] ∅ 1) e in
     (households st, e')).
Proof.
  cbv zeta. unfold generate_households. gen_unfold.
  by rewrite pair_households_first_loop.
Qed.

(** ** Constituents and segments *)

Lemma bisect_below_last l x :
  l <> [] -> (x < List.last l 0)%Q ->
  (Random.bisect l x (length l) < length l)%nat.
Proof.
  induction l as [|c l IH]; intros Hne Hlt; [done|].
  cbn [length Random.bisect].
  destruct (Qle_bool c x) eqn:Hc; [|lia].
  destruct l as [|c' l'].
  { cbn in Hlt. apply Qle_bool_iff in Hc. lra. }
  specialize (IH ltac:(done) Hlt). lia.
Qed.

Lemma accumulate_from_nonempty acc ws :
  ws <> [] -> Random.accumulate_from acc ws <> [].
Proof. by destruct ws. Qed.

Lemma last_map_nonempty {A B} (f : A -> B) (l : list A) d d' :
  l <> [] -> List.last (map f l) d' = f (List.last l d).
Proof.
  induction l as [|x l IH]; intros Hne; [done|].
  destruct l as [|y l']; [reflexivity|].
  change (List.last (map f (x :: y :: l')) d')
    with (List.last (map f (y :: l')) d').
  change (List.last (x :: y :: l') d) with (List.last (y :: l') d).
  by apply IH.
Qed.

(** [np.random.choice] returns one of the values when the probabilities do
    not sum to zero. *)
Lemma numpy_choice_elem {A} (d : A) (a : list A) (p : list Q) e :
  length a = length p -> p <> [] ->
  ~ (List.last (Random.accumulate p) 1 == 0)%Q ->
  fst (Numpy.choice d a p e) ∈ a.
Proof.
  intros Hlen Hne Htotal. unfold Numpy.choice, np_word. gen_unfold.
  destruct (next_word (np e)) as [w g]. cbn [fst].
  pose proof (unit_of_word_range w) as [_ Hu].
  set (cdf := Random.accumulate p) in *.
  set (total := List.last cdf 1%Q) in *.
  assert (cdf <> []) as Hcdf by by apply accumulate_from_nonempty.
  assert (length cdf = length p) as Hcl by apply accumulate_from_length.
  apply nth_elem_of. rewrite Hlen, <- Hcl.
  rewrite <- (length_map (fun c => (c / total)%Q) cdf).
  apply bisect_below_last.
  - by destruct cdf.
  - rewrite (last_map_nonempty _ cdf 1%Q) by done. fold total.
    assert (total / total == 1)%Q as -> by (field; exact Htotal).
    exact Hu.
Qed.

Section ConstituentTable.

Variable fake_text : string -> N -> string.
Variable cfg : Config.

(** One constituent. *)
Lemma generate_constituent_spec n is_organization e c :
  fst (generate_constituent fake_text cfg n is_organization e) = Some c ->
  constituent_id c = Z.of_nat n + 1
  /\ type c = (if is_organization then "Organization" else "Individual")
  /\ fresh_constituent cfg c.
Proof.
  unfold generate_constituent, fake. gen_unfold.
  destruct (Numpy.choice "" _ _ e) as [st e1].
  destruct is_organization.
  - pose proof (choice_elem ""
                  ["Corporation"; "Foundation"; "Small Business"; "Government"]
                  e1 ltac:(done)) as Hty.
    destruct (Random.choice "" _ e1) as [org_type e2]. cbn [fst] in Hty.
    repeat match goal with
    | |- context [let (_, _) := fk_word ?e in _] => destruct (fk_word e)
    end.
    match goal with |- context [Faker.date_between ?s ?t ?e] =>
      pose proof (date_between_Some s t e) as Hd;
      destruct (Faker.date_between s t e) as [[d|] e'] end;
      cbn [fst mbind option_bind]; [|discriminate].
    cbn [fst] in Hd. destruct (Hd d eq_refl) as (_ & k & Hk & Hdk).
    intros [= <-].
    split; [reflexivity|]. split; [reflexivity|].
    unfold fresh_constituent.
    cbn [creation_date lifetime_giving first_gift_date last_gift_date type
         organization_name organization_type first_name last_name gender].
    split; [by exists k|]. repeat (split; [reflexivity|]).
    cbn [String.eqb Ascii.eqb Bool.eqb].
    split; [by eexists|]. split; [by exists org_type|]. done.
  - pose proof (numpy_choice_elem "" ["F"; "M"; "NB"]
                  [0.495%Q; 0.495%Q; 0.01%Q] e1 eq_refl ltac:(done)
                  ltac:(vm_compute; discriminate)) as Hg.
    destruct (Numpy.choice "" ["F"; "M"; "NB"] _ e1) as [g e2].
    cbn [fst] in Hg.
    match goal with |- context [let (_, _) := ?m e2 in _] =>
      destruct (m e2) as [first e3] end.
    repeat match goal with
    | |- context [let (_, _) := fk_word ?e in _] => destruct (fk_word e)
    end.
    match goal with |- context [Faker.date_between ?s ?t ?e] =>
      pose proof (date_between_Some s t e) as Hd;
      destruct (Faker.date_between s t e) as [[d|] e'] end;
      cbn [fst mbind option_bind]; [|discriminate].
    cbn [fst] in Hd. destruct (Hd d eq_refl) as (_ & k & Hk & Hdk).
    intros [= <-].
    split; [reflexivity|]. split; [reflexivity|].
    unfold fresh_constituent.
    cbn [creation_date lifetime_giving first_gift_date last_gift_date type
         organization_name organization_type first_name last_name gender].
    split; [by exists k|]. repeat (split; [reflexivity|]).
    cbn [String.eqb Ascii.eqb Bool.eqb].
    repeat (split; [done|]). by exists g.
Qed.

Lemma constituents_loop_spec todo is_organization : forall cs e out,
  fst (constituents_loop fake_text cfg todo is_organization cs e) = Some out ->
  exists new,
    out = cs ++ new
    /\ map constituent_id new
       = seqZ (Z.of_nat (length cs) + 1) (Z.of_nat todo)
    /\ map type new
       = replicate todo
           (if is_organization then "Organization" else "Individual")
    /\ Forall (fresh_constituent cfg) new.
Proof.
  induction todo as [|todo IH]; intros cs e out.
  { cbn. intros [= <-]. exists []. rewrite app_nil_r. by repeat split. }
  cbn [constituents_loop]. gen_unfold.
  pose proof (generate_constituent_spec (length cs) is_organization e) as Hc.
  destruct (generate_constituent fake_text cfg (length cs) is_organization e)
    as [[c|] e1]; [|discriminate].
  cbn [fst] in Hc. destruct (Hc c eq_refl) as (Hid & Hty & Hfresh).
  intros Hrun.
  destruct (IH (cs ++ [c]) e1 out Hrun) as (new & -> & Hids & Htys & Hall).
  exists (c :: new). split; [by rewrite <- app_assoc|].
  rewrite length_app in Hids. cbn [length] in Hids.
  split; [|split].
  - cbn [map]. rewrite Nat2Z.inj_succ, seqZ_cons by lia. rewrite Hid.
    f_equal. rewrite Hids. f_equal; lia.
  - cbn [map replicate]. by rewrite Hty, Htys.
  - by constructor.
Qed.

End ConstituentTable.

(** One segment. *)
Lemma create_donor_segments_spec cs : forall segs e,
  map_Forall (fun _ seg => segment_fits seg) segs ->
  let out := fst (create_donor_segments fund_ids cs segs e) in
  map_Forall (fun _ seg => segment_fits seg) out
  /\ forall id, is_Some (out !! id)
                <-> id ∈ map constituent_id cs \/ is_Some (segs !! id).
Proof.
  induction cs as [|c cs IH]; intros segs e Hall; cbv zeta.
  { cbn. split; [done|]. intros id. split; [by right|].
    intros [H|H]; [by inversion H|done]. }
  cbn [create_donor_segments]. gen_unfold.
  pose proof (numpy_choice_elem ""
                ["One-time"; "Occasional"; "Regular"; "Loyal"]
                [0.4%Q; 0.3%Q; 0.2%Q; 0.1%Q] e eq_refl ltac:(done)
                ltac:(vm_compute; discriminate)) as Hfreq.
  destruct (Numpy.choice "" _ _ e) as [freq e1]. cbn [fst] in Hfreq.
  match goal with |- context [let (_, _) := ?m e1 in _] =>
    assert (fst (m e1) ∈ ["Small"; "Medium"; "Major"; "Principal"]) as Hlvl
      by (destruct (String.eqb (type c) "Organization");
          apply numpy_choice_elem;
          first [reflexivity | done | vm_compute; discriminate]);
    destruct (m e1) as [lvl e2] end.
  cbn [fst] in Hlvl.
  pose proof (numpy_choice_elem "" ["Decreasing"; "Stable"; "Increasing"]
                [0.2%Q; 0.5%Q; 0.3%Q] e2 eq_refl ltac:(done)
                ltac:(vm_compute; discriminate)) as Htrend.
  destruct (Numpy.choice "" _ _ e2) as [trend e3]. cbn [fst] in Htrend.
  unfold Random.sample.
  pose proof (sample_pool_length 0 2 fund_ids (length fund_ids) e3) as Hlen.
  pose proof (sample_pool_submseteq 0 2 fund_ids (length fund_ids) e3
                ltac:(cbn; lia)) as Hsub.
  rewrite firstn_all in Hsub.
  destruct (Random.sample_pool 0 fund_ids (length fund_ids) 2 e3)
    as [affinity e4]. cbn [fst] in Hlen, Hsub.
  destruct (IH (<[constituent_id c := mkSegment freq lvl trend affinity]> segs)
              e4) as [Hout Hdom].
  { apply map_Forall_insert_2; [|done].
    unfold segment_fits. cbn [frequency level giving_trend cause_affinity].
    repeat (split; [done|]). split.
    - eapply submseteq_keeps_NoDup; [exact Hsub|].
      apply (bool_decide_unpack _). vm_compute. exact I.
    - intros f Hf. by eapply elem_of_submseteq. }
  cbv zeta in Hout, Hdom. split; [exact Hout|].
  intros id. rewrite Hdom. cbn [map]. rewrite elem_of_cons.
  destruct (decide (id = constituent_id c)) as [->|Hne].
  - rewrite lookup_insert_eq. split; [intros _; by left; left|by eauto].
  - rewrite lookup_insert_ne by done. tauto.
Qed.

(** X1: The constituents [generate_constituents] returns are numbered from 1
    in table order: first [int(n * organization_percentage)] organizations,
    the product taken in binary64, then the individuals that make up the
    requested number.  Each is created within the configured range, with no
    giving on record. *)
Theorem constituents_table fake_text cfg n e constituents segments :
  fst (generate_constituents fake_text cfg fund_ids n e)
  = Some (constituents, segments) ->
  exists num_organizations,
    float_int (fmul (b64 (inject_Z n)) (b64 (organization_percentage cfg)))
    = Some num_organizations
    /\ map constituent_id constituents
       = seqZ 1 (Z.of_nat (length constituents))
    /\ map type constituents
       = replicate (Z.to_nat num_organizations) "Organization"
         ++ replicate (Z.to_nat (n - num_organizations)) "Individual"
    /\ Forall (fresh_constituent cfg) constituents.
Proof.
  unfold generate_constituents.
  destruct (organization_count cfg n) as [num|] eqn:Hcount; [|discriminate].
  unfold organization_count in Hcount. gen_unfold.
  set (norg := Z.to_nat num). set (nind := Z.to_nat (n - num)).
  pose proof (constituents_loop_spec fake_text cfg norg true [] e) as H1.
  destruct (constituents_loop fake_text cfg norg true [] e) as [[orgs'|] e1];
    [|discriminate].
  destruct (H1 orgs' eq_refl) as (orgs & -> & Hids1 & Hty1 & Hall1).
  clear H1. cbn [app].
  pose proof (constituents_loop_spec fake_text cfg nind false orgs e1) as H2.
  destruct (constituents_loop fake_text cfg nind false orgs e1)
    as [[all|] e2]; [|discriminate].
  destruct (H2 all eq_refl) as (inds & -> & Hids2 & Hty2 & Hall2).
  clear H2.
  destruct (create_donor_segments fund_ids (orgs ++ inds) ∅ e2)
    as [segs e3].
  cbn [fst]. intros [= <- <-]. exists num. split; [exact Hcount|].
  assert (length orgs = norg) as Hlo.
  { apply (f_equal (@length Z)) in Hids1.
    by rewrite length_map, length_seqZ, Nat2Z.id in Hids1. }
  assert (length inds = nind) as Hli.
  { apply (f_equal (@length Z)) in Hids2.
    by rewrite length_map, length_seqZ, Nat2Z.id in Hids2. }
  cbn [length] in Hids1. split; [|split].
  - rewrite map_app, length_app, seqZ_app_lengths, Hids1, Hids2, Hlo, Hli.
    do 2 f_equal; lia.
  - by rewrite map_app, Hty1, Hty2.
  - apply Forall_app. by split.
Qed.

(** Ten constituents under the default configuration: one organization and
    nine individuals. *)
Lemma constituents_table_witness :
  exists constituents segments,
    fst (generate_constituents plain_fake_text default_config fund_ids 10
           zero_entropy)
    = Some (constituents, segments)
    /\ exists num_organizations,
         float_int (fmul (b64 (inject_Z 10))
                      (b64 (organization_percentage default_config)))
         = Some num_organizations
         /\ map constituent_id constituents
            = seqZ 1 (Z.of_nat (length constituents))
         /\ map type constituents
            = replicate (Z.to_nat num_organizations) "Organization"
              ++ replicate (Z.to_nat (10 - num_organizations)) "Individual"
         /\ Forall (fresh_constituent default_config) constituents.
Proof.
  destruct (fst (generate_constituents plain_fake_text default_config fund_ids
                   10 zero_entropy)) as [[constituents segments]|] eqn:Hrun.
  - exists constituents, segments. split; [reflexivity|].
    exact (constituents_table plain_fake_text default_config 10 zero_entropy
             constituents segments Hrun).
  - vm_compute in Hrun. discriminate Hrun.
Defined.

(** X2: In what [generate_constituents] returns, every constituent has a
    segment and nobody else has one.  A segment has one of the four
    frequencies, one of the four levels, one of the three trends, and two
    distinct funds of the funds table as its causes. *)
Theorem segments_cover_constituents fake_text cfg n e constituents segments :
  fst (generate_constituents fake_text cfg fund_ids n e)
  = Some (constituents, segments) ->
  (forall id, is_Some (segments !! id)
              <-> id ∈ map constituent_id constituents)
  /\ map_Forall (fun _ seg => segment_fits seg) segments.
Proof.
  unfold generate_constituents.
  destruct (organization_count cfg n) as [num|]; [|discriminate].
  gen_unfold.
  destruct (constituents_loop fake_text cfg (Z.to_nat num) true [] e)
    as [[orgs|] e1]; [|discriminate].
  destruct (constituents_loop fake_text cfg (Z.to_nat (n - num)) false orgs e1)
    as [[all|] e2]; [|discriminate].
  destruct (create_donor_segments_spec all ∅ e2) as [Hall Hdom].
  { apply map_Forall_empty. }
  cbv zeta in Hall, Hdom.
  destruct (create_donor_segments fund_ids all ∅ e2) as [segs e3].
  cbn [fst] in *. intros [= <- <-]. split; [|exact Hall].
  intros id. rewrite Hdom, lookup_empty. split; [|by left].
  intros [H|H]; [done|]. by destruct H.
Qed.

Lemma segments_cover_constituents_witness :
  exists constituents segments,
    fst (generate_constituents plain_fake_text default_config fund_ids 10
           zero_entropy)
    = Some (constituents, segments)
    /\ (forall id, is_Some (segments !! id)
                   <-> id ∈ map constituent_id constituents)
    /\ map_Forall (fun _ seg => segment_fits seg) segments.
Proof.
  destruct (fst (generate_constituents plain_fake_text default_config fund_ids
                   10 zero_entropy)) as [[constituents segments]|] eqn:Hrun.
  - exists constituents, segments. split; [reflexivity|].
    exact (segments_cover_constituents plain_fake_text default_config 10
             zero_entropy constituents segments Hrun).
  - vm_compute in Hrun. discriminate Hrun.
Defined.

